(** * Career analysis workflow: barriers, fault containment, run context

    A shallow embedding of [app/workflows/analysis_workflow.py],
    [app/workflows/events.py] and of [BaseAgent.process] from
    [app/agents/base_agent.py], with the properties of the orchestration
    core stated over it, and of the code that starts a run and stores
    its results.

    Conventions.
    - Python values of type [Any] are the JSON-like type [pyval]; a Python
      [dict] with string keys is an insertion-ordered association list.
    - The run context ([ctx.store]) is the record [Store]; a key that was
      never set is [None], so [get(key, default=...)] and [get(key)] can
      be told apart.
    - A handler is a computation in the monad [M]: it threads the store,
      the events passed to [ctx.send_event] and the progress notifications
      the sink accepted, and it may raise (nothing is kept of what a
      raising handler did: the run has failed).
    - Exceptions are the [Exception] family only; interpreter-level signals
      (task cancellation, interpreter exit) are not part of the model.
    - Wall-clock timing ([processing_time_ms]) is not modelled, and of
      the field validation done by the event base class only that of the
      start event an endpoint builds.

    Around the workflow, the session table ([app/models/session.py]), the
    progress connections ([app/api/websocket.py]) and the analysis
    endpoints ([app/api/routes.py]) are embedded as functions on the
    table they change.
    - A [datetime] is a number of microseconds; every reading of the
      clock is an argument of the function that makes it, and so is every
      id drawn with [uuid].
    - A method of the session manager is one atomic step (it holds the
      lock); what a socket does on [send_json] is an argument. *)

From Stdlib Require Import String List Bool ZArith Lia Permutation.
Import ListNotations.
Open Scope string_scope.

(** ** Python values *)

#[warnings="-register-all"]
Inductive pyval : Type :=
| VNone
| VBool (b : bool)
| VInt (n : Z)
| VStr (s : string)
| VList (l : list pyval)
| VDict (d : list (string * pyval)).

(** A [dict] keyed by strings, in insertion order. *)
Definition dict (V : Type) : Type := list (string * V).
Definition pydict : Type := dict pyval.

Module Dict.
Section Ops.
Context {V : Type}.

(** [d.get(k)] *)
Fixpoint get (k : string) (d : dict V) : option V :=
  match d with
  | [] => None
  | (k', v) :: rest => if String.eqb k k' then Some v else get k rest
  end.

(** [d.get(k, default)] *)
Definition get_default (k : string) (default : V) (d : dict V) : V :=
  match get k d with Some v => v | None => default end.

(** [d[k] = v]: an existing key keeps its position, a new key goes last. *)
Fixpoint set (k : string) (v : V) (d : dict V) : dict V :=
  match d with
  | [] => [(k, v)]
  | (k', v') :: rest =>
      if String.eqb k k' then (k', v) :: rest else (k', v') :: set k v rest
  end.

Definition keys (d : dict V) : list string := map fst d.
Definition values (d : dict V) : list V := map snd d.
Definition items (d : dict V) : list (string * V) := d.
End Ops.
End Dict.

(** Truth value of a Python object ([if x:]). *)
Definition py_truthy (v : pyval) : bool :=
  match v with
  | VNone => false
  | VBool b => b
  | VInt n => negb (Z.eqb n 0)
  | VStr s => negb (String.eqb s "")
  | VList l => match l with [] => false | _ => true end
  | VDict d => match d with [] => false | _ => true end
  end.

(** Python [==] on these values: [bool] is a subtype of [int]
    ([True == 1]), lists compare element-wise, dicts compare as sets of
    items. *)
Fixpoint py_eqb (a b : pyval) {struct a} : bool :=
  match a, b with
  | VNone, VNone => true
  | VBool x, VBool y => Bool.eqb x y
  | VBool x, VInt n => Z.eqb (if x then 1 else 0) n
  | VInt n, VBool x => Z.eqb n (if x then 1 else 0)
  | VInt m, VInt n => Z.eqb m n
  | VStr s, VStr t => String.eqb s t
  | VList l, VList l' =>
      (fix eq_list (xs ys : list pyval) {struct xs} : bool :=
         match xs, ys with
         | [], [] => true
         | x :: xs', y :: ys' => py_eqb x y && eq_list xs' ys'
         | _, _ => false
         end) l l'
  | VDict d, VDict d' =>
      Nat.eqb (length d) (length d')
      && forallb (fun kv : string * pyval =>
                    existsb (fun kv' : string * pyval =>
                               String.eqb (fst kv) (fst kv')
                               && py_eqb (snd kv) (snd kv')) d') d
  | _, _ => false
  end.

(** Structural induction on [pyval] that also gives the hypothesis for the
    values nested in a list or a dict. *)
Fixpoint pyval_nested_ind (P : pyval -> Prop)
    (HNone : P VNone) (HBool : forall b, P (VBool b)) (HInt : forall n, P (VInt n))
    (HStr : forall s, P (VStr s))
    (HList : forall l, Forall P l -> P (VList l))
    (HDict : forall d, Forall (fun kv => P (snd kv)) d -> P (VDict d))
    (v : pyval) {struct v} : P v :=
  match v with
  | VNone => HNone
  | VBool b => HBool b
  | VInt n => HInt n
  | VStr s => HStr s
  | VList l =>
      HList l ((fix all (xs : list pyval) : Forall P xs :=
                  match xs with
                  | [] => Forall_nil P
                  | x :: xs' =>
                      Forall_cons x
                        (pyval_nested_ind P HNone HBool HInt HStr HList HDict x)
                        (all xs')
                  end) l)
  | VDict d =>
      HDict d ((fix all (xs : list (string * pyval))
                  : Forall (fun kv => P (snd kv)) xs :=
                  match xs with
                  | [] => Forall_nil _
                  | kv :: xs' =>
                      Forall_cons kv
                        (pyval_nested_ind P HNone HBool HInt HStr HList HDict (snd kv))
                        (all xs')
                  end) d)
  end.

(** [x in xs] for a Python list. *)
Definition py_in (x : pyval) (xs : list pyval) : bool := existsb (py_eqb x) xs.

(** [x in xs] for a list of [str]. *)
Definition str_in (x : string) (xs : list string) : bool :=
  existsb (String.eqb x) xs.

(** [all(f(x) for x in xs)] *)
Definition py_all {A : Type} (f : A -> bool) (xs : list A) : bool := forallb f xs.

(** ** Exceptions and outcomes *)

Inductive exn : Type :=
| ValueError (msg : string)
| AttributeError (msg : string)
| TypeError (msg : string)
| OtherException (msg : string).

(** [str(e)] *)
Definition exn_str (e : exn) : string :=
  match e with
  | ValueError m | AttributeError m | TypeError m | OtherException m => m
  end.

Inductive outcome (A : Type) : Type :=
| Returned (a : A)
| Raised (e : exn).
Arguments Returned {A} a.
Arguments Raised {A} e.

(** ** Events ([app/workflows/events.py]) *)

(** The [result] dict of the [StopEvent] built by [finalize]. *)
Record AnalysisResult : Type := {
  res_success : bool;
  res_session_id : string;
  res_resume_id : string;
  res_job_matches : list pydict;
  res_recommendations : pydict;
  res_interview_prep : pydict;
  res_market_insights : pydict
}.

Inductive Event : Type :=
| StartAnalysisEvent (session_id resume_id : string) (job_ids : list string)
    (resume_text : option string) (job_texts : option (dict string))
| ResumeParseEvent (resume_text resume_id : string)
| ResumeParseResultEvent (resume_id : string) (parsed_resume : pydict)
| JDAnalyzeEvent (job_id jd_text : string)
| JDAnalyzeResultEvent (job_id : string) (parsed_jd : pydict)
| SkillMatchEvent (session_id resume_id job_id : string)
| SkillMatchResultEvent (job_id : string) (match_result : pydict)
| GenerateRecommendationsEvent (session_id : string) (skill_gaps : list pyval)
| GenerateInterviewPrepEvent (session_id : string) (skill_gaps : list pyval)
| GenerateMarketInsightsEvent (session_id : string) (job_title : pyval)
| RecommendationResultEvent (recommendations : pydict)
| InterviewPrepResultEvent (interview_prep : pydict)
| MarketInsightsResultEvent (market_insights : pydict)
| StopEvent (result : AnalysisResult).

(** [ev.job_id], for the events that have the attribute. *)
Definition event_job_id (ev : Event) : option string :=
  match ev with
  | JDAnalyzeEvent j _ | JDAnalyzeResultEvent j _
  | SkillMatchEvent _ _ j | SkillMatchResultEvent j _ => Some j
  | _ => None
  end.

(** ** Run context ([ctx.store]) *)

(** One field per key the workflow uses; [None] is a key never set. *)
Record Store : Type := {
  session_id : option string;
  resume_id : option string;
  job_ids : option (list string);
  completed_steps : option (list string);
  parsed_jobs : option (dict pydict);
  skill_matches : option (dict pydict);
  all_skill_gaps : option (list pyval);
  needs_resume_parsing : option bool;
  needs_jd_parsing : option bool;
  parsed_resume : option pydict;
  recommendations : option pydict;
  interview_prep : option pydict;
  market_insights : option pydict
}.

Definition empty_store : Store :=
  {| session_id := None; resume_id := None; job_ids := None;
     completed_steps := None; parsed_jobs := None; skill_matches := None;
     all_skill_gaps := None; needs_resume_parsing := None;
     needs_jd_parsing := None; parsed_resume := None;
     recommendations := None; interview_prep := None;
     market_insights := None |}.

(** [ctx.store.set(key, value)], one function per key. *)
Definition set_session_id (v : string) (s : Store) : Store :=
  {| session_id := Some v; resume_id := resume_id s; job_ids := job_ids s;
     completed_steps := completed_steps s; parsed_jobs := parsed_jobs s;
     skill_matches := skill_matches s; all_skill_gaps := all_skill_gaps s;
     needs_resume_parsing := needs_resume_parsing s;
     needs_jd_parsing := needs_jd_parsing s; parsed_resume := parsed_resume s;
     recommendations := recommendations s; interview_prep := interview_prep s;
     market_insights := market_insights s |}.

Definition set_resume_id (v : string) (s : Store) : Store :=
  {| session_id := session_id s; resume_id := Some v; job_ids := job_ids s;
     completed_steps := completed_steps s; parsed_jobs := parsed_jobs s;
     skill_matches := skill_matches s; all_skill_gaps := all_skill_gaps s;
     needs_resume_parsing := needs_resume_parsing s;
     needs_jd_parsing := needs_jd_parsing s; parsed_resume := parsed_resume s;
     recommendations := recommendations s; interview_prep := interview_prep s;
     market_insights := market_insights s |}.

Definition set_job_ids (v : list string) (s : Store) : Store :=
  {| session_id := session_id s; resume_id := resume_id s; job_ids := Some v;
     completed_steps := completed_steps s; parsed_jobs := parsed_jobs s;
     skill_matches := skill_matches s; all_skill_gaps := all_skill_gaps s;
     needs_resume_parsing := needs_resume_parsing s;
     needs_jd_parsing := needs_jd_parsing s; parsed_resume := parsed_resume s;
     recommendations := recommendations s; interview_prep := interview_prep s;
     market_insights := market_insights s |}.

Definition set_completed_steps (v : list string) (s : Store) : Store :=
  {| session_id := session_id s; resume_id := resume_id s; job_ids := job_ids s;
     completed_steps := Some v; parsed_jobs := parsed_jobs s;
     skill_matches := skill_matches s; all_skill_gaps := all_skill_gaps s;
     needs_resume_parsing := needs_resume_parsing s;
     needs_jd_parsing := needs_jd_parsing s; parsed_resume := parsed_resume s;
     recommendations := recommendations s; interview_prep := interview_prep s;
     market_insights := market_insights s |}.

Definition set_parsed_jobs (v : dict pydict) (s : Store) : Store :=
  {| session_id := session_id s; resume_id := resume_id s; job_ids := job_ids s;
     completed_steps := completed_steps s; parsed_jobs := Some v;
     skill_matches := skill_matches s; all_skill_gaps := all_skill_gaps s;
     needs_resume_parsing := needs_resume_parsing s;
     needs_jd_parsing := needs_jd_parsing s; parsed_resume := parsed_resume s;
     recommendations := recommendations s; interview_prep := interview_prep s;
     market_insights := market_insights s |}.

Definition set_skill_matches (v : dict pydict) (s : Store) : Store :=
  {| session_id := session_id s; resume_id := resume_id s; job_ids := job_ids s;
     completed_steps := completed_steps s; parsed_jobs := parsed_jobs s;
     skill_matches := Some v; all_skill_gaps := all_skill_gaps s;
     needs_resume_parsing := needs_resume_parsing s;
     needs_jd_parsing := needs_jd_parsing s; parsed_resume := parsed_resume s;
     recommendations := recommendations s; interview_prep := interview_prep s;
     market_insights := market_insights s |}.

Definition set_all_skill_gaps (v : list pyval) (s : Store) : Store :=
  {| session_id := session_id s; resume_id := resume_id s; job_ids := job_ids s;
     completed_steps := completed_steps s; parsed_jobs := parsed_jobs s;
     skill_matches := skill_matches s; all_skill_gaps := Some v;
     needs_resume_parsing := needs_resume_parsing s;
     needs_jd_parsing := needs_jd_parsing s; parsed_resume := parsed_resume s;
     recommendations := recommendations s; interview_prep := interview_prep s;
     market_insights := market_insights s |}.

Definition set_needs_resume_parsing (v : bool) (s : Store) : Store :=
  {| session_id := session_id s; resume_id := resume_id s; job_ids := job_ids s;
     completed_steps := completed_steps s; parsed_jobs := parsed_jobs s;
     skill_matches := skill_matches s; all_skill_gaps := all_skill_gaps s;
     needs_resume_parsing := Some v;
     needs_jd_parsing := needs_jd_parsing s; parsed_resume := parsed_resume s;
     recommendations := recommendations s; interview_prep := interview_prep s;
     market_insights := market_insights s |}.

Definition set_needs_jd_parsing (v : bool) (s : Store) : Store :=
  {| session_id := session_id s; resume_id := resume_id s; job_ids := job_ids s;
     completed_steps := completed_steps s; parsed_jobs := parsed_jobs s;
     skill_matches := skill_matches s; all_skill_gaps := all_skill_gaps s;
     needs_resume_parsing := needs_resume_parsing s;
     needs_jd_parsing := Some v; parsed_resume := parsed_resume s;
     recommendations := recommendations s; interview_prep := interview_prep s;
     market_insights := market_insights s |}.

Definition set_parsed_resume (v : pydict) (s : Store) : Store :=
  {| session_id := session_id s; resume_id := resume_id s; job_ids := job_ids s;
     completed_steps := completed_steps s; parsed_jobs := parsed_jobs s;
     skill_matches := skill_matches s; all_skill_gaps := all_skill_gaps s;
     needs_resume_parsing := needs_resume_parsing s;
     needs_jd_parsing := needs_jd_parsing s; parsed_resume := Some v;
     recommendations := recommendations s; interview_prep := interview_prep s;
     market_insights := market_insights s |}.

Definition set_recommendations (v : pydict) (s : Store) : Store :=
  {| session_id := session_id s; resume_id := resume_id s; job_ids := job_ids s;
     completed_steps := completed_steps s; parsed_jobs := parsed_jobs s;
     skill_matches := skill_matches s; all_skill_gaps := all_skill_gaps s;
     needs_resume_parsing := needs_resume_parsing s;
     needs_jd_parsing := needs_jd_parsing s; parsed_resume := parsed_resume s;
     recommendations := Some v; interview_prep := interview_prep s;
     market_insights := market_insights s |}.

Definition set_interview_prep (v : pydict) (s : Store) : Store :=
  {| session_id := session_id s; resume_id := resume_id s; job_ids := job_ids s;
     completed_steps := completed_steps s; parsed_jobs := parsed_jobs s;
     skill_matches := skill_matches s; all_skill_gaps := all_skill_gaps s;
     needs_resume_parsing := needs_resume_parsing s;
     needs_jd_parsing := needs_jd_parsing s; parsed_resume := parsed_resume s;
     recommendations := recommendations s; interview_prep := Some v;
     market_insights := market_insights s |}.

Definition set_market_insights (v : pydict) (s : Store) : Store :=
  {| session_id := session_id s; resume_id := resume_id s; job_ids := job_ids s;
     completed_steps := completed_steps s; parsed_jobs := parsed_jobs s;
     skill_matches := skill_matches s; all_skill_gaps := all_skill_gaps s;
     needs_resume_parsing := needs_resume_parsing s;
     needs_jd_parsing := needs_jd_parsing s; parsed_resume := parsed_resume s;
     recommendations := recommendations s; interview_prep := interview_prep s;
     market_insights := Some v |}.

(** ** Progress notifications *)

(** The keyword arguments of [broadcast_agent_progress]. *)
Record Notification : Type := {
  n_session_id : string;
  n_agent_name : string;
  n_status : string;
  n_progress : Z;
  n_current_step : option string;
  n_error : option string
}.

(** ** The handler monad *)

(** What a handler invocation threads: the run context, the events handed
    to [ctx.send_event] so far, and the notifications the sink accepted. *)
Record HState : Type := {
  h_store : Store;
  h_sent : list Event;
  h_progress : list Notification
}.

Definition M (A : Type) : Type := HState -> outcome (A * HState).

Definition ret {A : Type} (a : A) : M A := fun h => Returned (a, h).

Definition bind {A B : Type} (m : M A) (k : A -> M B) : M B :=
  fun h => match m h with
           | Returned (a, h') => k a h'
           | Raised e => Raised e
           end.

Definition raise {A : Type} (e : exn) : M A := fun _ => Raised e.

Declare Scope handler_scope.
Delimit Scope handler_scope with handler.
Notation "x <- m ;; k" := (bind m (fun x => k))
  (at level 61, m at next level, right associativity) : handler_scope.
Notation "m ;;; k" := (bind m (fun _ => k))
  (at level 61, right associativity) : handler_scope.
Open Scope handler_scope.

(** [await ctx.store.get(key)]: without a default an absent key is an
    error ([ValueError] in the workflow library). *)
Definition store_get {A : Type} (key : string) (field : Store -> option A) : M A :=
  fun h => match field (h_store h) with
           | Some v => Returned (v, h)
           | None => Raised (ValueError ("Path '" ++ key ++ "' not found in state"))
           end.

(** [await ctx.store.get(key, default=d)] *)
Definition store_get_default {A : Type} (field : Store -> option A) (d : A) : M A :=
  fun h => Returned (match field (h_store h) with Some v => v | None => d end, h).

(** [await ctx.store.set(key, value)] *)
Definition store_set (update : Store -> Store) : M unit :=
  fun h => Returned (tt, {| h_store := update (h_store h);
                            h_sent := h_sent h;
                            h_progress := h_progress h |}).

(** [ctx.send_event(ev)] *)
Definition send_event (ev : Event) : M unit :=
  fun h => Returned (tt, {| h_store := h_store h;
                            h_sent := h_sent h ++ [ev];
                            h_progress := h_progress h |}).

(** [for x in xs: acc = body(x, acc)] *)
Fixpoint for_each {A B : Type} (xs : list A) (body : A -> B -> M B) (acc : B) : M B :=
  match xs with
  | [] => ret acc
  | x :: rest => acc' <- body x acc ;; for_each rest body acc'
  end.

(** The dispatch idiom of the workflow: the first event built is kept to
    be returned, every later one goes through [ctx.send_event]. *)
Definition first_or_send (ev : Event) (first_event : option Event) : M (option Event) :=
  match first_event with
  | None => ret (Some ev)
  | Some _ => send_event ev ;;; ret first_event
  end.

(** What a handler invocation amounts to for the dispatcher: the context
    it leaves, the events sent and the event returned. *)
Record HandlerResult : Type := {
  hr_store : Store;
  hr_sent : list Event;
  hr_returned : option Event;
  hr_progress : list Notification
}.

(** All events a handler invocation enqueues, in enqueueing order. *)
Definition emitted (r : HandlerResult) : list Event :=
  hr_sent r ++ match hr_returned r with Some ev => [ev] | None => [] end.

Definition run_handler (m : M (option Event)) (st : Store) : outcome HandlerResult :=
  match m {| h_store := st; h_sent := []; h_progress := [] |} with
  | Returned (r, h) =>
      Returned {| hr_store := h_store h; hr_sent := h_sent h;
                  hr_returned := r; hr_progress := h_progress h |}
  | Raised e => Raised e
  end.

(** ** Agents ([app/agents/base_agent.py]) *)

Record AgentOutput : Type := {
  success : bool;
  data : pydict;
  errors : list string
}.

Record Agent : Type := {
  name : string;
  _session_id : option string
}.

(** ** More dict operations *)

(** [k in d] *)
Definition dict_contains {V : Type} (k : string) (d : dict V) : bool :=
  match Dict.get k d with Some _ => true | None => false end.

(** [del d[k]], where the code has checked that the key is present; an
    absent key leaves the dict as it is. *)
Definition dict_del {V : Type} (k : string) (d : dict V) : dict V :=
  filter (fun kv => negb (String.eqb k (fst kv))) d.

(** ** Sessions ([app/models/session.py]) *)

Module Session.

(** The dict [update_agent_progress] stores for an agent. [updated_at] is
    the clock reading as formatted by [isoformat]. *)
Record AgentProgress : Type := {
  status : string;
  progress : Z;
  result : pyval;
  error : option string;
  updated_at : string
}.

(** [SessionData]. A [datetime] is a number of microseconds. *)
Record SessionData : Type := {
  session_id : string;
  created_at : Z;
  expires_at : Z;
  resume_id : option string;
  resume_text : option string;
  parsed_resume : option pydict;
  job_descriptions : dict pydict;
  analysis_id : option string;
  analysis_started_at : option Z;
  analysis_completed_at : option Z;
  analysis_status : string;
  job_matches : option (list pydict);
  recommendations : option pydict;
  interview_prep : option pydict;
  market_insights : option pydict;
  agent_progress : dict AgentProgress
}.

(** [SessionData(session_id=..., created_at=..., expires_at=...)] *)
Definition new_session (sid : string) (created expires : Z) : SessionData :=
  {| session_id := sid; created_at := created; expires_at := expires;
     resume_id := None; resume_text := None; parsed_resume := None;
     job_descriptions := [];
     analysis_id := None; analysis_started_at := None;
     analysis_completed_at := None; analysis_status := "pending";
     job_matches := None; recommendations := None; interview_prep := None;
     market_insights := None; agent_progress := [] |}.

(** The attribute assignments the code makes on a session object. *)
Definition with_resume (rid text : string) (parsed : pydict) (s : SessionData)
    : SessionData :=
  {| session_id := session_id s; created_at := created_at s;
     expires_at := expires_at s;
     resume_id := Some rid; resume_text := Some text; parsed_resume := Some parsed;
     job_descriptions := job_descriptions s;
     analysis_id := analysis_id s; analysis_started_at := analysis_started_at s;
     analysis_completed_at := analysis_completed_at s;
     analysis_status := analysis_status s;
     job_matches := job_matches s; recommendations := recommendations s;
     interview_prep := interview_prep s; market_insights := market_insights s;
     agent_progress := agent_progress s |}.

Definition with_job_descriptions (jds : dict pydict) (s : SessionData) : SessionData :=
  {| session_id := session_id s; created_at := created_at s;
     expires_at := expires_at s;
     resume_id := resume_id s; resume_text := resume_text s;
     parsed_resume := parsed_resume s;
     job_descriptions := jds;
     analysis_id := analysis_id s; analysis_started_at := analysis_started_at s;
     analysis_completed_at := analysis_completed_at s;
     analysis_status := analysis_status s;
     job_matches := job_matches s; recommendations := recommendations s;
     interview_prep := interview_prep s; market_insights := market_insights s;
     agent_progress := agent_progress s |}.

Definition with_analysis_started (aid : string) (started : Z) (s : SessionData)
    : SessionData :=
  {| session_id := session_id s; created_at := created_at s;
     expires_at := expires_at s;
     resume_id := resume_id s; resume_text := resume_text s;
     parsed_resume := parsed_resume s;
     job_descriptions := job_descriptions s;
     analysis_id := Some aid; analysis_started_at := Some started;
     analysis_completed_at := analysis_completed_at s;
     analysis_status := "running";
     job_matches := job_matches s; recommendations := recommendations s;
     interview_prep := interview_prep s; market_insights := market_insights s;
     agent_progress := agent_progress s |}.

Definition with_analysis_status (st : string) (s : SessionData) : SessionData :=
  {| session_id := session_id s; created_at := created_at s;
     expires_at := expires_at s;
     resume_id := resume_id s; resume_text := resume_text s;
     parsed_resume := parsed_resume s;
     job_descriptions := job_descriptions s;
     analysis_id := analysis_id s; analysis_started_at := analysis_started_at s;
     analysis_completed_at := analysis_completed_at s;
     analysis_status := st;
     job_matches := job_matches s; recommendations := recommendations s;
     interview_prep := interview_prep s; market_insights := market_insights s;
     agent_progress := agent_progress s |}.

Definition with_results (matches : list pydict) (recs prep insights : option pydict)
    (completed : Z) (s : SessionData) : SessionData :=
  {| session_id := session_id s; created_at := created_at s;
     expires_at := expires_at s;
     resume_id := resume_id s; resume_text := resume_text s;
     parsed_resume := parsed_resume s;
     job_descriptions := job_descriptions s;
     analysis_id := analysis_id s; analysis_started_at := analysis_started_at s;
     analysis_completed_at := Some completed;
     analysis_status := "completed";
     job_matches := Some matches; recommendations := recs;
     interview_prep := prep; market_insights := insights;
     agent_progress := agent_progress s |}.

Definition with_agent_progress (ap : dict AgentProgress) (s : SessionData)
    : SessionData :=
  {| session_id := session_id s; created_at := created_at s;
     expires_at := expires_at s;
     resume_id := resume_id s; resume_text := resume_text s;
     parsed_resume := parsed_resume s;
     job_descriptions := job_descriptions s;
     analysis_id := analysis_id s; analysis_started_at := analysis_started_at s;
     analysis_completed_at := analysis_completed_at s;
     analysis_status := analysis_status s;
     job_matches := job_matches s; recommendations := recommendations s;
     interview_prep := interview_prep s; market_insights := market_insights s;
     agent_progress := ap |}.

(** [SessionData.is_expired], with the clock reading as an argument. *)
Definition is_expired (now : Z) (s : SessionData) : bool :=
  Z.gtb now (expires_at s).

(** [SessionManager]'s class constants. *)
Definition MAX_SESSIONS : nat := 1000.
Definition MAX_JDS_PER_SESSION : nat := 5.
Definition SESSION_EXPIRY_HOURS : Z := 1.

(** [timedelta(hours=h)] in microseconds. *)
Definition hours (h : Z) : Z := (h * 3600000000)%Z.

(** [SessionManager._sessions]. Every method holds the lock or works on a
    session object it alone mutates, so a method is one atomic step. *)
Definition sessions : Type := dict SessionData.

(** [SessionManager._cleanup_expired]; the clock readings of one call are
    taken at one instant. *)
Definition _cleanup_expired (now : Z) (m : sessions) : sessions * nat :=
  let expired := map fst (filter (fun kv => is_expired now (snd kv)) m) in
  (fold_left (fun d sid => dict_del sid d) expired m, length expired).

(** [SessionManager.create_session]. [candidates] are the successive
    values of [str(uuid.uuid4())]; the result is [None] when all of them
    are taken, where the code would draw again. *)
Definition create_session (candidates : list string) (now created expiry_base : Z)
    (m : sessions) : option (sessions * SessionData) :=
  let m1 := if Nat.leb MAX_SESSIONS (length m) then fst (_cleanup_expired now m)
            else m in
  match find (fun c => negb (dict_contains c m1)) candidates with
  | Some sid =>
      let session := new_session sid created
                                 (expiry_base + hours SESSION_EXPIRY_HOURS)%Z in
      Some (Dict.set sid session m1, session)
  | None => None
  end.

(** [SessionManager.get_session] *)
Definition get_session (now : Z) (sid : string) (m : sessions)
    : sessions * option SessionData :=
  match Dict.get sid m with
  | None => (m, None)
  | Some session =>
      if is_expired now session then (dict_del sid m, None)
      else (m, Some session)
  end.

(** [SessionManager.update_session] *)
Definition update_session (session : SessionData) (m : sessions) : sessions :=
  if dict_contains (session_id session) m
  then Dict.set (session_id session) session m
  else m.

(** Assignments to attributes of the session object that [get_session]
    returned for [sid]. That object is the one the dict holds under [sid]:
    the dict sees the new attribute values at once, before
    [update_session] stores the object again. *)
Definition assign (sid : string) (session : SessionData) (m : sessions) : sessions :=
  Dict.set sid session m.

(** [SessionManager.delete_session] *)
Definition delete_session (sid : string) (m : sessions) : sessions * bool :=
  if dict_contains sid m then (dict_del sid m, true) else (m, false).

(** [SessionManager.set_resume] *)
Definition set_resume (now : Z) (sid rid text : string) (parsed : pydict)
    (m : sessions) : sessions * bool :=
  match get_session now sid m with
  | (m', None) => (m', false)
  | (m', Some session) =>
      let session := with_resume rid text parsed session in
      (update_session session (assign sid session m'), true)
  end.

(** [SessionManager.add_job_description] *)
Definition add_job_description (now : Z) (sid jid : string) (parsed_jd : pydict)
    (m : sessions) : sessions * bool :=
  match get_session now sid m with
  | (m', None) => (m', false)
  | (m', Some session) =>
      if Nat.leb MAX_JDS_PER_SESSION (length (job_descriptions session))
      then (m', false)
      else
        let session :=
          with_job_descriptions
            (Dict.set jid parsed_jd (job_descriptions session)) session in
        (update_session session (assign sid session m'), true)
  end.

(** [SessionManager.set_analysis_results]; [completed] is the clock
    reading stored in [analysis_completed_at]. *)
Definition set_analysis_results (now completed : Z) (sid : string)
    (matches : list pydict) (recs prep insights : option pydict) (m : sessions)
    : sessions * bool :=
  match get_session now sid m with
  | (m', None) => (m', false)
  | (m', Some session) =>
      let session := with_results matches recs prep insights completed session in
      (update_session session (assign sid session m'), true)
  end.

(** [SessionManager.update_agent_progress]; [stamp] is the formatted clock
    reading stored in [updated_at]. *)
Definition update_agent_progress (now : Z) (stamp : string) (sid agent_name : string)
    (st : string) (pr : Z) (res : pyval) (err : option string) (m : sessions)
    : sessions * bool :=
  match get_session now sid m with
  | (m', None) => (m', false)
  | (m', Some session) =>
      let session :=
        with_agent_progress
          (Dict.set agent_name
                    {| status := st; progress := pr; result := res;
                       error := err; updated_at := stamp |}
                    (agent_progress session)) session in
      (update_session session (assign sid session m'), true)
  end.

End Session.

(** ** Progress connections ([app/api/websocket.py]) *)

(** Whether a call returned. *)
Definition returns {A : Type} (o : outcome A) : bool :=
  match o with
  | Returned _ => true
  | Raised _ => false
  end.


Module Websocket.

(** A connection object, known by its identity. *)
Definition WebSocket : Type := nat.

(** A Python [set] of connections: a list without duplicates. The order
    in which a set is iterated is not specified; the list keeps the order
    of addition. *)
Definition set_mem (ws : WebSocket) (s : list WebSocket) : bool :=
  existsb (Nat.eqb ws) s.

Definition set_add (ws : WebSocket) (s : list WebSocket) : list WebSocket :=
  if set_mem ws s then s else (s ++ [ws])%list.

Definition set_discard (ws : WebSocket) (s : list WebSocket) : list WebSocket :=
  filter (fun x => negb (Nat.eqb ws x)) s.

(** [ConnectionManager._active_connections] *)
Definition connections : Type := dict (list WebSocket).

(** What [connect] asks of the socket. *)
Inductive Handshake : Type :=
| Close (code : Z) (reason : string)
| Accept.

(** [ConnectionManager.connect]. The handshake calls are taken to return. *)
Definition connect (now : Z) (websocket : WebSocket) (sid : string)
    (m : Session.sessions) (c : connections)
    : Session.sessions * connections * Handshake * bool :=
  match Session.get_session now sid m with
  | (m', None) => (m', c, Close 4001 "Session not found", false)
  | (m', Some _) =>
      let c1 := if dict_contains sid c then c else Dict.set sid [] c in
      (m', Dict.set sid (set_add websocket (Dict.get_default sid [] c1)) c1,
       Accept, true)
  end.

(** [ConnectionManager.disconnect] *)
Definition disconnect (websocket : WebSocket) (sid : string) (c : connections)
    : connections :=
  if dict_contains sid c then
    let c1 := Dict.set sid (set_discard websocket (Dict.get_default sid [] c)) c in
    match Dict.get_default sid [] c1 with
    | [] => dict_del sid c1
    | _ :: _ => c1
    end
  else c.

(** [ConnectionManager.broadcast_to_session]. [send_json] tells whether
    [connection.send_json(message)] returns or raises; [stamp] is the
    formatted clock reading. The result is the connection table left and
    what was delivered to whom. *)
Definition broadcast_to_session (send_json : WebSocket -> pydict -> outcome unit)
    (stamp : string) (sid : string) (message : pydict) (c : connections)
    : connections * list (WebSocket * pydict) :=
  match Dict.get sid c with
  | None => (c, [])
  | Some conns =>
      let message := Dict.set "timestamp" (VStr stamp) message in
      let sent :=
        fold_left
          (fun (acc : list (WebSocket * pydict) * list WebSocket) connection =>
             match send_json connection message with
             | Returned _ => ((fst acc ++ [(connection, message)])%list, snd acc)
             | Raised _ => (fst acc, set_add connection (snd acc))
             end)
          conns ([], []) in
      (fold_left
         (fun c' connection =>
            Dict.set sid (set_discard connection (Dict.get_default sid [] c')) c')
         (snd sent) c,
       fst sent)
  end.

(** The message [send_agent_update] builds. *)
Definition agent_update_message (agent_name status : string) (progress : Z)
    (current_step : option string) (result : pyval) (error : option string)
    : pydict :=
  let message := [("type", VStr "agent_update"); ("agent_name", VStr agent_name);
                  ("status", VStr status); ("progress", VInt progress)] in
  let message := match current_step with
                 | Some step => Dict.set "current_step" (VStr step) message
                 | None => message
                 end in
  let message := match result with
                 | VNone => message
                 | _ => Dict.set "result" result message
                 end in
  match error with
  | Some err => Dict.set "error" (VStr err) message
  | None => message
  end.

(** [ConnectionManager.send_agent_update] *)
Definition send_agent_update (send_json : WebSocket -> pydict -> outcome unit)
    (stamp : string) (sid agent_name status : string) (progress : Z)
    (current_step : option string) (result : pyval) (error : option string)
    (c : connections) : connections * list (WebSocket * pydict) :=
  broadcast_to_session send_json stamp sid
    (agent_update_message agent_name status progress current_step result error) c.

(** The message [send_analysis_complete] builds: [if error:] leaves out
    an empty error text as well as [None]. *)
Definition analysis_complete_message (success : bool) (error : option string)
    : pydict :=
  let message := [("type", VStr "analysis_complete"); ("success", VBool success)] in
  match error with
  | Some err => if String.eqb err "" then message
                else Dict.set "error" (VStr err) message
  | None => message
  end.

(** [ConnectionManager.send_analysis_complete] *)
Definition send_analysis_complete (send_json : WebSocket -> pydict -> outcome unit)
    (stamp : string) (sid : string) (success : bool) (error : option string)
    (c : connections) : connections * list (WebSocket * pydict) :=
  broadcast_to_session send_json stamp sid (analysis_complete_message success error) c.

(** [ConnectionManager.get_connection_count] *)
Definition get_connection_count (sid : string) (c : connections) : nat :=
  length (Dict.get_default sid [] c).

(** [broadcast_agent_progress]: the progress sink of the agents and of the
    workflow. [stamp] is the clock reading of the broadcast, [now] and
    [stored_stamp] are those of the session update. *)
Definition broadcast_agent_progress (send_json : WebSocket -> pydict -> outcome unit)
    (stamp : string) (now : Z) (stored_stamp : string)
    (sid agent_name status : string) (progress : Z)
    (current_step : option string) (result : pyval) (error : option string)
    (m : Session.sessions) (c : connections)
    : Session.sessions * connections * list (WebSocket * pydict) :=
  let sent := send_agent_update send_json stamp sid agent_name status progress
                                current_step result error c in
  (fst (Session.update_agent_progress now stored_stamp sid agent_name status
                                      progress result error m),
   fst sent, snd sent).

(** The sink called with the keyword arguments [BaseAgent._broadcast_status]
    and [broadcast_workflow_progress] pass: no [result]. *)
Definition notify (send_json : WebSocket -> pydict -> outcome unit)
    (stamp : string) (now : Z) (stored_stamp : string) (n : Notification)
    (m : Session.sessions) (c : connections)
    : Session.sessions * connections * list (WebSocket * pydict) :=
  broadcast_agent_progress send_json stamp now stored_stamp
    (n_session_id n) (n_agent_name n) (n_status n) (n_progress n)
    (n_current_step n) VNone (n_error n) m c.

(** [broadcast_analysis_complete] *)
Definition broadcast_analysis_complete
    (send_json : WebSocket -> pydict -> outcome unit) (stamp : string)
    (sid : string) (success : bool) (error : option string) (c : connections)
    : connections * list (WebSocket * pydict) :=
  send_analysis_complete send_json stamp sid success error c.

End Websocket.

(** ** The analysis endpoints ([app/api/routes.py]) *)

Module Routes.

(** [HTTPException(status_code=..., detail=...)] *)
Record HTTPException : Type := {
  status_code : Z;
  detail : string
}.

(** [AnalysisStartedResponse] *)
Record AnalysisStartedResponse : Type := {
  analysis_id : string;
  status : string;
  websocket_url : string;
  estimated_duration_seconds : Z
}.

(** The body of [analyze] up to the scheduling of the background task.
    [new_id] is [f"analysis-{uuid.uuid4().hex[:8]}"], [started] the clock
    reading stored; [is_production] and [port] are the settings read, the
    port already formatted. The request rate limit is not modelled. *)
Definition analyze (now started : Z) (new_id : string) (is_production : bool)
    (port : string) (body_session_id : string) (m : Session.sessions)
    : Session.sessions * (HTTPException + AnalysisStartedResponse) :=
  match Session.get_session now body_session_id m with
  | (m', None) =>
      (m', inl {| status_code := 404; detail := "Session not found" |})
  | (m', Some session) =>
      match Session.resume_id session with
      | None =>
          (m', inl {| status_code := 400;
                      detail := "No resume uploaded. Please upload a resume first." |})
      | Some _ =>
          if Nat.eqb (length (Session.job_descriptions session)) 0 then
            (m', inl {| status_code := 400;
                        detail := "No job descriptions uploaded. Please add at least one job description." |})
          else if String.eqb (Session.analysis_status session) "running" then
            (m', inl {| status_code := 409;
                        detail := "Analysis already in progress" |})
          else
            let session := Session.with_analysis_started new_id started session in
            let ws_scheme := if is_production then "wss" else "ws" in
            (Session.update_session session
               (Session.assign body_session_id session m'),
             inr {| analysis_id := new_id;
                    status := "started";
                    websocket_url := ws_scheme ++ "://localhost:" ++ port
                                     ++ "/ws/progress/"
                                     ++ Session.session_id session;
                    estimated_duration_seconds := 30 |})
      end
  end.

(** The start event [run_analysis] builds from the session object. The
    event class requires [resume_id] to be a string. *)
Definition start_event_of (session : Session.SessionData) : outcome Event :=
  match Session.resume_id session with
  | Some rid =>
      Returned (StartAnalysisEvent (Session.session_id session) rid
                  (Dict.keys (Session.job_descriptions session)) None None)
  | None => Raised (ValueError "resume_id: Input should be a valid string")
  end.

(** The background task [run_analysis] of [analyze]. [session] is the
    session object the task captured, as it is when the task runs;
    [workflow_run] is what [workflow.run] does on the start event: it
    returns the result of the terminal event or raises. *)
Definition run_analysis (workflow_run : Event -> outcome AnalysisResult)
    (send_json : Websocket.WebSocket -> pydict -> outcome unit)
    (stamp : string) (now completed : Z) (body_session_id : string)
    (session : Session.SessionData)
    (m : Session.sessions) (c : Websocket.connections)
    : Session.sessions * Websocket.connections
      * list (Websocket.WebSocket * pydict) :=
  let attempt :=
    match start_event_of session with
    | Returned start_event => workflow_run start_event
    | Raised e => Raised e
    end in
  match attempt with
  | Returned result =>
      let m1 :=
        if res_success result then
          fst (Session.set_analysis_results now completed
                 (Session.session_id session)
                 (res_job_matches result)
                 (Some (res_recommendations result))
                 (Some (res_interview_prep result))
                 (Some (res_market_insights result)) m)
        else m in
      let sent := Websocket.broadcast_analysis_complete send_json stamp
                    (Session.session_id session) true None c in
      (m1, fst sent, snd sent)
  | Raised e =>
      let got := Session.get_session now body_session_id m in
      let m1 :=
        match snd got with
        | Some failed_session =>
            let failed_session :=
              Session.with_analysis_status "failed" failed_session in
            Session.update_session failed_session
              (Session.assign body_session_id failed_session (fst got))
        | None => fst got
        end in
      let sid :=
        match snd got with
        | Some failed_session => Session.session_id failed_session
        | None => body_session_id
        end in
      let sent := Websocket.broadcast_analysis_complete send_json stamp
                    sid false (Some (exn_str e)) c in
      (m1, fst sent, snd sent)
  end.

(** The response of [get_results]; the two dates are left unformatted. *)
Record ResultsResponse : Type := {
  r_session_id : string;
  r_analysis_id : option string;
  r_status : string;
  r_started_at : option Z;
  r_completed_at : option Z;
  r_job_matches : list pydict;
  r_agent_progress : dict Session.AgentProgress
}.

(** [get_results] *)
Definition get_results (now : Z) (sid : string) (m : Session.sessions)
    : Session.sessions * (HTTPException + ResultsResponse) :=
  match Session.get_session now sid m with
  | (m', None) =>
      (m', inl {| status_code := 404; detail := "Session not found" |})
  | (m', Some session) =>
      if String.eqb (Session.analysis_status session) "pending" then
        (m', inl {| status_code := 400;
                    detail := "Analysis has not been started" |})
      else
        (m', inr {| r_session_id := sid;
                    r_analysis_id := Session.analysis_id session;
                    r_status := Session.analysis_status session;
                    r_started_at := Session.analysis_started_at session;
                    r_completed_at := Session.analysis_completed_at session;
                    r_job_matches :=
                      match Session.job_matches session with
                      | Some (x :: l) => x :: l
                      | _ => []
                      end;
                    r_agent_progress := Session.agent_progress session |})
  end.

(** [x or {}] on an optional dict. *)
Definition or_empty (d : option pydict) : pydict :=
  match d with
  | Some (kv :: rest) => kv :: rest
  | _ => []
  end.

(** [v if isinstance(v, list) else []] *)
Definition list_or_empty (v : pyval) : pyval :=
  match v with
  | VList l => VList l
  | _ => VList []
  end.

(** The guard shared by the three endpoints that serve a part of the
    results: the session must exist and its analysis be completed. *)
Definition completed_session (now : Z) (sid : string) (m : Session.sessions)
    : Session.sessions * (HTTPException + Session.SessionData) :=
  match Session.get_session now sid m with
  | (m', None) =>
      (m', inl {| status_code := 404; detail := "Session not found" |})
  | (m', Some session) =>
      if String.eqb (Session.analysis_status session) "completed" then
        (m', inr session)
      else
        (m', inl {| status_code := 400; detail := "Analysis not completed" |})
  end.

(** [get_recommendations]; the [job_id] filter is not implemented in the
    source and has no effect. *)
Definition get_recommendations (now : Z) (sid : string) (job_id : option string)
    (m : Session.sessions) : Session.sessions * (HTTPException + pydict) :=
  match completed_session now sid m with
  | (m', inl e) => (m', inl e)
  | (m', inr session) =>
      let recommendations_data := or_empty (Session.recommendations session) in
      (m', inr [("session_id", VStr sid);
                ("recommendations",
                 list_or_empty
                   (Dict.get_default "recommendations" (VList []) recommendations_data));
                ("priority_order",
                 Dict.get_default "priority_order" (VList []) recommendations_data);
                ("estimated_improvement",
                 Dict.get_default "estimated_improvement" (VInt 0)
                                  recommendations_data)])
  end.

(** [get_interview_prep] *)
Definition get_interview_prep (now : Z) (sid : string) (job_id : option string)
    (m : Session.sessions) : Session.sessions * (HTTPException + pydict) :=
  match completed_session now sid m with
  | (m', inl e) => (m', inl e)
  | (m', inr session) =>
      let interview_data := or_empty (Session.interview_prep session) in
      (m', inr [("session_id", VStr sid);
                ("questions",
                 list_or_empty
                   (Dict.get_default "questions" (VList []) interview_data));
                ("talkingPoints",
                 Dict.get_default "talking_points" (VList []) interview_data);
                ("weaknessResponses",
                 Dict.get_default "weakness_responses" (VList []) interview_data);
                ("questionsToAsk",
                 Dict.get_default "questions_to_ask" (VList []) interview_data)])
  end.

(** [get_market_insights] *)
Definition get_market_insights (now : Z) (sid : string) (m : Session.sessions)
    : Session.sessions * (HTTPException + pydict) :=
  match completed_session now sid m with
  | (m', inl e) => (m', inl e)
  | (m', inr session) =>
      let market_data := or_empty (Session.market_insights session) in
      (m', inr [("session_id", VStr sid);
                ("insights",
                 Dict.get_default "insights" (VDict []) market_data)])
  end.

(** The response of [get_progress]. *)
Record ProgressResponse : Type := {
  p_session_id : string;
  p_analysis_id : option string;
  p_status : string;
  p_agent_progress : dict Session.AgentProgress
}.

(** [get_progress] *)
Definition get_progress (now : Z) (sid : string) (m : Session.sessions)
    : Session.sessions * (HTTPException + ProgressResponse) :=
  match Session.get_session now sid m with
  | (m', None) =>
      (m', inl {| status_code := 404; detail := "Session not found" |})
  | (m', Some session) =>
      (m', inr {| p_session_id := sid;
                  p_analysis_id := Session.analysis_id session;
                  p_status := Session.analysis_status session;
                  p_agent_progress := Session.agent_progress session |})
  end.

End Routes.

(** ** Requests served over the session table *)

(** The calls that change the session table: the methods of the session
    manager and the two halves of the analysis endpoint. *)
Inductive Request : Type :=
| CreateSession (candidates : list string) (now created expiry_base : Z)
| GetSession (now : Z) (sid : string)
| DeleteSession (sid : string)
| SetResume (now : Z) (sid rid text : string) (parsed : pydict)
| AddJobDescription (now : Z) (sid jid : string) (parsed_jd : pydict)
| SetAnalysisResults (now completed : Z) (sid : string) (matches : list pydict)
    (recs prep insights : option pydict)
| UpdateAgentProgress (now : Z) (stamp sid agent_name status : string) (progress : Z)
    (result : pyval) (error : option string)
| Analyze (now started : Z) (new_id : string) (is_production : bool)
    (port body_session_id : string)
| RunAnalysis (workflow_run : Event -> outcome AnalysisResult)
    (send_json : Websocket.WebSocket -> pydict -> outcome unit) (stamp : string)
    (now completed : Z) (body_session_id : string) (session : Session.SessionData)
    (c : Websocket.connections).

(** The session table a request leaves. *)
Definition serve (rq : Request) (m : Session.sessions) : Session.sessions :=
  match rq with
  | CreateSession candidates now created expiry_base =>
      match Session.create_session candidates now created expiry_base m with
      | Some (m', _) => m'
      | None => m
      end
  | GetSession now sid => fst (Session.get_session now sid m)
  | DeleteSession sid => fst (Session.delete_session sid m)
  | SetResume now sid rid text parsed =>
      fst (Session.set_resume now sid rid text parsed m)
  | AddJobDescription now sid jid parsed_jd =>
      fst (Session.add_job_description now sid jid parsed_jd m)
  | SetAnalysisResults now completed sid matches recs prep insights =>
      fst (Session.set_analysis_results now completed sid matches recs prep insights m)
  | UpdateAgentProgress now stamp sid agent_name status progress result error =>
      fst (Session.update_agent_progress now stamp sid agent_name status progress
                                         result error m)
  | Analyze now started new_id is_production port body_session_id =>
      fst (Routes.analyze now started new_id is_production port body_session_id m)
  | RunAnalysis workflow_run send_json stamp now completed body_session_id session c =>
      fst (fst (Routes.run_analysis workflow_run send_json stamp now completed
                                    body_session_id session m c))
  end.

(** A well-formed session table: each session is stored once, under its
    own id, and holds at most [MAX_JDS_PER_SESSION] job descriptions. *)
Definition session_ok (kv : string * Session.SessionData) : Prop :=
  Session.session_id (snd kv) = fst kv
  /\ length (Session.job_descriptions (snd kv)) <= Session.MAX_JDS_PER_SESSION
  /\ NoDup (Dict.keys (Session.job_descriptions (snd kv))).

Definition sessions_ok (m : Session.sessions) : Prop :=
  NoDup (Dict.keys m) /\ Forall session_ok m.

(** ** Example sessions and connections *)

(** A session created at time 0 with a resume and three job descriptions. *)
Definition ex_session : Session.SessionData :=
  Session.with_job_descriptions [("a", []); ("b", []); ("c", [])]
    (Session.with_resume "r1" "resume text" []
       (Session.new_session "s1" 0 (Session.hours 1))).

Definition ex_sessions : Session.sessions := [("s1", ex_session)].

(** The same session once an analysis has completed, with recommendations
    that are not a list. *)
Definition ex_session_done : Session.SessionData :=
  Session.with_results [] (Some [("recommendations", VStr "none")]) None None 5
    ex_session.

(** A session that expired at time 10 next to a live one. *)
Definition ex_sessions_mixed : Session.sessions :=
  [("old", Session.new_session "old" 0 10); ("s1", ex_session)].

(** Six job descriptions for a new session. *)
Definition ex_requests : list Request :=
  [CreateSession ["s1"] 0 0 0;
   AddJobDescription 1 "s1" "j1" []; AddJobDescription 2 "s1" "j2" [];
   AddJobDescription 3 "s1" "j3" []; AddJobDescription 4 "s1" "j4" [];
   AddJobDescription 5 "s1" "j5" []; AddJobDescription 6 "s1" "j6" []].

(** Two connections for the session; sending to the second one fails. *)
Definition ex_connections : Websocket.connections := [("s1", [1; 2]%nat)].

Definition ex_send_json : Websocket.WebSocket -> pydict -> outcome unit :=
  fun ws _ => if Nat.eqb ws 2 then Raised (OtherException "connection closed")
              else Returned tt.

(** ** The workflow ([app/workflows/analysis_workflow.py]) *)

Section Workflow.

(** [repr] of a Python value that is not a [str]: an interpreter
    builtin, taken as given. *)
Variable py_repr : pyval -> string.

(** [app.api.websocket.broadcast_agent_progress]: the progress sink. It
    either accepts a notification or raises. *)
Variable broadcast_agent_progress : Notification -> outcome unit.

(** [str(v)] *)
Definition py_str (v : pyval) : string :=
  match v with
  | VStr s => s
  | _ => py_repr v
  end.

(** [for x in v]: lists yield their items, dicts their keys, strings
    their characters; anything else is not iterable. *)
Definition py_iter (v : pyval) : outcome (list pyval) :=
  match v with
  | VList l => Returned l
  | VDict d => Returned (map (fun kv => VStr (fst kv)) d)
  | VStr s => Returned (map (fun c => VStr (String c EmptyString))
                            (list_ascii_of_string s))
  | _ => Raised (TypeError "object is not iterable")
  end.

(** The sink call shared by [broadcast_workflow_progress] and
    [BaseAgent._broadcast_status]: [try: await sink(...) except
    Exception: logger.debug(...)]. *)
Definition try_broadcast (n : Notification) : M unit :=
  fun h => match broadcast_agent_progress n with
           | Returned _ =>
               Returned (tt, {| h_store := h_store h; h_sent := h_sent h;
                                h_progress := h_progress h ++ [n] |})
           | Raised _ => Returned (tt, h)
           end.

Definition broadcast_workflow_progress (session_id agent_name status : string)
    (progress : Z) (current_step : option string) : M unit :=
  try_broadcast {| n_session_id := session_id; n_agent_name := agent_name;
                   n_status := status; n_progress := progress;
                   n_current_step := current_step; n_error := None |}.

(** [BaseAgent._broadcast_status] *)
Definition _broadcast_status (self : Agent) (status : string) (progress : Z)
    (current_step error : option string) : M unit :=
  match _session_id self with
  | None => ret tt
  | Some sid =>
      if String.eqb sid "" then ret tt
      else try_broadcast {| n_session_id := sid; n_agent_name := name self;
                            n_status := status; n_progress := progress;
                            n_current_step := current_step; n_error := error |}
  end.

(** [BaseAgent.report_progress] *)
Definition report_progress (self : Agent) (progress : Z) (step : string) : M unit :=
  _broadcast_status self "running" progress (Some step) None.

(** [BaseAgent.process]. [exec] is what [self._execute(input_data)] does
    on this call: the agent's own logic is opaque, so its outcome is an
    argument. *)
Definition process (self : Agent) (exec : outcome pydict) : M AgentOutput :=
  report_progress self 0 ("Starting " ++ name self) ;;;
  match exec with
  | Returned result_data =>
      _broadcast_status self "completed" 100 (Some "Complete") None ;;;
      ret {| success := true; data := result_data; errors := [] |}
  | Raised (ValueError msg) =>
      _broadcast_status self "failed" 0 None (Some msg) ;;;
      ret {| success := false; data := []; errors := [msg] |}
  | Raised e =>
      _broadcast_status self "failed" 0 None (Some (exn_str e)) ;;;
      ret {| success := false; data := [];
             errors := ["Agent error: " ++ exn_str e] |}
  end.

Definition is_some {A : Type} (o : option A) : bool :=
  match o with Some _ => true | None => false end.

(** [CareerAnalysisWorkflow.start] *)
Definition start (ev_session_id ev_resume_id : string) (ev_job_ids : list string)
    (ev_resume_text : option string) (ev_job_texts : option (dict string))
    : M (option Event) :=
  store_set (set_session_id ev_session_id) ;;;
  store_set (set_resume_id ev_resume_id) ;;;
  store_set (set_job_ids ev_job_ids) ;;;
  store_set (set_completed_steps []) ;;;
  store_set (set_parsed_jobs []) ;;;
  store_set (set_skill_matches []) ;;;
  store_set (set_all_skill_gaps []) ;;;
  let needs_resume_parsing := is_some ev_resume_text in
  let needs_jd_parsing :=
    match ev_job_texts with
    | Some texts => Nat.ltb 0 (length texts)
    | None => false
    end in
  store_set (set_needs_resume_parsing needs_resume_parsing) ;;;
  store_set (set_needs_jd_parsing needs_jd_parsing) ;;;
  broadcast_workflow_progress ev_session_id "workflow" "running" 5
    (Some "Starting analysis workflow") ;;;
  if negb needs_resume_parsing && negb needs_jd_parsing then
    broadcast_workflow_progress ev_session_id "skill_matcher" "pending" 0
      (Some "Waiting to start") ;;;
    for_each ev_job_ids
      (fun job_id => first_or_send (SkillMatchEvent ev_session_id ev_resume_id job_id))
      None
  else
    (if needs_resume_parsing then
       broadcast_workflow_progress ev_session_id "resume_parser" "pending" 0
         (Some "Waiting to start")
     else ret tt) ;;;
    (if needs_jd_parsing then
       broadcast_workflow_progress ev_session_id "jd_analyzer" "pending" 0
         (Some "Waiting to start")
     else ret tt) ;;;
    first_event <-
      match ev_resume_text with
      | Some text => first_or_send (ResumeParseEvent text ev_resume_id) None
      | None => ret None
      end ;;
    match ev_job_texts with
    | Some texts =>
        if needs_jd_parsing then
          for_each (Dict.items texts)
            (fun kv => first_or_send (JDAnalyzeEvent (fst kv) (snd kv)))
            first_event
        else ret first_event
    | None => ret first_event
    end.

(** [CareerAnalysisWorkflow.parse_resume] *)
Definition parse_resume (exec : outcome pydict) (ev_resume_text ev_resume_id : string)
    : M (option Event) :=
  sid <- store_get "session_id" session_id ;;
  result <- process {| name := "resume_parser"; _session_id := Some sid |} exec ;;
  store_set (set_parsed_resume (data result)) ;;;
  ret (Some (ResumeParseResultEvent ev_resume_id (data result))).

(** [CareerAnalysisWorkflow.analyze_jd] *)
Definition analyze_jd (exec : outcome pydict) (ev_job_id ev_jd_text : string)
    : M (option Event) :=
  sid <- store_get "session_id" session_id ;;
  result <- process {| name := "jd_analyzer"; _session_id := Some sid |} exec ;;
  jobs <- store_get_default parsed_jobs [] ;;
  store_set (set_parsed_jobs (Dict.set ev_job_id (data result) jobs)) ;;;
  ret (Some (JDAnalyzeResultEvent ev_job_id (data result))).

(** The completion keys built with f-strings: [f"jd_parsed_{jid}"] and
    [f"matched_{jid}"]. *)
Definition jd_parsed_key (jid : string) : string := "jd_parsed_" ++ jid.
Definition matched_key (jid : string) : string := "matched_" ++ jid.

(** The phase-1 completion test of [collect_phase1]. *)
Definition resume_done (needs_resume_parsing : bool) (completed : list string) : bool :=
  negb needs_resume_parsing || str_in "resume_parsed" completed.

Definition jds_done (needs_jd_parsing : bool) (job_ids : list string)
    (completed : list string) : bool :=
  negb needs_jd_parsing
  || py_all (fun jid => str_in (jd_parsed_key jid) completed) job_ids.

(** [CareerAnalysisWorkflow.collect_phase1] *)
Definition collect_phase1 (ev : Event) : M (option Event) :=
  sid <- store_get "session_id" session_id ;;
  completed <- store_get_default completed_steps [] ;;
  completed <-
    match ev with
    | ResumeParseResultEvent _ _ => ret (completed ++ ["resume_parsed"])%list
    | _ =>
        match event_job_id ev with
        | Some job_id => ret (completed ++ [jd_parsed_key job_id])%list
        | None => raise (AttributeError "job_id")
        end
    end ;;
  store_set (set_completed_steps completed) ;;;
  jids <- store_get_default job_ids [] ;;
  needs_resume <- store_get_default needs_resume_parsing false ;;
  needs_jd <- store_get_default needs_jd_parsing false ;;
  if resume_done needs_resume completed && jds_done needs_jd jids completed then
    broadcast_workflow_progress sid "workflow" "running" 35
      (Some "Phase 1 complete - Starting skill matching") ;;;
    broadcast_workflow_progress sid "skill_matcher" "pending" 0
      (Some "Waiting to start") ;;;
    rid <- store_get "resume_id" resume_id ;;
    for_each jids (fun job_id => first_or_send (SkillMatchEvent sid rid job_id)) None
  else ret None.

(** The body of the gap-aggregation loop of [match_skills]. *)
Definition add_gap (skill : pyval) (all_gaps : list pyval) : list pyval :=
  let skill_name :=
    match skill with
    | VDict d => Dict.get_default "skill_name" (VStr "") d
    | _ => VStr (py_str skill)
    end in
  if py_truthy skill_name && negb (py_in skill_name all_gaps)
  then (all_gaps ++ [skill_name])%list
  else all_gaps.

Definition aggregate_gaps (missing : list pyval) (all_gaps : list pyval) : list pyval :=
  fold_left (fun gaps skill => add_gap skill gaps) missing all_gaps.

(** [CareerAnalysisWorkflow.match_skills] *)
Definition match_skills (exec : outcome pydict) (ev_session_id ev_resume_id ev_job_id : string)
    : M (option Event) :=
  sid <- store_get "session_id" session_id ;;
  result <- process {| name := "skill_matcher"; _session_id := Some sid |} exec ;;
  matches <- store_get_default skill_matches [] ;;
  store_set (set_skill_matches (Dict.set ev_job_id (data result) matches)) ;;;
  all_gaps <- store_get_default all_skill_gaps [] ;;
  match py_iter (Dict.get_default "missing_skills" (VList []) (data result)) with
  | Returned missing =>
      store_set (set_all_skill_gaps (aggregate_gaps missing all_gaps)) ;;;
      ret (Some (SkillMatchResultEvent ev_job_id (data result)))
  | Raised e => raise e
  end.

(** The phase-2 completion test of [collect_phase2]. *)
Definition all_matched (job_ids : list string) (completed : list string) : bool :=
  py_all (fun jid => str_in (matched_key jid) completed) job_ids.

(** [CareerAnalysisWorkflow.collect_phase2] *)
Definition collect_phase2 (ev_job_id : string) : M (option Event) :=
  sid <- store_get "session_id" session_id ;;
  completed <- store_get_default completed_steps [] ;;
  let completed := (completed ++ [matched_key ev_job_id])%list in
  store_set (set_completed_steps completed) ;;;
  jids <- store_get_default job_ids [] ;;
  if all_matched jids completed then
    broadcast_workflow_progress sid "workflow" "running" 60
      (Some "Phase 2 complete - Generating insights") ;;;
    broadcast_workflow_progress sid "recommendation" "pending" 0
      (Some "Waiting to start") ;;;
    broadcast_workflow_progress sid "interview_prep" "pending" 0
      (Some "Waiting to start") ;;;
    broadcast_workflow_progress sid "market_insights" "pending" 0
      (Some "Waiting to start") ;;;
    skill_gaps <- store_get_default all_skill_gaps [] ;;
    matches <- store_get_default skill_matches [] ;;
    let first_job :=
      match jids with
      | j0 :: _ => Dict.get_default j0 [] matches
      | [] => []
      end in
    let job_title := Dict.get_default "job_title" (VStr "Software Engineer") first_job in
    send_event (GenerateInterviewPrepEvent sid skill_gaps) ;;;
    send_event (GenerateMarketInsightsEvent sid job_title) ;;;
    ret (Some (GenerateRecommendationsEvent sid skill_gaps))
  else ret None.

(** [CareerAnalysisWorkflow.generate_recommendations] *)
Definition generate_recommendations (exec : outcome pydict) (ev_session_id : string)
    (ev_skill_gaps : list pyval) : M (option Event) :=
  sid <- store_get "session_id" session_id ;;
  rid <- store_get "resume_id" resume_id ;;
  jids <- store_get_default job_ids [] ;;
  result <- process {| name := "recommendation"; _session_id := Some sid |} exec ;;
  store_set (set_recommendations (data result)) ;;;
  ret (Some (RecommendationResultEvent (data result))).

(** [CareerAnalysisWorkflow.generate_interview_prep] *)
Definition generate_interview_prep (exec : outcome pydict) (ev_session_id : string)
    (ev_skill_gaps : list pyval) : M (option Event) :=
  sid <- store_get "session_id" session_id ;;
  rid <- store_get "resume_id" resume_id ;;
  jids <- store_get_default job_ids [] ;;
  result <- process {| name := "interview_prep"; _session_id := Some sid |} exec ;;
  store_set (set_interview_prep (data result)) ;;;
  ret (Some (InterviewPrepResultEvent (data result))).

(** [CareerAnalysisWorkflow.generate_market_insights] *)
Definition generate_market_insights (exec : outcome pydict) (ev_session_id : string)
    (ev_job_title : pyval) : M (option Event) :=
  sid <- store_get "session_id" session_id ;;
  jids <- store_get_default job_ids [] ;;
  result <- process {| name := "market_insights"; _session_id := Some sid |} exec ;;
  store_set (set_market_insights (data result)) ;;;
  ret (Some (MarketInsightsResultEvent (data result))).

(** The phase-3 completion test of [finalize]. *)
Definition phase3_done (completed : list string) : bool :=
  py_all (fun step => str_in step completed)
         ["recommendations"; "interview_prep"; "market_insights"].

(** [CareerAnalysisWorkflow.finalize] *)
Definition finalize (ev : Event) : M (option Event) :=
  sid <- store_get "session_id" session_id ;;
  completed <- store_get_default completed_steps [] ;;
  let completed :=
    match ev with
    | RecommendationResultEvent _ => (completed ++ ["recommendations"])%list
    | InterviewPrepResultEvent _ => (completed ++ ["interview_prep"])%list
    | _ => (completed ++ ["market_insights"])%list
    end in
  store_set (set_completed_steps completed) ;;;
  if phase3_done completed then
    broadcast_workflow_progress sid "workflow" "completed" 100
      (Some "Analysis complete") ;;;
    rid <- store_get "resume_id" resume_id ;;
    matches <- store_get_default skill_matches [] ;;
    recs <- store_get "recommendations" recommendations ;;
    prep <- store_get "interview_prep" interview_prep ;;
    insights <- store_get "market_insights" market_insights ;;
    ret (Some (StopEvent {| res_success := true;
                            res_session_id := sid;
                            res_resume_id := rid;
                            res_job_matches := Dict.values matches;
                            res_recommendations := recs;
                            res_interview_prep := prep;
                            res_market_insights := insights |}))
  else ret None.

(** The step registry: the handler an event is routed to, by the type
    annotation of each [@step]. [exec] is the outcome of the agent call
    for the handlers that make one. A [StopEvent] has no handler. *)
Definition handle (exec : outcome pydict) (ev : Event) : option (M (option Event)) :=
  match ev with
  | StartAnalysisEvent sid rid jids text texts => Some (start sid rid jids text texts)
  | ResumeParseEvent text rid => Some (parse_resume exec text rid)
  | JDAnalyzeEvent jid text => Some (analyze_jd exec jid text)
  | ResumeParseResultEvent _ _ | JDAnalyzeResultEvent _ _ => Some (collect_phase1 ev)
  | SkillMatchEvent sid rid jid => Some (match_skills exec sid rid jid)
  | SkillMatchResultEvent jid _ => Some (collect_phase2 jid)
  | GenerateRecommendationsEvent sid gaps => Some (generate_recommendations exec sid gaps)
  | GenerateInterviewPrepEvent sid gaps => Some (generate_interview_prep exec sid gaps)
  | GenerateMarketInsightsEvent sid title => Some (generate_market_insights exec sid title)
  | RecommendationResultEvent _ | InterviewPrepResultEvent _
  | MarketInsightsResultEvent _ => Some (finalize ev)
  | StopEvent _ => None
  end.

(** ** The dispatcher *)

Inductive RunStatus : Type :=
| Running
| Completed (result : AnalysisResult)
| Failed (error : string).

(** A run: its context, the events enqueued and not yet handled, the events
    handled so far (oldest first) and its status. *)
Record Run : Type := {
  run_store : Store;
  run_pending : list Event;
  run_handled : list Event;
  run_status : RunStatus
}.

(** A run is created on ingestion of the start event. *)
Definition init_run (start_event : Event) : Run :=
  {| run_store := empty_store; run_pending := [start_event];
     run_handled := []; run_status := Running |}.

(** The terminal event among the events a handler enqueued, if any. *)
Fixpoint first_stop (evs : list Event) : option AnalysisResult :=
  match evs with
  | [] => None
  | StopEvent res :: _ => Some res
  | _ :: rest => first_stop rest
  end.

(** Modelled from the spec: the dispatcher (runtime loop) is the workflow
    library's and not in the repository. One iteration takes one pending
    event (any of them: no order is guaranteed between siblings), resolves
    its handler in the registry, runs it and enqueues every event it
    produced; the loop ends when a terminal event is enqueued. A handler
    invocation is one atomic step (the single cooperative thread the
    source assumes); concurrency caps are not modelled. A handler that
    raises fails the run; what it wrote to the context before raising is
    not kept, as nothing reads the context of a failed run. *)
Definition dispatch (r : Run) (i : nat) (exec : outcome pydict) : option Run :=
  match run_status r with
  | Running =>
      match nth_error (run_pending r) i with
      | None => None
      | Some ev =>
          match handle exec ev with
          | None => None
          | Some m =>
              let rest := (firstn i (run_pending r) ++ skipn (S i) (run_pending r))%list in
              match run_handler m (run_store r) with
              | Returned hr =>
                  Some {| run_store := hr_store hr;
                          run_pending := (rest ++ emitted hr)%list;
                          run_handled := (run_handled r ++ [ev])%list;
                          run_status := match first_stop (emitted hr) with
                                        | Some res => Completed res
                                        | None => Running
                                        end |}
              | Raised e =>
                  Some {| run_store := run_store r;
                          run_pending := rest;
                          run_handled := (run_handled r ++ [ev])%list;
                          run_status := Failed (exn_str e) |}
              end
          end
      end
  | _ => None
  end.

(** Modelled from the spec: the run's deadline may elapse at any point of
    a running run; the run then fails with a timeout error. *)
Definition timeout (r : Run) : option Run :=
  match run_status r with
  | Running => Some {| run_store := run_store r; run_pending := run_pending r;
                       run_handled := run_handled r;
                       run_status := Failed "timeout" |}
  | _ => None
  end.

Definition step (r r' : Run) : Prop :=
  (exists i exec, dispatch r i exec = Some r') \/ timeout r = Some r'.

(** The runs that can be observed after [start_event] was ingested. *)
Inductive reachable (start_event : Event) : Run -> Prop :=
| reach_init : reachable start_event (init_run start_event)
| reach_step r r' : reachable start_event r -> step r r' -> reachable start_event r'.

(** A sequence of handler invocations on one run context, each with its
    own outbox: the context left and what each invocation enqueued. *)
Fixpoint feed (hs : list (M (option Event))) (st : Store)
    : outcome (Store * list (list Event)) :=
  match hs with
  | [] => Returned (st, [])
  | m :: rest =>
      match run_handler m st with
      | Returned hr =>
          match feed rest (hr_store hr) with
          | Returned (st', outs) => Returned (st', emitted hr :: outs)
          | Raised e => Raised e
          end
      | Raised e => Raised e
      end
  end.

(** ** Derived notions used in the statements *)

(** The [AgentOutput] that [process] builds from the outcome of [_execute]. *)
Definition process_output (exec : outcome pydict) : AgentOutput :=
  match exec with
  | Returned result_data => {| success := true; data := result_data; errors := [] |}
  | Raised (ValueError msg) => {| success := false; data := []; errors := [msg] |}
  | Raised e => {| success := false; data := []; errors := ["Agent error: " ++ exn_str e] |}
  end.

(** A handler state with a given progress log. *)
Definition with_progress (h : HState) (p : list Notification) : HState :=
  {| h_store := h_store h; h_sent := h_sent h; h_progress := p |}.

(** [ctx.store.get(key, default)] as a pure reading of a field. *)
Definition get_or {A : Type} (field : Store -> option A) (d : A) (st : Store) : A :=
  match field st with Some v => v | None => d end.

(** What [collect_phase2] hands to [ctx.send_event] when the barrier fires. *)
Definition phase3_sent (sid : string) (jids : list string) (st : Store) : list Event :=
  [GenerateInterviewPrepEvent sid (get_or all_skill_gaps [] st);
   GenerateMarketInsightsEvent sid
     (Dict.get_default "job_title" (VStr "Software Engineer")
        match jids with
        | j0 :: _ => Dict.get_default j0 [] (get_or skill_matches [] st)
        | [] => []
        end)].

(** What [collect_phase2] returns when the barrier fires. *)
Definition phase3_returned (sid : string) (st : Store) : Event :=
  GenerateRecommendationsEvent sid (get_or all_skill_gaps [] st).

(** The skill-match events of the dispatch loop, in enqueueing order: the
    events for all job ids but the first are sent, the first is returned. *)
Definition skill_match_sent (sid rid : string) (jids : list string) : list Event :=
  map (SkillMatchEvent sid rid) (tl jids).

Definition skill_match_returned (sid rid : string) (jids : list string) : option Event :=
  option_map (SkillMatchEvent sid rid) (hd_error jids).

(** The completion key [collect_phase1] records for a result event. *)
Definition phase1_key (ev : Event) : option string :=
  match ev with
  | ResumeParseResultEvent _ _ => Some "resume_parsed"
  | _ => option_map jd_parsed_key (event_job_id ev)
  end.

(** The completion key [finalize] records for a result event. *)
Definition phase3_key (ev : Event) : string :=
  match ev with
  | RecommendationResultEvent _ => "recommendations"
  | InterviewPrepResultEvent _ => "interview_prep"
  | _ => "market_insights"
  end.

(** The context [start] leaves. *)
Definition start_store (sid rid : string) (jids : list string)
    (text : option string) (texts : option (dict string)) (st : Store) : Store :=
  {| session_id := Some sid; resume_id := Some rid; job_ids := Some jids;
     completed_steps := Some []; parsed_jobs := Some []; skill_matches := Some [];
     all_skill_gaps := Some [];
     needs_resume_parsing := Some (is_some text);
     needs_jd_parsing := Some match texts with
                              | Some t => Nat.ltb 0 (length t)
                              | None => false
                              end;
     parsed_resume := parsed_resume st; recommendations := recommendations st;
     interview_prep := interview_prep st; market_insights := market_insights st |}.

(** The parse events [start] dispatches, in the order it builds them. *)
Definition parse_events (rid : string) (text : option string)
    (texts : option (dict string)) : list Event :=
  (match text with Some t => [ResumeParseEvent t rid] | None => [] end
   ++ match texts with
      | Some ts => map (fun kv => JDAnalyzeEvent (fst kv) (snd kv)) ts
      | None => []
      end)%list.

(** Whether [start] skips phase 1. *)
Definition skips_parsing (text : option string) (texts : option (dict string)) : bool :=
  negb (is_some text)
  && negb match texts with Some t => Nat.ltb 0 (length t) | None => false end.

(** The events [start] builds, in the order it builds them: the first is
    returned, the others are sent. *)
Definition start_events (sid rid : string) (jids : list string)
    (text : option string) (texts : option (dict string)) : list Event :=
  if skips_parsing text texts
  then map (SkillMatchEvent sid rid) jids
  else parse_events rid text texts.

(** The gap list is well formed: no duplicates, no empty string. *)
Definition gaps_ok (gaps : list pyval) : Prop :=
  NoDup gaps /\ ~ In (VStr "") gaps.

(** ** Invariants of a run *)

(** A completion was recorded for every job id. *)
Definition matched_all (jids : list string) (st : Store) : Prop :=
  forall j, In j jids -> In (matched_key j) (get_or completed_steps [] st).

(** What a pending event tells about the run context, once [start] ran:
    a skill-match request is for one of the run's job ids, a skill-match
    result has its entry in [skill_matches], phase-3 work exists only when
    every job is matched, and a phase-3 result has its value stored. *)
Definition pending_ok (jids : list string) (st : Store) (ev : Event) : Prop :=
  match ev with
  | StartAnalysisEvent _ _ _ _ _ => False
  | SkillMatchEvent _ _ j => In j jids
  | SkillMatchResultEvent j _ => In j (Dict.keys (get_or skill_matches [] st))
  | GenerateRecommendationsEvent _ _
  | GenerateInterviewPrepEvent _ _
  | GenerateMarketInsightsEvent _ _ => matched_all jids st
  | RecommendationResultEvent _ => recommendations st <> None /\ matched_all jids st
  | InterviewPrepResultEvent _ => interview_prep st <> None /\ matched_all jids st
  | MarketInsightsResultEvent _ => market_insights st <> None /\ matched_all jids st
  | _ => True
  end.

(** What a recorded completion key tells about the run context. *)
Definition completed_ok (jids : list string) (st : Store) (k : string) : Prop :=
  (forall j, k = matched_key j -> In j (Dict.keys (get_or skill_matches [] st)))
  /\ (k = "recommendations" -> recommendations st <> None /\ matched_all jids st)
  /\ (k = "interview_prep" -> interview_prep st <> None /\ matched_all jids st)
  /\ (k = "market_insights" -> market_insights st <> None /\ matched_all jids st).

(** The aggregated result is the one the run context holds, with one match
    entry per job id of the run. *)
Definition final_ok (sid rid : string) (jids : list string) (st : Store)
    (res : AnalysisResult) : Prop :=
  res_success res = true
  /\ res_session_id res = sid
  /\ res_resume_id res = rid
  /\ res_job_matches res = Dict.values (get_or skill_matches [] st)
  /\ NoDup (Dict.keys (get_or skill_matches [] st))
  /\ (forall j, In j (Dict.keys (get_or skill_matches [] st)) <-> In j jids)
  /\ recommendations st = Some (res_recommendations res)
  /\ interview_prep st = Some (res_interview_prep res)
  /\ market_insights st = Some (res_market_insights res).

(** The invariant of a run whose start event has been handled. *)
Definition running_inv (sid rid : string) (jids : list string) (r : Run) : Prop :=
  let st := run_store r in
  session_id st = Some sid
  /\ resume_id st = Some rid
  /\ job_ids st = Some jids
  /\ NoDup (Dict.keys (get_or skill_matches [] st))
  /\ (forall j, In j (Dict.keys (get_or skill_matches [] st)) -> In j jids)
  /\ gaps_ok (get_or all_skill_gaps [] st)
  /\ Forall (pending_ok jids st) (run_pending r)
  /\ Forall (completed_ok jids st) (get_or completed_steps [] st)
  /\ (forall res, run_status r = Completed res -> final_ok sid rid jids st res).

(** The invariant of a run: either its start event is still pending, or
    [running_inv] holds. *)
Definition run_inv (sid rid : string) (jids : list string)
    (text : option string) (texts : option (dict string)) (r : Run) : Prop :=
  (run_store r = empty_store
   /\ run_pending r = [StartAnalysisEvent sid rid jids text texts]
   /\ run_handled r = []
   /\ forall res, run_status r <> Completed res)
  \/ running_inv sid rid jids r.

(** The run context only grows: entries, completion keys and phase-3
    values once present stay present. *)
Definition store_le (st st' : Store) : Prop :=
  (forall j, In j (Dict.keys (get_or skill_matches [] st)) ->
             In j (Dict.keys (get_or skill_matches [] st')))
  /\ (forall k, In k (get_or completed_steps [] st) ->
                In k (get_or completed_steps [] st'))
  /\ (recommendations st <> None -> recommendations st' <> None)
  /\ (interview_prep st <> None -> interview_prep st' <> None)
  /\ (market_insights st <> None -> market_insights st' <> None).

(** The result events of phase 3, which [finalize] consumes. *)
Definition is_phase3_result (ev : Event) : bool :=
  match ev with
  | RecommendationResultEvent _ | InterviewPrepResultEvent _
  | MarketInsightsResultEvent _ => true
  | _ => false
  end.

(** ** Phase barriers read off the run context *)

(** The test of [collect_phase1] on what the context holds. *)
Definition phase1_complete (st : Store) : bool :=
  resume_done (get_or needs_resume_parsing false st) (get_or completed_steps [] st)
  && jds_done (get_or needs_jd_parsing false st) (get_or job_ids [] st)
              (get_or completed_steps [] st).

(** The test of [collect_phase2] on what the context holds. *)
Definition phase2_complete (st : Store) : bool :=
  all_matched (get_or job_ids [] st) (get_or completed_steps [] st).

(** Phase-2 work. *)
Definition is_skill_match (ev : Event) : bool :=
  match ev with SkillMatchEvent _ _ _ => true | _ => false end.

(** Phase-3 work. *)
Definition is_phase3_work (ev : Event) : bool :=
  match ev with
  | GenerateRecommendationsEvent _ _ | GenerateInterviewPrepEvent _ _
  | GenerateMarketInsightsEvent _ _ => true
  | _ => false
  end.

Definition is_start (ev : Event) : bool :=
  match ev with StartAnalysisEvent _ _ _ _ _ => true | _ => false end.

(** ** Work events and result events *)

(** The events routed to a work handler, that is one that calls an agent. *)
Definition is_work (ev : Event) : bool :=
  match ev with
  | ResumeParseEvent _ _ | JDAnalyzeEvent _ _ | SkillMatchEvent _ _ _
  | GenerateRecommendationsEvent _ _ | GenerateInterviewPrepEvent _ _
  | GenerateMarketInsightsEvent _ _ => true
  | _ => false
  end.

(** The payload a result event carries. *)
Definition result_payload (ev : Event) : option pydict :=
  match ev with
  | ResumeParseResultEvent _ d | JDAnalyzeResultEvent _ d
  | SkillMatchResultEvent _ d | RecommendationResultEvent d
  | InterviewPrepResultEvent d | MarketInsightsResultEvent d => Some d
  | _ => None
  end.

(** The same result event with another payload. *)
Definition with_payload (d : pydict) (ev : Event) : Event :=
  match ev with
  | ResumeParseResultEvent rid _ => ResumeParseResultEvent rid d
  | JDAnalyzeResultEvent jid _ => JDAnalyzeResultEvent jid d
  | SkillMatchResultEvent jid _ => SkillMatchResultEvent jid d
  | RecommendationResultEvent _ => RecommendationResultEvent d
  | InterviewPrepResultEvent _ => InterviewPrepResultEvent d
  | MarketInsightsResultEvent _ => MarketInsightsResultEvent d
  | _ => ev
  end.

(** ** Barriers as expected sets *)

(** A barrier over an expected set of completion keys: every expected key
    is recorded. *)
Definition barrier (expected completed : list string) : bool :=
  py_all (fun k => str_in k completed) expected.

(** The completions [collect_phase1] waits for. *)
Definition expected_phase1 (needs_resume needs_jd : bool) (jids : list string)
    : list string :=
  ((if needs_resume then ["resume_parsed"] else [])
   ++ (if needs_jd then map jd_parsed_key jids else []))%list.

(** The completions [collect_phase2] waits for. *)
Definition expected_phase2 (jids : list string) : list string :=
  map matched_key jids.

(** Everything [collect_phase1] enqueues when its barrier fires. *)
Definition skill_match_events (sid rid : string) (jids : list string) : list Event :=
  (skill_match_sent sid rid jids
   ++ match skill_match_returned sid rid jids with
      | Some ev => [ev]
      | None => []
      end)%list.

(** Everything [collect_phase2] enqueues when its barrier fires. *)
Definition phase3_events (sid : string) (jids : list string) (st : Store) : list Event :=
  (phase3_sent sid jids st ++ [phase3_returned sid st])%list.

(** ** Scripted runs *)

(** The run after a script of dispatcher iterations, each given as the
    index of the pending event taken and the outcome of the agent call the
    handler makes (ignored by the handlers that call no agent). *)
Fixpoint run_steps (r : Run) (script : list (nat * outcome pydict)) : option Run :=
  match script with
  | [] => Some r
  | (i, exec) :: rest =>
      match dispatch r i exec with
      | Some r' => run_steps r' rest
      | None => None
      end
  end.

(** ** Example inputs *)

(** A progress sink that accepts every notification, and one that raises
    on every notification (no client connected). *)
Definition sink_ok : Notification -> outcome unit := fun _ => Returned tt.
Definition sink_down : Notification -> outcome unit :=
  fun _ => Raised (OtherException "connection closed").

(** A stand-in for [repr]. *)
Definition repr_stub : pyval -> string := fun _ => "<object>".

(** The context [start] leaves for one job with parsed inputs. *)
Definition ex_store_one : Store :=
  start_store "s1" "r1" ["a"] None None empty_store.

(** The context [start] leaves for two jobs with parsed inputs. *)
Definition ex_store_two : Store :=
  start_store "s1" "r1" ["a"; "b"] None None empty_store.

(** The same, once job [a] was matched and collected. *)
Definition ex_store_dup : Store :=
  set_completed_steps ["matched_a"] ex_store_two.

(** The context [start] leaves for one job and a resume to parse. *)
Definition ex_store_resume : Store :=
  start_store "s1" "r1" ["a"] (Some "cv") None empty_store.

Definition ex_hstate : HState :=
  {| h_store := ex_store_one; h_sent := []; h_progress := [] |}.

(** What a skill-matching agent returns. *)
Definition ex_match : pydict :=
  [("job_title", VStr "Engineer");
   ("missing_skills",
    VList [VDict [("skill_name", VStr "rust")]; VStr "go";
           VDict [("skill_name", VStr "rust")]; VDict [("skill_name", VStr "")]])].

(** A start event for three jobs with parsed inputs, and a script that
    handles the oldest pending event thirteen times; the agent call of the
    second match raises. *)
Definition ex_start3 : Event :=
  StartAnalysisEvent "s1" "r1" ["a"; "b"; "c"] None None.

Definition ex_script3 : list (nat * outcome pydict) :=
  [(0, Returned []); (0, Returned ex_match);
   (0, Raised (OtherException "boom")); (0, Returned ex_match);
   (0, Returned []); (0, Returned []); (0, Returned []);
   (0, Returned [("tips", VList [])]); (0, Returned []);
   (0, Returned [("priority", VStr "rust")]);
   (0, Returned []); (0, Returned []); (0, Returned [])]%nat.

(** A start event whose [job_texts] covers only one of its two job ids. *)
Definition ex_start_mismatch : Event :=
  StartAnalysisEvent "s1" "r1" ["a"; "b"] None (Some [("a", "text of job a")]).

(** ** Comparing handlers across progress sinks *)

(** Two handler states agree on everything but the progress log. *)
Definition same_core (h h' : HState) : Prop :=
  h_store h = h_store h' /\ h_sent h = h_sent h'.

(** Two computations do the same from states that agree but for the
    progress log: both return the same value in agreeing states, or both
    raise the same exception. *)
Definition sim {A : Type} (m m' : M A) : Prop :=
  forall h h', same_core h h' ->
    match m h, m' h' with
    | Returned (a, h1), Returned (a', h1') => a = a' /\ same_core h1 h1'
    | Raised e, Raised e' => e = e'
    | _, _ => False
    end.

(** Two handler invocations have the same outcome for the dispatcher. *)
Definition same_outcome (o o' : outcome HandlerResult) : Prop :=
  match o, o' with
  | Returned hr, Returned hr' =>
      hr_store hr = hr_store hr' /\ hr_sent hr = hr_sent hr'
      /\ hr_returned hr = hr_returned hr'
  | Raised e, Raised e' => e = e'
  | _, _ => False
  end.

(** The completion key under which a dispatched parse event is recorded
    once its result is collected. *)
Definition dispatched_key (ev : Event) : option string :=
  match ev with
  | ResumeParseEvent _ _ => Some "resume_parsed"
  | JDAnalyzeEvent jid _ => Some (jd_parsed_key jid)
  | _ => None
  end.

(** A context in which resume parsing and the parsing of two jobs were
    dispatched. *)
Definition ex_store_parse : Store :=
  start_store "s1" "r1" ["a"; "b"] (Some "cv")
              (Some [("a", "text a"); ("b", "text b")]) empty_store.

(** A start event whose [job_texts] has a text for a job that is not among
    its job ids, and a script that parses and collects job [a] first, then
    job [x]. *)
Definition ex_start_extra : Event :=
  StartAnalysisEvent "s1" "r1" ["a"] None
                     (Some [("a", "text of job a"); ("x", "text of job x")]).

Definition ex_script_extra : list (nat * outcome pydict) :=
  [(0, Returned []); (1, Returned []); (1, Returned []);
   (0, Returned []); (1, Returned [])]%nat.

(** ** Runs on inputs that are already parsed *)

(** The events of phase 1. *)
Definition is_parse (ev : Event) : bool :=
  match ev with
  | ResumeParseEvent _ _ | JDAnalyzeEvent _ _
  | ResumeParseResultEvent _ _ | JDAnalyzeResultEvent _ _ => true
  | _ => false
  end.

(** The events through which job [j] gets recorded as matched. *)
Definition leads_to_match (j : string) (ev : Event) : bool :=
  match ev with
  | SkillMatchEvent _ _ j' | SkillMatchResultEvent j' _ => String.eqb j j'
  | _ => false
  end.

(** The events through which the phase-3 step [k] gets recorded. *)
Definition leads_to_step (k : string) (ev : Event) : bool :=
  match ev with
  | GenerateRecommendationsEvent _ _ | RecommendationResultEvent _ =>
      String.eqb k "recommendations"
  | GenerateInterviewPrepEvent _ _ | InterviewPrepResultEvent _ =>
      String.eqb k "interview_prep"
  | GenerateMarketInsightsEvent _ _ | MarketInsightsResultEvent _ =>
      String.eqb k "market_insights"
  | _ => false
  end.

Definition phase3_steps : list string :=
  ["recommendations"; "interview_prep"; "market_insights"].

(** Every completion the run still waits for has a pending event that
    leads to it, and the run still waits for a phase-3 step. *)
Definition awaited (jids c : list string) (pending : list Event) : Prop :=
  (forall j, In j jids ->
             In (matched_key j) c \/ existsb (leads_to_match j) pending = true)
  /\ (all_matched jids c = true -> jids <> [] ->
      forall k, In k phase3_steps ->
                In k c \/ existsb (leads_to_step k) pending = true)
  /\ phase3_done c = false.

(** The invariant of a run whose start event skipped phase 1 and has been
    handled. *)
Definition skip_inv (jids : list string) (r : Run) : Prop :=
  Forall (fun ev => is_parse ev = false) (run_handled r)
  /\ Forall (fun ev => is_parse ev = false /\ is_start ev = false) (run_pending r)
  /\ (run_status r = Running ->
      first_stop (run_pending r) = None
      /\ awaited jids (get_or completed_steps [] (run_store r)) (run_pending r)).

(** ** What [process] reports and what the gap loop reads *)

(** The name the gap loop of [match_skills] reads off a missing skill. *)
Definition skill_name (skill : pyval) : pyval :=
  match skill with
  | VDict d => Dict.get_default "skill_name" (VStr "") d
  | _ => VStr (py_str skill)
  end.


(** ** The work a run has left *)

(** The handler invocations an event still stands for: a work event is
    handled and its result collected, a result is collected. *)
Definition weight (ev : Event) : nat :=
  match ev with
  | SkillMatchEvent _ _ _ | GenerateRecommendationsEvent _ _
  | GenerateInterviewPrepEvent _ _ | GenerateMarketInsightsEvent _ _ => 2
  | SkillMatchResultEvent _ _ | RecommendationResultEvent _
  | InterviewPrepResultEvent _ | MarketInsightsResultEvent _ => 1
  | _ => 0
  end.

Definition pending_weight (pending : list Event) : nat :=
  list_sum (map weight pending).

(** The invocations phase 3 will take once the phase-2 barrier fires. *)
Definition barrier_debt (jids c : list string) : nat :=
  if all_matched jids c then 0 else 6.

(** The job a pending skill-match event or skill-match result is for. *)
Definition match_job (ev : Event) : list string :=
  match ev with
  | SkillMatchEvent _ _ j | SkillMatchResultEvent j _ => [j]
  | _ => []
  end.

Definition match_jobs (pending : list Event) : list string :=
  flat_map match_job pending.

(** The invariant that bounds a run on parsed inputs with distinct job
    ids: each job has at most one match event or match result pending,
    none once its completion is recorded; and the invocations made plus
    those left do not exceed [2 * length jids + 7]. *)
Definition bound_inv (jids : list string) (r : Run) : Prop :=
  let c := get_or completed_steps [] (run_store r) in
  NoDup (match_jobs (run_pending r))
  /\ (forall j, In j (match_jobs (run_pending r)) ->
                In j jids /\ ~ In (matched_key j) c)
  /\ length (run_handled r) + pending_weight (run_pending r) + barrier_debt jids c
     <= 2 * length jids + 7.

(** The phase-3 step a pending generation event or phase-3 result is for. *)
Definition step_job (ev : Event) : list string :=
  match ev with
  | GenerateRecommendationsEvent _ _ | RecommendationResultEvent _ =>
      ["recommendations"]
  | GenerateInterviewPrepEvent _ _ | InterviewPrepResultEvent _ =>
      ["interview_prep"]
  | GenerateMarketInsightsEvent _ _ | MarketInsightsResultEvent _ =>
      ["market_insights"]
  | _ => []
  end.

Definition step_jobs (pending : list Event) : list string :=
  flat_map step_job pending.

(** The invariant that counts the invocations of a run on parsed inputs
    that has not failed: each phase-3 step has at most one event pending,
    none once it is recorded and none before the phase-2 barrier fired;
    the invocations made and those left add up to [2 * length jids + 7];
    and a run is completed only with the three steps recorded. *)
Definition exact_inv (jids : list string) (r : Run) : Prop :=
  let c := get_or completed_steps [] (run_store r) in
  NoDup (step_jobs (run_pending r))
  /\ (forall k, In k (step_jobs (run_pending r)) -> ~ In k c)
  /\ (all_matched jids c = false ->
      step_jobs (run_pending r) = []
      /\ forall k, In k phase3_steps -> ~ In k c)
  /\ length (run_handled r) + pending_weight (run_pending r) + barrier_debt jids c
     = 2 * length jids + 7
  /\ (run_status r <> Running -> phase3_done c = true).

(** ** Progress reporting never fails a handler *)

Lemma try_broadcast_run (n : Notification) (h : HState) :
  exists p, try_broadcast n h = Returned (tt, with_progress h p).
Proof.
  unfold try_broadcast, with_progress.
  destruct (broadcast_agent_progress n) as [[]|e].
  - eexists; reflexivity.
  - exists (h_progress h). destruct h; reflexivity.
Qed.

Lemma broadcast_status_run (a : Agent) status progress step err (h : HState) :
  exists p, _broadcast_status a status progress step err h
            = Returned (tt, with_progress h p).
Proof.
  unfold _broadcast_status.
  destruct (_session_id a) as [sid|].
  - destruct (String.eqb sid "").
    + exists (h_progress h). destruct h; reflexivity.
    + apply try_broadcast_run.
  - exists (h_progress h). destruct h; reflexivity.
Qed.

Lemma process_run (a : Agent) (exec : outcome pydict) (h : HState) :
  exists p, process a exec h = Returned (process_output exec, with_progress h p).
Proof.
  unfold process, report_progress, bind.
  destruct (broadcast_status_run a "running" 0 (Some ("Starting " ++ name a)) None h)
    as [p0 ->].
  destruct exec as [d|e].
  - destruct (broadcast_status_run a "completed" 100 (Some "Complete") None
                (with_progress h p0)) as [p1 ->].
    exists p1. reflexivity.
  - destruct e as [m|m|m|m]; cbn [exn_str];
      match goal with
      | |- context [_broadcast_status a ?s ?n ?c ?e ?hh] =>
          destruct (broadcast_status_run a s n c e hh) as [p1 ->]
      end; exists p1; reflexivity.
Qed.

(** ** Symbolic execution of handlers *)

Ltac unfold_monad :=
  unfold run_handler, bind, store_get, store_get_default, store_set,
    send_event, ret, raise, broadcast_workflow_progress.

Lemma for_each_send_some {A : Type} (mk : A -> Event) (xs : list A)
    (first_event : Event) (h : HState) :
  for_each xs (fun x => first_or_send (mk x)) (Some first_event) h
  = Returned (Some first_event,
              {| h_store := h_store h; h_sent := (h_sent h ++ map mk xs)%list;
                 h_progress := h_progress h |}).
Proof.
  revert h. induction xs as [|x xs IH]; intros h; cbn [for_each map].
  - unfold ret. rewrite app_nil_r. destruct h; reflexivity.
  - unfold bind at 1. unfold first_or_send at 1. unfold bind at 1, send_event, ret.
    rewrite IH. cbn [h_store h_sent h_progress]. rewrite <- app_assoc. reflexivity.
Qed.

Lemma for_each_send_none {A : Type} (mk : A -> Event) (xs : list A) (h : HState) :
  for_each xs (fun x => first_or_send (mk x)) None h
  = Returned (option_map mk (hd_error xs),
              {| h_store := h_store h; h_sent := (h_sent h ++ map mk (tl xs))%list;
                 h_progress := h_progress h |}).
Proof.
  destruct xs as [|x xs]; cbn [for_each hd_error tl option_map map].
  - unfold ret. rewrite app_nil_r. destruct h; reflexivity.
  - unfold bind at 1. unfold first_or_send at 1. unfold ret at 1.
    apply for_each_send_some.
Qed.

Ltac store_simpl :=
  cbn [h_store h_sent h_progress with_progress
       session_id resume_id job_ids completed_steps parsed_jobs skill_matches
       all_skill_gaps needs_resume_parsing needs_jd_parsing parsed_resume
       recommendations interview_prep market_insights
       set_session_id set_resume_id set_job_ids set_completed_steps
       set_parsed_jobs set_skill_matches set_all_skill_gaps
       set_needs_resume_parsing set_needs_jd_parsing set_parsed_resume
       set_recommendations set_interview_prep set_market_insights].

Ltac run_handler_tac :=
  unfold_monad; store_simpl;
  repeat (first
    [ match goal with
      | |- context [try_broadcast ?n ?h] =>
          let p := fresh "p" in
          destruct (try_broadcast_run n h) as [p ->]
      | |- context [process ?a ?e ?h] =>
          let p := fresh "p" in
          destruct (process_run a e h) as [p ->]
      end
    | progress store_simpl ]).

Lemma collect_phase2_run (st : Store) (j sid : string) :
  session_id st = Some sid ->
  let c := (get_or completed_steps [] st ++ [matched_key j])%list in
  let jids := get_or job_ids [] st in
  exists p,
    run_handler (collect_phase2 j) st
    = Returned {| hr_store := set_completed_steps c st;
                  hr_sent := if all_matched jids c then phase3_sent sid jids st else [];
                  hr_returned := if all_matched jids c
                                 then Some (phase3_returned sid st)
                                 else None;
                  hr_progress := p |}.
Proof.
  intros Hsid c jids. subst c jids. unfold get_or, phase3_sent, phase3_returned.
  unfold collect_phase2. unfold_monad. store_simpl. rewrite Hsid.
  destruct (all_matched _ _).
  - run_handler_tac. eexists. reflexivity.
  - eexists. reflexivity.
Qed.

Lemma start_run (sid rid : string) (jids : list string) (text : option string)
    (texts : option (dict string)) (st : Store) :
  exists p,
    run_handler (start sid rid jids text texts) st
    = Returned {| hr_store := start_store sid rid jids text texts st;
                  hr_sent := tl (start_events sid rid jids text texts);
                  hr_returned := hd_error (start_events sid rid jids text texts);
                  hr_progress := p |}.
Proof.
  unfold start, start_events, skips_parsing, start_store, parse_events.
  run_handler_tac.
  destruct text as [t|]; cbn [is_some negb andb].
  - run_handler_tac. unfold first_or_send at 1. 
    destruct texts as [ts|].
    + destruct (Nat.ltb 0 (length ts)) eqn:Hlen.
      * run_handler_tac. unfold Dict.items. rewrite for_each_send_some.
        store_simpl. eexists. reflexivity.
      * destruct ts; [|discriminate]. run_handler_tac. eexists. reflexivity.
    + run_handler_tac. eexists. reflexivity.
  - destruct texts as [ts|].
    + destruct (Nat.ltb 0 (length ts)) eqn:Hlen; cbn [negb].
      * run_handler_tac. unfold Dict.items. rewrite for_each_send_none.
        store_simpl. cbn [app]. destruct ts; [discriminate|].
        eexists. reflexivity.
      * run_handler_tac. rewrite for_each_send_none. store_simpl.
        destruct jids; eexists; reflexivity.
    + cbn [negb]. run_handler_tac. rewrite for_each_send_none. store_simpl.
      destruct jids; eexists; reflexivity.
Qed.

Lemma parse_resume_run (exec : outcome pydict) (text rid sid : string) (st : Store) :
  session_id st = Some sid ->
  exists p,
    run_handler (parse_resume exec text rid) st
    = Returned {| hr_store := set_parsed_resume (data (process_output exec)) st;
                  hr_sent := [];
                  hr_returned := Some (ResumeParseResultEvent rid
                                         (data (process_output exec)));
                  hr_progress := p |}.
Proof.
  intros Hsid. unfold parse_resume. unfold_monad. store_simpl. rewrite Hsid.
  run_handler_tac. eexists. reflexivity.
Qed.

Lemma analyze_jd_run (exec : outcome pydict) (jid text sid : string) (st : Store) :
  session_id st = Some sid ->
  exists p,
    run_handler (analyze_jd exec jid text) st
    = Returned {| hr_store := set_parsed_jobs
                                (Dict.set jid (data (process_output exec))
                                          (get_or parsed_jobs [] st)) st;
                  hr_sent := [];
                  hr_returned := Some (JDAnalyzeResultEvent jid
                                         (data (process_output exec)));
                  hr_progress := p |}.
Proof.
  intros Hsid. unfold analyze_jd. unfold_monad. store_simpl. rewrite Hsid.
  run_handler_tac. eexists. reflexivity.
Qed.

Lemma match_skills_run (exec : outcome pydict) (esid erid jid sid : string)
    (missing : list pyval) (st : Store) :
  session_id st = Some sid ->
  py_iter (Dict.get_default "missing_skills" (VList []) (data (process_output exec)))
  = Returned missing ->
  exists p,
    run_handler (match_skills exec esid erid jid) st
    = Returned {| hr_store :=
                    set_all_skill_gaps
                      (aggregate_gaps missing (get_or all_skill_gaps [] st))
                      (set_skill_matches
                         (Dict.set jid (data (process_output exec))
                                   (get_or skill_matches [] st)) st);
                  hr_sent := [];
                  hr_returned := Some (SkillMatchResultEvent jid
                                         (data (process_output exec)));
                  hr_progress := p |}.
Proof.
  intros Hsid Hiter. unfold match_skills. unfold_monad. store_simpl. rewrite Hsid.
  run_handler_tac. rewrite Hiter. eexists. reflexivity.
Qed.

Lemma match_skills_raises (exec : outcome pydict) (esid erid jid sid : string)
    (e : exn) (st : Store) :
  session_id st = Some sid ->
  py_iter (Dict.get_default "missing_skills" (VList []) (data (process_output exec)))
  = Raised e ->
  run_handler (match_skills exec esid erid jid) st = Raised e.
Proof.
  intros Hsid Hiter. unfold match_skills. unfold_monad. store_simpl. rewrite Hsid.
  run_handler_tac. rewrite Hiter. reflexivity.
Qed.

Lemma generate_recommendations_run (exec : outcome pydict) (esid sid rid : string)
    (gaps : list pyval) (st : Store) :
  session_id st = Some sid -> resume_id st = Some rid ->
  exists p,
    run_handler (generate_recommendations exec esid gaps) st
    = Returned {| hr_store := set_recommendations (data (process_output exec)) st;
                  hr_sent := [];
                  hr_returned := Some (RecommendationResultEvent
                                         (data (process_output exec)));
                  hr_progress := p |}.
Proof.
  intros Hsid Hrid. unfold generate_recommendations. unfold_monad. store_simpl.
  rewrite Hsid. store_simpl. rewrite Hrid. run_handler_tac. eexists. reflexivity.
Qed.

Lemma generate_interview_prep_run (exec : outcome pydict) (esid sid rid : string)
    (gaps : list pyval) (st : Store) :
  session_id st = Some sid -> resume_id st = Some rid ->
  exists p,
    run_handler (generate_interview_prep exec esid gaps) st
    = Returned {| hr_store := set_interview_prep (data (process_output exec)) st;
                  hr_sent := [];
                  hr_returned := Some (InterviewPrepResultEvent
                                         (data (process_output exec)));
                  hr_progress := p |}.
Proof.
  intros Hsid Hrid. unfold generate_interview_prep. unfold_monad. store_simpl.
  rewrite Hsid. store_simpl. rewrite Hrid. run_handler_tac. eexists. reflexivity.
Qed.

Lemma generate_market_insights_run (exec : outcome pydict) (esid sid : string)
    (title : pyval) (st : Store) :
  session_id st = Some sid ->
  exists p,
    run_handler (generate_market_insights exec esid title) st
    = Returned {| hr_store := set_market_insights (data (process_output exec)) st;
                  hr_sent := [];
                  hr_returned := Some (MarketInsightsResultEvent
                                         (data (process_output exec)));
                  hr_progress := p |}.
Proof.
  intros Hsid. unfold generate_market_insights. unfold_monad. store_simpl.
  rewrite Hsid. run_handler_tac. eexists. reflexivity.
Qed.

Lemma collect_phase1_run (ev : Event) (k sid rid : string) (st : Store) :
  session_id st = Some sid -> resume_id st = Some rid ->
  phase1_key ev = Some k ->
  let c := (get_or completed_steps [] st ++ [k])%list in
  let jids := get_or job_ids [] st in
  let fired := resume_done (get_or needs_resume_parsing false st) c
               && jds_done (get_or needs_jd_parsing false st) jids c in
  exists p,
    run_handler (collect_phase1 ev) st
    = Returned {| hr_store := set_completed_steps c st;
                  hr_sent := if fired then skill_match_sent sid rid jids else [];
                  hr_returned := if fired then skill_match_returned sid rid jids
                                 else None;
                  hr_progress := p |}.
Proof.
  intros Hsid Hrid Hk c jids fired. subst c jids fired.
  unfold get_or, skill_match_sent, skill_match_returned.
  unfold collect_phase1. unfold_monad. store_simpl. rewrite Hsid.
  assert (Hc : forall (h : HState),
    match ev with
    | ResumeParseResultEvent _ _ =>
        fun h0 : HState =>
          Returned ((match completed_steps st with Some v => v | None => [] end
                     ++ ["resume_parsed"])%list, h0)
    | _ =>
        match event_job_id ev with
        | Some job_id =>
            fun h0 : HState =>
              Returned ((match completed_steps st with Some v => v | None => [] end
                         ++ [jd_parsed_key job_id])%list, h0)
        | None => fun _ : HState => Raised (AttributeError "job_id")
        end
    end h
    = Returned ((match completed_steps st with Some v => v | None => [] end
                 ++ [k])%list, h)).
  { intros h. unfold phase1_key in Hk.
    destruct ev; cbn [event_job_id option_map] in *; try discriminate;
      injection Hk as <-; reflexivity. }
  rewrite Hc. store_simpl.
  destruct (resume_done _ _ && jds_done _ _ _).
  - run_handler_tac. rewrite Hrid. rewrite for_each_send_none. store_simpl.
    eexists. reflexivity.
  - eexists. reflexivity.
Qed.

Lemma finalize_fires (ev : Event) (sid rid : string) (recs prep insights : pydict)
    (st : Store) :
  session_id st = Some sid -> resume_id st = Some rid ->
  recommendations st = Some recs -> interview_prep st = Some prep ->
  market_insights st = Some insights ->
  let c := (get_or completed_steps [] st ++ [phase3_key ev])%list in
  phase3_done c = true ->
  exists p,
    run_handler (finalize ev) st
    = Returned {| hr_store := set_completed_steps c st;
                  hr_sent := [];
                  hr_returned :=
                    Some (StopEvent
                            {| res_success := true;
                               res_session_id := sid;
                               res_resume_id := rid;
                               res_job_matches :=
                                 Dict.values (get_or skill_matches [] st);
                               res_recommendations := recs;
                               res_interview_prep := prep;
                               res_market_insights := insights |});
                  hr_progress := p |}.
Proof.
  intros Hsid Hrid Hrecs Hprep Hins c Hdone. subst c.
  unfold get_or in *. unfold finalize. unfold_monad. store_simpl. rewrite Hsid.
  destruct ev; cbn [phase3_key] in Hdone; store_simpl; rewrite Hdone;
    run_handler_tac; rewrite Hrid; store_simpl; rewrite Hrecs; store_simpl;
    rewrite Hprep; store_simpl; rewrite Hins; eexists; reflexivity.
Qed.

Lemma finalize_quiet (ev : Event) (sid : string) (st : Store) :
  session_id st = Some sid ->
  let c := (get_or completed_steps [] st ++ [phase3_key ev])%list in
  phase3_done c = false ->
  run_handler (finalize ev) st
  = Returned {| hr_store := set_completed_steps c st;
                hr_sent := []; hr_returned := None; hr_progress := [] |}.
Proof.
  intros Hsid c Hdone. subst c.
  unfold get_or in *. unfold finalize. unfold_monad. store_simpl. rewrite Hsid.
  destruct ev; cbn [phase3_key] in Hdone; store_simpl; rewrite Hdone; reflexivity.
Qed.

(** ** Lists, strings and dicts *)

Lemma str_in_In (x : string) (xs : list string) : str_in x xs = true <-> In x xs.
Proof.
  unfold str_in. rewrite existsb_exists. split.
  - intros [y [Hy Heq]]. apply String.eqb_eq in Heq. subst. exact Hy.
  - intros H. exists x. split; [exact H | apply String.eqb_refl].
Qed.

Lemma str_in_app (x : string) (xs ys : list string) :
  str_in x (xs ++ ys) = str_in x xs || str_in x ys.
Proof. unfold str_in. apply existsb_app. Qed.

Lemma py_eqb_refl (v : pyval) : py_eqb v v = true.
Proof.
  induction v using pyval_nested_ind; cbn [py_eqb].
  - reflexivity.
  - destruct b; reflexivity.
  - apply Z.eqb_refl.
  - apply String.eqb_refl.
  - induction H as [|x xs Hx _ IH]; [reflexivity|].
    rewrite Hx. exact IH.
  - rewrite Nat.eqb_refl. cbn [andb]. apply forallb_forall. intros kv Hkv.
    apply existsb_exists. exists kv. split; [exact Hkv|].
    rewrite String.eqb_refl. cbn [andb].
    rewrite Forall_forall in H. apply H. exact Hkv.
Qed.

Lemma py_in_In (x : pyval) (xs : list pyval) : In x xs -> py_in x xs = true.
Proof.
  intros H. unfold py_in. apply existsb_exists. exists x.
  split; [exact H | apply py_eqb_refl].
Qed.

Lemma dict_keys_set {V : Type} (k : string) (v : V) (d : dict V) (k' : string) :
  In k' (Dict.keys (Dict.set k v d)) <-> k' = k \/ In k' (Dict.keys d).
Proof.
  unfold Dict.keys. induction d as [|[k0 v0] d IH]; cbn [Dict.set map fst In].
  - intuition congruence.
  - destruct (String.eqb_spec k k0) as [->|Hne]; cbn [map fst In].
    + intuition congruence.
    + rewrite IH. intuition congruence.
Qed.

Lemma dict_keys_set_nodup {V : Type} (k : string) (v : V) (d : dict V) :
  NoDup (Dict.keys d) -> NoDup (Dict.keys (Dict.set k v d)).
Proof.
  unfold Dict.keys. induction d as [|[k0 v0] d IH]; cbn [Dict.set map fst]; intros H.
  - constructor; [intros []|constructor].
  - destruct (String.eqb_spec k k0) as [->|Hne]; cbn [map fst].
    + exact H.
    + inversion H as [|? ? Hnotin Hnd]; subst. constructor.
      * intros Hin. apply (dict_keys_set k v d k0) in Hin.
        destruct Hin as [->|Hin]; [congruence | exact (Hnotin Hin)].
      * apply IH. exact Hnd.
Qed.


(** The completion keys of the three phases never collide. *)

Lemma matched_key_inj (j j' : string) : matched_key j = matched_key j' -> j = j'.
Proof. unfold matched_key. cbn. congruence. Qed.

Lemma jd_parsed_key_inj (j j' : string) : jd_parsed_key j = jd_parsed_key j' -> j = j'.
Proof. unfold jd_parsed_key. cbn. congruence. Qed.

Lemma matched_key_not_phase1 (j : string) (ev : Event) :
  phase1_key ev <> Some (matched_key j).
Proof.
  unfold phase1_key, matched_key, jd_parsed_key.
  destruct ev; cbn; congruence.
Qed.

Lemma matched_key_not_phase3 (j : string) (ev : Event) :
  phase3_key ev <> matched_key j.
Proof. unfold phase3_key, matched_key. destruct ev; cbn; congruence. Qed.

Lemma jd_parsed_key_not_matched (j j' : string) : matched_key j <> jd_parsed_key j'.
Proof. unfold matched_key, jd_parsed_key. cbn. congruence. Qed.

Lemma phase3_key_not_phase1 (ev ev' : Event) : phase1_key ev <> Some (phase3_key ev').
Proof.
  unfold phase1_key, phase3_key, jd_parsed_key.
  destruct ev; destruct ev'; cbn; congruence.
Qed.

(** ** Progress reporting *)

(** Whatever the progress sink does with a notification, accept it or
    raise, [broadcast_workflow_progress] returns normally: when the sink
    raises, the handler state is left exactly as it was, and in every case
    the run context and the events already sent are untouched. *)
Lemma broadcast_workflow_progress_run
    (sid agent status : string) (progress : Z) (current_step : option string)
    (h : HState) :
  (forall e,
      broadcast_agent_progress
        {| n_session_id := sid; n_agent_name := agent; n_status := status;
           n_progress := progress; n_current_step := current_step;
           n_error := None |} = Raised e ->
      broadcast_workflow_progress sid agent status progress current_step h
      = Returned (tt, h))
  /\ (exists p,
        broadcast_workflow_progress sid agent status progress current_step h
        = Returned (tt, with_progress h p)).
Proof.
  split.
  - intros e He. unfold broadcast_workflow_progress, try_broadcast.
    rewrite He. reflexivity.
  - apply try_broadcast_run.
Qed.

(** ** Gap aggregation *)

Lemma py_truthy_nonempty (v : pyval) : py_truthy v = true -> v <> VStr "".
Proof. intros H ->. discriminate H. Qed.

Lemma add_gap_ok (skill : pyval) (gaps : list pyval) :
  gaps_ok gaps -> gaps_ok (add_gap skill gaps).
Proof.
  intros [Hnd Hne]. unfold add_gap.
  set (skill_name := match skill with
                     | VDict d => Dict.get_default "skill_name" (VStr "") d
                     | _ => VStr (py_str skill)
                     end).
  destruct (py_truthy skill_name) eqn:Ht; cbn [andb]; [|split; assumption].
  destruct (py_in skill_name gaps) eqn:Hin; cbn [negb]; [split; assumption|].
  split.
  - apply NoDup_app; [exact Hnd | constructor; [intros []|constructor] |].
    intros x Hx [<-|[]].
    rewrite (py_in_In _ gaps Hx) in Hin. discriminate.
  - intros H. apply in_app_or in H. destruct H as [H|[H|[]]].
    + exact (Hne H).
    + exact (py_truthy_nonempty _ Ht H).
Qed.

Lemma aggregate_gaps_ok (missing gaps : list pyval) :
  gaps_ok gaps -> gaps_ok (aggregate_gaps missing gaps).
Proof.
  unfold aggregate_gaps. revert gaps.
  induction missing as [|skill missing IH]; intros gaps H; cbn [fold_left].
  - exact H.
  - apply IH. apply add_gap_ok. exact H.
Qed.

(** ** Barrier conditions as sets of recorded keys *)

Lemma all_matched_spec (jids c : list string) :
  all_matched jids c = true <-> forall j, In j jids -> In (matched_key j) c.
Proof.
  unfold all_matched, py_all. rewrite forallb_forall.
  split; intros H j Hj; apply str_in_In; apply H; exact Hj.
Qed.

Lemma phase3_done_spec (c : list string) :
  phase3_done c = true
  <-> In "recommendations" c /\ In "interview_prep" c /\ In "market_insights" c.
Proof.
  unfold phase3_done, py_all. cbn [forallb].
  rewrite !andb_true_iff, !str_in_In. intuition.
Qed.

Lemma jds_done_spec (needs_jd : bool) (jids c : list string) :
  jds_done needs_jd jids c = true
  <-> (needs_jd = true -> forall j, In j jids -> In (jd_parsed_key j) c).
Proof.
  unfold jds_done, py_all. rewrite orb_true_iff, forallb_forall.
  destruct needs_jd; cbn [negb]; split.
  - intros [H|H] _ j Hj; [discriminate|]. apply str_in_In, H, Hj.
  - intros H. right. intros j Hj. apply str_in_In, H; [reflexivity|exact Hj].
  - intros _ H. discriminate H.
  - intros _. left. reflexivity.
Qed.

Lemma resume_done_spec (needs_resume : bool) (c : list string) :
  resume_done needs_resume c = true
  <-> (needs_resume = true -> In "resume_parsed" c).
Proof.
  unfold resume_done. rewrite orb_true_iff, str_in_In.
  destruct needs_resume; cbn [negb]; intuition discriminate.
Qed.

(** ** Monotonicity of the run invariants *)

Lemma store_le_refl (st : Store) : store_le st st.
Proof. unfold store_le. intuition. Qed.

Lemma matched_all_mono (jids : list string) (st st' : Store) :
  store_le st st' -> matched_all jids st -> matched_all jids st'.
Proof.
  intros (_ & Hc & _) H j Hj. apply Hc, H, Hj.
Qed.

Lemma pending_ok_mono (jids : list string) (st st' : Store) (ev : Event) :
  store_le st st' -> pending_ok jids st ev -> pending_ok jids st' ev.
Proof.
  intros Hle. pose proof (matched_all_mono jids st st' Hle) as Hm.
  destruct Hle as (Hk & Hc & Hr & Hp & Hi).
  destruct ev; cbn [pending_ok]; intuition.
Qed.

Lemma completed_ok_mono (jids : list string) (st st' : Store) (k : string) :
  store_le st st' -> completed_ok jids st k -> completed_ok jids st' k.
Proof.
  intros Hle. pose proof (matched_all_mono jids st st' Hle) as Hm.
  destruct Hle as (Hk & Hc & Hr & Hp & Hi).
  unfold completed_ok. intros (H1 & H2 & H3 & H4).
  split; [intros j E; apply Hk, (H1 j E)|].
  split; [intros E; destruct (H2 E); split; auto|].
  split; [intros E; destruct (H3 E); split; auto|].
  intros E; destruct (H4 E); split; auto.
Qed.

Lemma Forall_remove_nth {A : Type} (P : A -> Prop) (l : list A) (i : nat) :
  Forall P l -> Forall P (firstn i l ++ skipn (S i) l).
Proof.
  intros H. revert i. induction H as [|x l Hx Hl IH]; intros i.
  - rewrite firstn_nil, skipn_nil. constructor.
  - destruct i; cbn [firstn skipn app].
    + exact Hl.
    + constructor; [exact Hx | apply IH].
Qed.

(** ** Every step of a run keeps the invariant *)

Lemma running_inv_after (sid rid : string) (jids : list string) (st st' : Store)
    (rest out handled : list Event) (status' : RunStatus) :
  session_id st' = Some sid -> resume_id st' = Some rid -> job_ids st' = Some jids ->
  NoDup (Dict.keys (get_or skill_matches [] st')) ->
  (forall j, In j (Dict.keys (get_or skill_matches [] st')) -> In j jids) ->
  gaps_ok (get_or all_skill_gaps [] st') ->
  store_le st st' ->
  Forall (pending_ok jids st) rest ->
  Forall (pending_ok jids st') out ->
  Forall (completed_ok jids st') (get_or completed_steps [] st') ->
  (forall res, status' = Completed res -> final_ok sid rid jids st' res) ->
  running_inv sid rid jids
    {| run_store := st'; run_pending := rest ++ out;
       run_handled := handled; run_status := status' |}.
Proof.
  intros Hsid Hrid Hjids Hnd Hsub Hgaps Hle Hrest Hout Hcomp Hfin.
  unfold running_inv. cbn [run_store run_pending run_status].
  refine (conj Hsid (conj Hrid (conj Hjids (conj Hnd (conj Hsub
            (conj Hgaps (conj _ (conj Hcomp Hfin)))))))).
  apply Forall_app. split; [|exact Hout].
  eapply Forall_impl; [|exact Hrest].
  intros ev. apply pending_ok_mono. exact Hle.
Qed.

Lemma skill_match_events_ok (sid rid : string) (jids all : list string) (st : Store) :
  (forall j, In j jids -> In j all) ->
  Forall (pending_ok all st)
         (skill_match_sent sid rid jids
          ++ match skill_match_returned sid rid jids with
             | Some ev => [ev]
             | None => []
             end).
Proof.
  intros Hsub. unfold skill_match_sent, skill_match_returned.
  apply Forall_app. split.
  - apply Forall_forall. intros ev Hev. apply in_map_iff in Hev.
    destruct Hev as [j [<- Hj]]. cbn [pending_ok].
    apply Hsub. destruct jids; [destruct Hj | right; exact Hj].
  - destruct jids as [|j0 jids']; cbn [hd_error option_map]; repeat constructor.
    apply Hsub. left. reflexivity.
Qed.

Lemma skill_match_events_no_stop (sid rid : string) (jids : list string) :
  first_stop (skill_match_sent sid rid jids
              ++ match skill_match_returned sid rid jids with
                 | Some ev => [ev]
                 | None => []
                 end) = None.
Proof.
  unfold skill_match_sent, skill_match_returned.
  destruct jids as [|j0 jids']; [reflexivity|].
  cbn [tl hd_error option_map].
  induction jids' as [|j jids' IH]; [reflexivity|exact IH].
Qed.

Lemma record_step_le (st : Store) (k : string) :
  store_le st (set_completed_steps (get_or completed_steps [] st ++ [k]) st).
Proof.
  unfold store_le, get_or. store_simpl.
  repeat split; try (intros; assumption).
  intros k' Hk'. apply in_or_app. left. exact Hk'.
Qed.

Lemma record_step_completed_ok (jids : list string) (st : Store) (k : string) :
  let st' := set_completed_steps (get_or completed_steps [] st ++ [k]) st in
  Forall (completed_ok jids st) (get_or completed_steps [] st) ->
  completed_ok jids st' k ->
  Forall (completed_ok jids st') (get_or completed_steps [] st').
Proof.
  intros st' Hall Hk.
  assert (E : get_or completed_steps [] st' = (get_or completed_steps [] st ++ [k])%list)
    by reflexivity.
  rewrite E. apply Forall_app. split.
  - eapply Forall_impl; [|exact Hall].
    intros k'. apply completed_ok_mono. apply record_step_le.
  - constructor; [exact Hk|constructor].
Qed.

Lemma phase1_key_completed_ok (jids : list string) (st : Store) (ev : Event) (k : string) :
  phase1_key ev = Some k -> completed_ok jids st k.
Proof.
  intros Hk. unfold completed_ok.
  split; [|split; [|split]].
  - intros j ->. destruct (matched_key_not_phase1 j ev Hk).
  - intros ->. destruct (phase3_key_not_phase1 ev (RecommendationResultEvent []) Hk).
  - intros ->. destruct (phase3_key_not_phase1 ev (InterviewPrepResultEvent []) Hk).
  - intros ->. destruct (phase3_key_not_phase1 ev (MarketInsightsResultEvent []) Hk).
Qed.

Lemma collect_phase1_keeps_inv (sid rid : string) (jids : list string) (st : Store)
    (rest handled : list Event) (ev : Event) (k : string) (p : list Notification) :
  session_id st = Some sid -> resume_id st = Some rid -> job_ids st = Some jids ->
  NoDup (Dict.keys (get_or skill_matches [] st)) ->
  (forall j, In j (Dict.keys (get_or skill_matches [] st)) -> In j jids) ->
  gaps_ok (get_or all_skill_gaps [] st) ->
  Forall (pending_ok jids st) rest ->
  Forall (completed_ok jids st) (get_or completed_steps [] st) ->
  phase1_key ev = Some k ->
  let c := (get_or completed_steps [] st ++ [k])%list in
  let fired := resume_done (get_or needs_resume_parsing false st) c
               && jds_done (get_or needs_jd_parsing false st) (get_or job_ids [] st) c in
  let hr := {| hr_store := set_completed_steps c st;
               hr_sent := if fired then skill_match_sent sid rid (get_or job_ids [] st)
                          else [];
               hr_returned := if fired
                              then skill_match_returned sid rid (get_or job_ids [] st)
                              else None;
               hr_progress := p |} in
  running_inv sid rid jids
    {| run_store := hr_store hr;
       run_pending := rest ++ emitted hr;
       run_handled := handled;
       run_status := match first_stop (emitted hr) with
                     | Some res => Completed res
                     | None => Running
                     end |}.
Proof.
  intros Hsid Hrid Hjids Hnd Hsub Hgaps Hrest Hcomp Hk c fired hr.
  assert (Hstop : first_stop (emitted hr) = None).
  { unfold hr, emitted. cbn [hr_sent hr_returned].
    destruct fired; [apply skill_match_events_no_stop | reflexivity]. }
  rewrite Hstop.
  apply running_inv_after with (st := st); try assumption; try discriminate.
  - apply record_step_le.
  - unfold hr, emitted. cbn [hr_sent hr_returned hr_store].
    destruct fired; [|constructor].
    apply skill_match_events_ok. unfold get_or. rewrite Hjids. auto.
  - apply record_step_completed_ok; [exact Hcomp|].
    eapply phase1_key_completed_ok. exact Hk.
Qed.

Lemma phase3_key_completed_ok (jids : list string) (st : Store) (ev : Event) :
  is_phase3_result ev = true -> pending_ok jids st ev ->
  completed_ok jids st (phase3_key ev).
Proof.
  intros Hres Hev. unfold completed_ok.
  split.
  - intros j E. destruct (matched_key_not_phase3 j ev E).
  - destruct ev; try discriminate Hres; cbn [phase3_key pending_ok] in *;
      (split; [|split]); intros E; try discriminate E; try exact Hev.
Qed.

Lemma matched_key_completed_ok (jids : list string) (st : Store) (j : string) :
  In j (Dict.keys (get_or skill_matches [] st)) ->
  completed_ok jids st (matched_key j).
Proof.
  intros Hj. unfold completed_ok. split; [|split; [|split]].
  - intros j' E. apply matched_key_inj in E. subst j'. exact Hj.
  - intros E. destruct (matched_key_not_phase3 j (RecommendationResultEvent [])).
    symmetry. exact E.
  - intros E. destruct (matched_key_not_phase3 j (InterviewPrepResultEvent [])).
    symmetry. exact E.
  - intros E. destruct (matched_key_not_phase3 j (MarketInsightsResultEvent [])).
    symmetry. exact E.
Qed.

Lemma matched_all_keys (jids : list string) (st : Store) :
  Forall (completed_ok jids st) (get_or completed_steps [] st) ->
  matched_all jids st ->
  forall j, In j jids -> In j (Dict.keys (get_or skill_matches [] st)).
Proof.
  intros Hcomp Hall j Hj. rewrite Forall_forall in Hcomp.
  destruct (Hcomp _ (Hall j Hj)) as [H _]. apply (H j). reflexivity.
Qed.

Lemma phase3_values_present (jids : list string) (st : Store) (ev : Event) :
  Forall (completed_ok jids st) (get_or completed_steps [] st) ->
  is_phase3_result ev = true -> pending_ok jids st ev ->
  phase3_done (get_or completed_steps [] st ++ [phase3_key ev]) = true ->
  (recommendations st <> None /\ interview_prep st <> None
   /\ market_insights st <> None) /\ matched_all jids st.
Proof.
  intros Hcomp Hres Hev Hdone.
  apply phase3_done_spec in Hdone. destruct Hdone as (H1 & H2 & H3).
  assert (Hall : forall k, In k (get_or completed_steps [] st ++ [phase3_key ev]) ->
                           completed_ok jids st k).
  { intros k Hk. apply in_app_or in Hk. destruct Hk as [Hk|[<-|[]]].
    - rewrite Forall_forall in Hcomp. apply Hcomp. exact Hk.
    - apply phase3_key_completed_ok; assumption. }
  destruct (Hall _ H1) as (_ & R & _ & _).
  destruct (Hall _ H2) as (_ & _ & P & _).
  destruct (Hall _ H3) as (_ & _ & _ & I).
  destruct (R eq_refl) as [R1 R2]. destruct (P eq_refl) as [P1 _].
  destruct (I eq_refl) as [I1 _].
  repeat split; assumption.
Qed.

Lemma finalize_keeps_inv (sid rid : string) (jids : list string) (st : Store)
    (rest handled : list Event) (ev : Event) (r' : Run) :
  session_id st = Some sid -> resume_id st = Some rid -> job_ids st = Some jids ->
  NoDup (Dict.keys (get_or skill_matches [] st)) ->
  (forall j, In j (Dict.keys (get_or skill_matches [] st)) -> In j jids) ->
  gaps_ok (get_or all_skill_gaps [] st) ->
  Forall (pending_ok jids st) rest ->
  Forall (completed_ok jids st) (get_or completed_steps [] st) ->
  is_phase3_result ev = true -> pending_ok jids st ev ->
  match run_handler (finalize ev) st with
  | Returned hr =>
      Some {| run_store := hr_store hr;
              run_pending := rest ++ emitted hr;
              run_handled := handled;
              run_status := match first_stop (emitted hr) with
                            | Some res => Completed res
                            | None => Running
                            end |}
  | Raised e =>
      Some {| run_store := st; run_pending := rest; run_handled := handled;
              run_status := Failed (exn_str e) |}
  end = Some r' ->
  running_inv sid rid jids r'.
Proof.
  intros Hsid Hrid Hjids Hnd Hsub Hgaps Hrest Hcomp Hres Hev Hd.
  destruct (phase3_done (get_or completed_steps [] st ++ [phase3_key ev])) eqn:Hdone.
  - destruct (phase3_values_present jids st ev Hcomp Hres Hev Hdone)
      as [(HR & HP & HI) Hall].
    destruct (recommendations st) as [recs|] eqn:ER; [|congruence].
    destruct (interview_prep st) as [prep|] eqn:EP; [|congruence].
    destruct (market_insights st) as [insights|] eqn:EI; [|congruence].
    destruct (finalize_fires ev sid rid recs prep insights st Hsid Hrid ER EP EI Hdone)
      as [p E].
    rewrite E in Hd. clear E. injection Hd as <-.
    cbn [hr_store emitted hr_sent hr_returned app first_stop].
    apply running_inv_after with (st := st); try assumption.
    + apply record_step_le.
    + repeat constructor.
    + apply record_step_completed_ok; [exact Hcomp|].
      eapply completed_ok_mono; [apply record_step_le|].
      apply phase3_key_completed_ok; assumption.
    + intros res Eres. injection Eres as <-.
      unfold final_ok. cbn [res_success res_session_id res_resume_id res_job_matches
                            res_recommendations res_interview_prep res_market_insights].
      repeat split; try assumption.
      * apply Hsub.
      * apply (matched_all_keys jids st Hcomp Hall).
  - rewrite (finalize_quiet ev sid st Hsid Hdone) in Hd. injection Hd as <-.
    cbn [hr_store emitted hr_sent hr_returned app first_stop].
    apply running_inv_after with (st := st); try assumption; try discriminate.
    + apply record_step_le.
    + constructor.
    + apply record_step_completed_ok; [exact Hcomp|].
      eapply completed_ok_mono; [apply record_step_le|].
      apply phase3_key_completed_ok; assumption.
Qed.

Lemma first_stop_none (evs : list Event) :
  (forall res, ~ In (StopEvent res) evs) -> first_stop evs = None.
Proof.
  induction evs as [|ev evs IH]; intros H; [reflexivity|].
  destruct ev; cbn [first_stop];
    try (apply IH; intros res Hin; apply (H res); right; exact Hin).
  destruct (H result). left. reflexivity.
Qed.

Lemma start_events_no_stop (sid rid : string) (jids : list string)
    (text : option string) (texts : option (dict string)) (res : AnalysisResult) :
  ~ In (StopEvent res) (start_events sid rid jids text texts).
Proof.
  unfold start_events, parse_events. intros Hin.
  destruct (skips_parsing text texts).
  - apply in_map_iff in Hin. destruct Hin as [j [E _]]. discriminate E.
  - apply in_app_or in Hin. destruct Hin as [Hin|Hin].
    + destruct text; [destruct Hin as [E|[]]; discriminate E | destruct Hin].
    + destruct texts as [ts|]; [|destruct Hin].
      apply in_map_iff in Hin. destruct Hin as [kv [E _]]. discriminate E.
Qed.

Lemma start_events_pending_ok (sid rid : string) (jids : list string)
    (text : option string) (texts : option (dict string)) (st : Store) :
  Forall (pending_ok jids st) (start_events sid rid jids text texts).
Proof.
  unfold start_events. destruct (skips_parsing text texts).
  - apply Forall_forall. intros ev Hev. apply in_map_iff in Hev.
    destruct Hev as [j [<- Hj]]. exact Hj.
  - unfold parse_events. apply Forall_app. split.
    + destruct text; repeat constructor.
    + destruct texts as [ts|]; [|constructor].
      apply Forall_forall. intros ev Hev. apply in_map_iff in Hev.
      destruct Hev as [kv [<- _]]. exact I.
Qed.

Lemma in_tl_hd {A : Type} (x : A) (l : list A) :
  In x (tl l ++ match hd_error l with Some a => [a] | None => [] end) <-> In x l.
Proof.
  destruct l as [|a l]; cbn [tl hd_error]; [cbn; tauto|].
  rewrite in_app_iff. cbn [In]. tauto.
Qed.

Lemma dispatch_running_inv (sid rid : string) (jids : list string) (r r' : Run)
    (i : nat) (exec : outcome pydict) :
  running_inv sid rid jids r -> dispatch r i exec = Some r' ->
  running_inv sid rid jids r'.
Proof.
  intros Hinv Hd. unfold dispatch in Hd.
  destruct (run_status r) eqn:Hst; try discriminate.
  destruct (nth_error (run_pending r) i) as [ev|] eqn:Hnth; try discriminate.
  destruct Hinv as (Hsid & Hrid & Hjids & Hnd & Hsub & Hgaps & Hpend & Hcomp & Hfin).
  assert (Hev : pending_ok jids (run_store r) ev).
  { rewrite Forall_forall in Hpend. apply Hpend. eapply nth_error_In; eauto. }
  assert (Hrest := Forall_remove_nth _ _ i Hpend).
  set (st := run_store r) in *.
  set (rest := (firstn i (run_pending r) ++ skipn (S i) (run_pending r))%list) in *.
  destruct ev; cbn [handle] in Hd.
  - destruct Hev.
  - (* parse_resume *)
    destruct (parse_resume_run exec resume_text resume_id0 sid st Hsid) as [p E].
    rewrite E in Hd. injection Hd as <-.
    cbn [hr_store emitted hr_sent hr_returned app first_stop].
    apply running_inv_after with (st := st); try assumption; try discriminate.
    + unfold store_le, get_or; store_simpl; intuition.
    + repeat constructor.
  - (* collect_phase1, resume *)
    destruct (collect_phase1_run (ResumeParseResultEvent resume_id0 parsed_resume0)
                "resume_parsed" sid rid st Hsid Hrid eq_refl) as [p E].
    cbv zeta in E. rewrite E in Hd. clear E. injection Hd as <-.
    apply (collect_phase1_keeps_inv sid rid jids st rest _
             (ResumeParseResultEvent resume_id0 parsed_resume0) "resume_parsed" p);
      try assumption. reflexivity.
  - (* analyze_jd *)
    destruct (analyze_jd_run exec job_id jd_text sid st Hsid) as [p E].
    rewrite E in Hd. injection Hd as <-.
    cbn [hr_store emitted hr_sent hr_returned app first_stop].
    apply running_inv_after with (st := st); try assumption; try discriminate.
    + unfold store_le, get_or; store_simpl; intuition.
    + repeat constructor.
  - (* collect_phase1, jd *)
    destruct (collect_phase1_run (JDAnalyzeResultEvent job_id parsed_jd)
                (jd_parsed_key job_id) sid rid st Hsid Hrid eq_refl) as [p E].
    cbv zeta in E. rewrite E in Hd. clear E. injection Hd as <-.
    apply (collect_phase1_keeps_inv sid rid jids st rest _
             (JDAnalyzeResultEvent job_id parsed_jd) (jd_parsed_key job_id) p);
      try assumption. reflexivity.
  - (* match_skills *)
    cbn [pending_ok] in Hev.
    destruct (py_iter (Dict.get_default "missing_skills" (VList [])
                         (data (process_output exec)))) as [missing|e] eqn:Hiter.
    + destruct (match_skills_run exec session_id0 resume_id0 job_id sid missing st
                  Hsid Hiter) as [p E].
      rewrite E in Hd. injection Hd as <-.
      cbn [hr_store emitted hr_sent hr_returned app first_stop].
      assert (Hle : store_le st
                (set_all_skill_gaps
                   (aggregate_gaps missing (get_or all_skill_gaps [] st))
                   (set_skill_matches
                      (Dict.set job_id (data (process_output exec))
                                (get_or skill_matches [] st)) st))).
      { unfold store_le, get_or; store_simpl.
        repeat split; try (intros; assumption).
        intros j Hj. apply dict_keys_set. right. exact Hj. }
      apply running_inv_after with (st := st); try assumption; try discriminate.
      * unfold get_or at 1. store_simpl. apply dict_keys_set_nodup. exact Hnd.
      * unfold get_or at 1. store_simpl. intros j Hj.
        apply dict_keys_set in Hj. destruct Hj as [->|Hj]; [exact Hev|auto].
      * unfold get_or at 1. store_simpl. apply aggregate_gaps_ok. exact Hgaps.
      * constructor; [|constructor]. cbn [pending_ok]. unfold get_or at 1.
        store_simpl. apply dict_keys_set. left. reflexivity.
      * eapply Forall_impl; [|exact Hcomp].
        intros k. apply completed_ok_mono. exact Hle.
    + rewrite (match_skills_raises exec session_id0 resume_id0 job_id sid e st
                 Hsid Hiter) in Hd.
      injection Hd as <-.
      refine (conj Hsid (conj Hrid (conj Hjids (conj Hnd (conj Hsub
                (conj Hgaps (conj Hrest (conj Hcomp _)))))))).
      cbn [run_status]. discriminate.
  - (* collect_phase2 *)
    cbn [pending_ok] in Hev.
    destruct (collect_phase2_run st job_id sid Hsid) as [p E].
    cbv zeta in E. rewrite E in Hd. clear E. injection Hd as <-.
    cbn [hr_store].
    set (c := (get_or completed_steps [] st ++ [matched_key job_id])%list) in *.
    set (st' := set_completed_steps c st) in *.
    assert (Hjids' : get_or job_ids [] st = jids)
      by (unfold get_or; rewrite Hjids; reflexivity).
    rewrite Hjids'.
    assert (Hstop : first_stop
              (emitted {| hr_store := st';
                          hr_sent := if all_matched jids c
                                     then phase3_sent sid jids st else [];
                          hr_returned := if all_matched jids c
                                         then Some (phase3_returned sid st)
                                         else None;
                          hr_progress := p |}) = None).
    { unfold emitted. cbn [hr_sent hr_returned].
      destruct (all_matched jids c); reflexivity. }
    rewrite Hstop.
    apply running_inv_after with (st := st); try assumption; try discriminate.
    + apply record_step_le.
    + unfold emitted. cbn [hr_sent hr_returned].
      destruct (all_matched jids c) eqn:Hall; [|constructor].
      assert (Hm : matched_all jids st').
      { intros j Hj. apply (proj1 (all_matched_spec jids c) Hall j Hj). }
      repeat constructor; exact Hm.
    + apply record_step_completed_ok; [exact Hcomp|].
      apply matched_key_completed_ok. exact Hev.
  - (* generate_recommendations *)
    cbn [pending_ok] in Hev.
    destruct (generate_recommendations_run exec session_id0 sid rid skill_gaps st
                Hsid Hrid) as [p E].
    rewrite E in Hd. injection Hd as <-.
    cbn [hr_store emitted hr_sent hr_returned app first_stop].
    assert (Hle : store_le st (set_recommendations (data (process_output exec)) st)).
    { unfold store_le, get_or; store_simpl.
      repeat split; try (intros; assumption). discriminate. }
    apply running_inv_after with (st := st); try assumption; try discriminate.
    + constructor; [|constructor]. cbn [pending_ok]. split; [discriminate|exact Hev].
    + eapply Forall_impl; [|exact Hcomp].
      intros k. apply completed_ok_mono. exact Hle.
  - (* generate_interview_prep *)
    cbn [pending_ok] in Hev.
    destruct (generate_interview_prep_run exec session_id0 sid rid skill_gaps st
                Hsid Hrid) as [p E].
    rewrite E in Hd. injection Hd as <-.
    cbn [hr_store emitted hr_sent hr_returned app first_stop].
    assert (Hle : store_le st (set_interview_prep (data (process_output exec)) st)).
    { unfold store_le, get_or; store_simpl.
      repeat split; try (intros; assumption). discriminate. }
    apply running_inv_after with (st := st); try assumption; try discriminate.
    + constructor; [|constructor]. cbn [pending_ok]. split; [discriminate|exact Hev].
    + eapply Forall_impl; [|exact Hcomp].
      intros k. apply completed_ok_mono. exact Hle.
  - (* generate_market_insights *)
    cbn [pending_ok] in Hev.
    destruct (generate_market_insights_run exec session_id0 sid job_title st Hsid)
      as [p E].
    rewrite E in Hd. injection Hd as <-.
    cbn [hr_store emitted hr_sent hr_returned app first_stop].
    assert (Hle : store_le st (set_market_insights (data (process_output exec)) st)).
    { unfold store_le, get_or; store_simpl.
      repeat split; try (intros; assumption). discriminate. }
    apply running_inv_after with (st := st); try assumption; try discriminate.
    + constructor; [|constructor]. cbn [pending_ok]. split; [discriminate|exact Hev].
    + eapply Forall_impl; [|exact Hcomp].
      intros k. apply completed_ok_mono. exact Hle.
  - eapply (finalize_keeps_inv sid rid jids st rest); try eassumption. reflexivity.
  - eapply (finalize_keeps_inv sid rid jids st rest); try eassumption. reflexivity.
  - eapply (finalize_keeps_inv sid rid jids st rest); try eassumption. reflexivity.
  - discriminate Hd.
Qed.

Lemma step_run_inv (sid rid : string) (jids : list string) (text : option string)
    (texts : option (dict string)) (r r' : Run) :
  run_inv sid rid jids text texts r -> step r r' ->
  run_inv sid rid jids text texts r'.
Proof.
  intros Hinv [[i [exec Hd]]|Ht].
  - destruct Hinv as [(Hstore & Hpend & Hhandled & Hst)|Hinv].
    + right. unfold dispatch in Hd. rewrite Hpend in Hd.
      destruct (run_status r) eqn:Hstatus; try discriminate.
      destruct i as [|i]; cbn [nth_error] in Hd; [|destruct i; discriminate].
      cbn [handle] in Hd.
      destruct (start_run sid rid jids text texts (run_store r)) as [p E].
      rewrite E in Hd. clear E. injection Hd as <-.
      cbn [hr_store firstn skipn app].
      set (evs := start_events sid rid jids text texts) in *.
      assert (Hem : forall p0,
                emitted {| hr_store := start_store sid rid jids text texts (run_store r);
                           hr_sent := tl evs; hr_returned := hd_error evs;
                           hr_progress := p0 |}
                = (tl evs ++ match hd_error evs with Some e => [e] | None => [] end)%list)
        by reflexivity.
      rewrite Hem.
      assert (Hout' : Forall (pending_ok jids
                                (start_store sid rid jids text texts (run_store r)))
                             (tl evs ++ match hd_error evs with
                                        | Some e => [e] | None => [] end)).
      { apply Forall_forall. intros ev Hev. apply (proj1 (in_tl_hd ev evs)) in Hev.
        pose proof (start_events_pending_ok sid rid jids text texts
                      (start_store sid rid jids text texts (run_store r))) as Hall.
        rewrite Forall_forall in Hall. apply Hall. exact Hev. }
      assert (Hstop' : first_stop (tl evs ++ match hd_error evs with
                                             | Some e => [e] | None => [] end) = None).
      { apply first_stop_none. intros res Hin. apply (proj1 (in_tl_hd _ evs)) in Hin.
        exact (start_events_no_stop sid rid jids text texts res Hin). }
      rewrite Hstop'.
      apply (running_inv_after sid rid jids
               (start_store sid rid jids text texts (run_store r))
               (start_store sid rid jids text texts (run_store r)) []);
        try reflexivity; try assumption; try discriminate.
      * constructor.
      * intros j [].
      * split; [constructor | intros []].
      * apply store_le_refl.
      * constructor.
      * constructor.
    + right. eapply dispatch_running_inv; eauto.
  - unfold timeout in Ht. destruct (run_status r) eqn:Hstatus; try discriminate.
    injection Ht as <-.
    destruct Hinv as [(Hstore & Hpend & Hhandled & Hst)|Hinv].
    + left. cbn [run_store run_pending run_handled run_status].
      repeat split; try assumption. discriminate.
    + right. destruct Hinv as (Hsid & Hrid & Hjids & Hnd & Hsub & Hgaps & Hp & Hc & Hf).
      refine (conj Hsid (conj Hrid (conj Hjids (conj Hnd (conj Hsub
                (conj Hgaps (conj Hp (conj Hc _)))))))).
      cbn [run_status]. discriminate.
Qed.

Lemma reachable_run_inv (sid rid : string) (jids : list string) (text : option string)
    (texts : option (dict string)) (r : Run) :
  reachable (StartAnalysisEvent sid rid jids text texts) r ->
  run_inv sid rid jids text texts r.
Proof.
  induction 1 as [|r r' Hreach IH Hstep].
  - left. cbn. repeat split. discriminate.
  - eapply step_run_inv; eauto.
Qed.

(** ** What a handler that returned must have found and done *)

Lemma collect_phase1_returned (ev : Event) (st : Store) (hr : HandlerResult) :
  run_handler (collect_phase1 ev) st = Returned hr ->
  exists sid k,
    session_id st = Some sid /\ phase1_key ev = Some k
    /\ let c := (get_or completed_steps [] st ++ [k])%list in
       let jids := get_or job_ids [] st in
       hr_store hr = set_completed_steps c st
       /\ if resume_done (get_or needs_resume_parsing false st) c
             && jds_done (get_or needs_jd_parsing false st) jids c
          then exists rid, resume_id st = Some rid
                           /\ hr_sent hr = skill_match_sent sid rid jids
                           /\ hr_returned hr = skill_match_returned sid rid jids
          else hr_sent hr = [] /\ hr_returned hr = None.
Proof.
  intros H.
  destruct (session_id st) as [sid|] eqn:Hsid.
  2:{ revert H. unfold collect_phase1. unfold_monad. store_simpl.
      rewrite Hsid. discriminate. }
  destruct (phase1_key ev) as [k|] eqn:Hk.
  2:{ revert H. unfold collect_phase1. unfold_monad. store_simpl.
      rewrite Hsid. unfold phase1_key in Hk.
      destruct ev; cbn [event_job_id option_map] in *; discriminate. }
  exists sid, k. split; [reflexivity|]. split; [reflexivity|]. cbv zeta.
  destruct (resume_id st) as [rid|] eqn:Hrid.
  - destruct (collect_phase1_run ev k sid rid st Hsid Hrid Hk) as [p E].
    cbv zeta in E. rewrite E in H. injection H as <-. cbn [hr_store hr_sent hr_returned].
    split; [reflexivity|].
    destruct (resume_done _ _ && jds_done _ _ _); eauto.
  - revert H. unfold collect_phase1. unfold_monad. store_simpl. rewrite Hsid.
    unfold get_or.
    assert (Hc : forall (h : HState),
      match ev with
      | ResumeParseResultEvent _ _ =>
          fun h0 : HState =>
            Returned ((match completed_steps st with Some v => v | None => [] end
                       ++ ["resume_parsed"])%list, h0)
      | _ =>
          match event_job_id ev with
          | Some job_id =>
              fun h0 : HState =>
                Returned ((match completed_steps st with Some v => v | None => [] end
                           ++ [jd_parsed_key job_id])%list, h0)
          | None => fun _ : HState => Raised (AttributeError "job_id")
          end
      end h
      = Returned ((match completed_steps st with Some v => v | None => [] end
                   ++ [k])%list, h)).
    { intros h. unfold phase1_key in Hk.
      destruct ev; cbn [event_job_id option_map] in *; try discriminate;
        injection Hk as <-; reflexivity. }
    rewrite Hc. store_simpl.
    destruct (resume_done _ _ && jds_done _ _ _).
    + run_handler_tac. rewrite Hrid. discriminate.
    + intros H. injection H as <-. cbn. auto.
Qed.

Lemma collect_phase2_returned (j : string) (st : Store) (hr : HandlerResult) :
  run_handler (collect_phase2 j) st = Returned hr ->
  exists sid,
    session_id st = Some sid
    /\ let c := (get_or completed_steps [] st ++ [matched_key j])%list in
       let jids := get_or job_ids [] st in
       hr_store hr = set_completed_steps c st
       /\ hr_sent hr = (if all_matched jids c then phase3_sent sid jids st else [])
       /\ hr_returned hr = (if all_matched jids c
                            then Some (phase3_returned sid st) else None).
Proof.
  intros H.
  destruct (session_id st) as [sid|] eqn:Hsid.
  - destruct (collect_phase2_run st j sid Hsid) as [p E]. cbv zeta in E.
    rewrite E in H. injection H as <-. exists sid. cbn. auto.
  - revert H. unfold collect_phase2. unfold_monad. store_simpl.
    rewrite Hsid. discriminate.
Qed.

Lemma finalize_returned (ev : Event) (st : Store) (hr : HandlerResult) :
  run_handler (finalize ev) st = Returned hr ->
  hr_store hr = set_completed_steps
                  (get_or completed_steps [] st ++ [phase3_key ev]) st
  /\ hr_sent hr = []
  /\ (hr_returned hr = None \/ exists res, hr_returned hr = Some (StopEvent res)).
Proof.
  intros H.
  destruct (session_id st) as [sid|] eqn:Hsid.
  2:{ revert H. unfold finalize. unfold_monad. store_simpl.
      rewrite Hsid. discriminate. }
  destruct (phase3_done (get_or completed_steps [] st ++ [phase3_key ev])) eqn:Hdone.
  - destruct (resume_id st) as [rid|] eqn:Hrid;
      [destruct (recommendations st) as [recs|] eqn:ER;
       [destruct (interview_prep st) as [prep|] eqn:EP;
        [destruct (market_insights st) as [ins|] eqn:EI|]|]|].
    + destruct (finalize_fires ev sid rid recs prep ins st Hsid Hrid ER EP EI Hdone)
        as [p E].
      rewrite E in H. injection H as <-. cbn. eauto.
    + revert H. unfold get_or in Hdone. unfold finalize. unfold_monad. store_simpl.
      rewrite Hsid.
      destruct ev; cbn [phase3_key] in Hdone; store_simpl; rewrite Hdone;
        run_handler_tac; rewrite Hrid; store_simpl; rewrite ER; store_simpl;
        rewrite EP; store_simpl; rewrite EI; discriminate.
    + revert H. unfold get_or in Hdone. unfold finalize. unfold_monad. store_simpl.
      rewrite Hsid.
      destruct ev; cbn [phase3_key] in Hdone; store_simpl; rewrite Hdone;
        run_handler_tac; rewrite Hrid; store_simpl; rewrite ER; store_simpl;
        rewrite EP; discriminate.
    + revert H. unfold get_or in Hdone. unfold finalize. unfold_monad. store_simpl.
      rewrite Hsid.
      destruct ev; cbn [phase3_key] in Hdone; store_simpl; rewrite Hdone;
        run_handler_tac; rewrite Hrid; store_simpl; rewrite ER; discriminate.
    + revert H. unfold get_or in Hdone. unfold finalize. unfold_monad. store_simpl.
      rewrite Hsid.
      destruct ev; cbn [phase3_key] in Hdone; store_simpl; rewrite Hdone;
        run_handler_tac; rewrite Hrid; discriminate.
  - rewrite (finalize_quiet ev sid st Hsid Hdone) in H. injection H as <-.
    cbn. auto.
Qed.

Lemma parse_resume_returned (exec : outcome pydict) (text rid : string) (st : Store)
    (hr : HandlerResult) :
  run_handler (parse_resume exec text rid) st = Returned hr ->
  hr_store hr = set_parsed_resume (data (process_output exec)) st
  /\ hr_sent hr = []
  /\ hr_returned hr = Some (ResumeParseResultEvent rid (data (process_output exec))).
Proof.
  intros H. destruct (session_id st) as [sid|] eqn:Hsid.
  - destruct (parse_resume_run exec text rid sid st Hsid) as [p E].
    rewrite E in H. injection H as <-. cbn. auto.
  - revert H. unfold parse_resume. unfold_monad. store_simpl. rewrite Hsid.
    discriminate.
Qed.

Lemma analyze_jd_returned (exec : outcome pydict) (jid text : string) (st : Store)
    (hr : HandlerResult) :
  run_handler (analyze_jd exec jid text) st = Returned hr ->
  hr_store hr = set_parsed_jobs (Dict.set jid (data (process_output exec))
                                          (get_or parsed_jobs [] st)) st
  /\ hr_sent hr = []
  /\ hr_returned hr = Some (JDAnalyzeResultEvent jid (data (process_output exec))).
Proof.
  intros H. destruct (session_id st) as [sid|] eqn:Hsid.
  - destruct (analyze_jd_run exec jid text sid st Hsid) as [p E].
    rewrite E in H. injection H as <-. cbn. auto.
  - revert H. unfold analyze_jd. unfold_monad. store_simpl. rewrite Hsid.
    discriminate.
Qed.

Lemma match_skills_returned (exec : outcome pydict) (esid erid jid : string)
    (st : Store) (hr : HandlerResult) :
  run_handler (match_skills exec esid erid jid) st = Returned hr ->
  exists missing,
    py_iter (Dict.get_default "missing_skills" (VList []) (data (process_output exec)))
    = Returned missing
    /\ hr_store hr
       = set_all_skill_gaps
           (aggregate_gaps missing (get_or all_skill_gaps [] st))
           (set_skill_matches
              (Dict.set jid (data (process_output exec))
                        (get_or skill_matches [] st)) st)
    /\ hr_sent hr = []
    /\ hr_returned hr = Some (SkillMatchResultEvent jid (data (process_output exec))).
Proof.
  intros H. destruct (session_id st) as [sid|] eqn:Hsid.
  - destruct (py_iter (Dict.get_default "missing_skills" (VList [])
                         (data (process_output exec)))) as [missing|e] eqn:Hiter.
    + destruct (match_skills_run exec esid erid jid sid missing st Hsid Hiter)
        as [p E].
      rewrite E in H. injection H as <-. exists missing. cbn. auto.
    + rewrite (match_skills_raises exec esid erid jid sid e st Hsid Hiter) in H.
      discriminate H.
  - revert H. unfold match_skills. unfold_monad. store_simpl. rewrite Hsid.
    discriminate.
Qed.

Lemma generate_recommendations_returned (exec : outcome pydict) (esid : string)
    (gaps : list pyval) (st : Store) (hr : HandlerResult) :
  run_handler (generate_recommendations exec esid gaps) st = Returned hr ->
  hr_store hr = set_recommendations (data (process_output exec)) st
  /\ hr_sent hr = []
  /\ hr_returned hr = Some (RecommendationResultEvent (data (process_output exec))).
Proof.
  intros H. destruct (session_id st) as [sid|] eqn:Hsid.
  - destruct (resume_id st) as [rid|] eqn:Hrid.
    + destruct (generate_recommendations_run exec esid sid rid gaps st Hsid Hrid)
        as [p E].
      rewrite E in H. injection H as <-. cbn. auto.
    + revert H. unfold generate_recommendations. unfold_monad. store_simpl.
      rewrite Hsid. store_simpl. rewrite Hrid. discriminate.
  - revert H. unfold generate_recommendations. unfold_monad. store_simpl.
    rewrite Hsid. discriminate.
Qed.

Lemma generate_interview_prep_returned (exec : outcome pydict) (esid : string)
    (gaps : list pyval) (st : Store) (hr : HandlerResult) :
  run_handler (generate_interview_prep exec esid gaps) st = Returned hr ->
  hr_store hr = set_interview_prep (data (process_output exec)) st
  /\ hr_sent hr = []
  /\ hr_returned hr = Some (InterviewPrepResultEvent (data (process_output exec))).
Proof.
  intros H. destruct (session_id st) as [sid|] eqn:Hsid.
  - destruct (resume_id st) as [rid|] eqn:Hrid.
    + destruct (generate_interview_prep_run exec esid sid rid gaps st Hsid Hrid)
        as [p E].
      rewrite E in H. injection H as <-. cbn. auto.
    + revert H. unfold generate_interview_prep. unfold_monad. store_simpl.
      rewrite Hsid. store_simpl. rewrite Hrid. discriminate.
  - revert H. unfold generate_interview_prep. unfold_monad. store_simpl.
    rewrite Hsid. discriminate.
Qed.

Lemma generate_market_insights_returned (exec : outcome pydict) (esid : string)
    (title : pyval) (st : Store) (hr : HandlerResult) :
  run_handler (generate_market_insights exec esid title) st = Returned hr ->
  hr_store hr = set_market_insights (data (process_output exec)) st
  /\ hr_sent hr = []
  /\ hr_returned hr = Some (MarketInsightsResultEvent (data (process_output exec))).
Proof.
  intros H. destruct (session_id st) as [sid|] eqn:Hsid.
  - destruct (generate_market_insights_run exec esid sid title st Hsid) as [p E].
    rewrite E in H. injection H as <-. cbn. auto.
  - revert H. unfold generate_market_insights. unfold_monad. store_simpl.
    rewrite Hsid. discriminate.
Qed.

(** ** Phase ordering *)

Lemma in_emitted (e : Event) (hr : HandlerResult) :
  In e (emitted hr) <-> In e (hr_sent hr) \/ hr_returned hr = Some e.
Proof.
  unfold emitted. rewrite in_app_iff.
  destruct (hr_returned hr) as [ev|]; cbn [In]; intuition congruence.
Qed.

Lemma in_skill_match_events (e : Event) (sid rid : string) (jids : list string) :
  In e (skill_match_sent sid rid jids)
  \/ skill_match_returned sid rid jids = Some e ->
  exists j, In j jids /\ e = SkillMatchEvent sid rid j.
Proof.
  unfold skill_match_sent, skill_match_returned.
  destruct jids as [|j0 jids']; cbn [tl hd_error option_map map].
  - intros [[]|H]; discriminate H.
  - intros [H|H].
    + apply in_map_iff in H. destruct H as [j [<- Hj]].
      exists j. split; [right; exact Hj | reflexivity].
    + injection H as <-. exists j0. split; [left|]; reflexivity.
Qed.

(** C5. Whatever handler the registry runs on whatever event, an event it
    enqueues is phase-2 work (a [SkillMatchEvent]) only if the phase-1
    completion test ([resume_done and jds_done]) holds on the context it
    leaves, and when it is [start] that enqueues it, only because neither
    parsing flag is set (phase 1 is skipped); it is phase-3 work (one of
    the three generation events) only if a [matched_] completion is
    recorded for every job id. *)
Theorem next_phase_only_after_barrier (exec : outcome pydict) (ev : Event)
    (m : M (option Event)) (st : Store) (hr : HandlerResult) (e : Event) :
  handle exec ev = Some m ->
  run_handler m st = Returned hr ->
  In e (emitted hr) ->
  (is_skill_match e = true ->
     phase1_complete (hr_store hr) = true
     /\ (is_start ev = true ->
         needs_resume_parsing (hr_store hr) = Some false
         /\ needs_jd_parsing (hr_store hr) = Some false))
  /\ (is_phase3_work e = true ->
        phase2_complete (hr_store hr) = true
        /\ forall j, In j (get_or job_ids [] (hr_store hr)) ->
                     In (matched_key j) (get_or completed_steps [] (hr_store hr))).
Proof.
  intros Hh Hrun Hin. apply in_emitted in Hin.
  destruct ev; cbn [handle] in Hh; try discriminate Hh; injection Hh as <-.
  - (* start *)
    destruct (start_run session_id0 resume_id0 job_ids0 resume_text job_texts st)
      as [p E].
    rewrite E in Hrun. injection Hrun as <-. cbn [hr_store hr_sent hr_returned] in *.
    assert (Hin' : In e (start_events session_id0 resume_id0 job_ids0
                           resume_text job_texts)).
    { destruct (start_events _ _ _ _ _) as [|e0 evs]; cbn [tl hd_error] in Hin.
      - destruct Hin as [[]|H]; discriminate H.
      - destruct Hin as [H|H]; [right; exact H | left; congruence]. }
    unfold start_events in Hin'. unfold skips_parsing in Hin'.
    destruct (negb (is_some resume_text)
              && negb match job_texts with
                      | Some t => Nat.ltb 0 (length t)
                      | None => false
                      end) eqn:Hskip.
    + apply andb_true_iff in Hskip. destruct Hskip as [Hr Hj].
      apply negb_true_iff in Hr, Hj.
      apply in_map_iff in Hin'. destruct Hin' as [j [<- Hj']].
      split; [|discriminate].
      intros _. unfold phase1_complete, start_store, get_or. store_simpl.
      rewrite Hr, Hj. split; [reflexivity|]. auto.
    + unfold parse_events in Hin'. apply in_app_or in Hin'.
      assert (Hparse : is_skill_match e = false /\ is_phase3_work e = false).
      { destruct Hin' as [H|H].
        - destruct resume_text; [destruct H as [<-|[]]; auto | destruct H].
        - destruct job_texts as [ts|]; [|destruct H].
          apply in_map_iff in H. destruct H as [kv [<- _]]. auto. }
      destruct Hparse as [-> ->]. split; discriminate.
  - (* parse_resume *)
    apply parse_resume_returned in Hrun. destruct Hrun as (_ & Hs & Hr).
    rewrite Hs, Hr in Hin. destruct Hin as [[]|H]. injection H as <-.
    split; discriminate.
  - (* collect_phase1 *)
    apply collect_phase1_returned in Hrun.
    destruct Hrun as (sid & k & Hsid & Hk & Hrun). cbv zeta in Hrun.
    destruct Hrun as [Hstore Hrun].
    destruct (resume_done _ _ && jds_done _ _ _) eqn:Hfired.
    + destruct Hrun as (rid & Hrid & Hs & Hr). rewrite Hs, Hr in Hin.
      apply in_skill_match_events in Hin. destruct Hin as [j [_ ->]].
      split; [|discriminate]. intros _. split; [|discriminate].
      rewrite Hstore. exact Hfired.
    + destruct Hrun as [Hs Hr]. rewrite Hs, Hr in Hin.
      destruct Hin as [[]|H]; discriminate H.
  - (* analyze_jd *)
    apply analyze_jd_returned in Hrun. destruct Hrun as (_ & Hs & Hr).
    rewrite Hs, Hr in Hin. destruct Hin as [[]|H]. injection H as <-.
    split; discriminate.
  - (* collect_phase1 *)
    apply collect_phase1_returned in Hrun.
    destruct Hrun as (sid & k & Hsid & Hk & Hrun). cbv zeta in Hrun.
    destruct Hrun as [Hstore Hrun].
    destruct (resume_done _ _ && jds_done _ _ _) eqn:Hfired.
    + destruct Hrun as (rid & Hrid & Hs & Hr). rewrite Hs, Hr in Hin.
      apply in_skill_match_events in Hin. destruct Hin as [j [_ ->]].
      split; [|discriminate]. intros _. split; [|discriminate].
      rewrite Hstore. exact Hfired.
    + destruct Hrun as [Hs Hr]. rewrite Hs, Hr in Hin.
      destruct Hin as [[]|H]; discriminate H.
  - (* match_skills *)
    apply match_skills_returned in Hrun. destruct Hrun as (missing & _ & _ & Hs & Hr).
    rewrite Hs, Hr in Hin. destruct Hin as [[]|H]. injection H as <-.
    split; discriminate.
  - (* collect_phase2 *)
    apply collect_phase2_returned in Hrun. destruct Hrun as (sid & Hsid & Hrun).
    cbv zeta in Hrun. destruct Hrun as (Hstore & Hs & Hr).
    destruct (all_matched _ _) eqn:Hall.
    + assert (He : is_skill_match e = false).
      { rewrite Hs, Hr in Hin. unfold phase3_sent, phase3_returned in Hin.
        destruct Hin as [[<-|[<-|[]]]|H]; [reflexivity|reflexivity|].
        injection H as <-. reflexivity. }
      rewrite He. split; [discriminate|]. intros _.
      assert (Hc : phase2_complete (hr_store hr) = true)
        by (rewrite Hstore; exact Hall).
      split; [exact Hc|]. apply all_matched_spec. exact Hc.
    + rewrite Hs, Hr in Hin. destruct Hin as [[]|H]; discriminate H.
  - apply generate_recommendations_returned in Hrun. destruct Hrun as (_ & Hs & Hr).
    rewrite Hs, Hr in Hin. destruct Hin as [[]|H]. injection H as <-.
    split; discriminate.
  - apply generate_interview_prep_returned in Hrun. destruct Hrun as (_ & Hs & Hr).
    rewrite Hs, Hr in Hin. destruct Hin as [[]|H]. injection H as <-.
    split; discriminate.
  - apply generate_market_insights_returned in Hrun. destruct Hrun as (_ & Hs & Hr).
    rewrite Hs, Hr in Hin. destruct Hin as [[]|H]. injection H as <-.
    split; discriminate.
  - apply finalize_returned in Hrun. destruct Hrun as (_ & Hs & Hr).
    rewrite Hs in Hin. destruct Hin as [[]|H].
    destruct Hr as [Hr|[res Hr]]; rewrite Hr in H; [discriminate H|].
    injection H as <-. split; discriminate.
  - apply finalize_returned in Hrun. destruct Hrun as (_ & Hs & Hr).
    rewrite Hs in Hin. destruct Hin as [[]|H].
    destruct Hr as [Hr|[res Hr]]; rewrite Hr in H; [discriminate H|].
    injection H as <-. split; discriminate.
  - apply finalize_returned in Hrun. destruct Hrun as (_ & Hs & Hr).
    rewrite Hs in Hin. destruct Hin as [[]|H].
    destruct Hr as [Hr|[res Hr]]; rewrite Hr in H; [discriminate H|].
    injection H as <-. split; discriminate.
Qed.

(** ** The terminal event *)



(** ** The gap list *)

(** C9. [match_skills] keeps the gap list free of duplicates and of the
    empty string: (1) a skill name is appended by the aggregation loop only
    if it is truthy (so not the empty string) and not already in the list;
    (2) if the stored list has no duplicate and no empty string before an
    invocation of [match_skills] that returns, so has the list it stores;
    (3) hence in every run started from a start event, the stored list has
    no duplicate and no empty string at any point. *)
Theorem all_skill_gaps_wellformed :
  (forall skill gaps,
      add_gap skill gaps = gaps
      \/ exists skill_name,
           add_gap skill gaps = (gaps ++ [skill_name])%list
           /\ py_truthy skill_name = true /\ py_in skill_name gaps = false)
  /\ (forall exec esid erid jid st hr,
         gaps_ok (get_or all_skill_gaps [] st) ->
         run_handler (match_skills exec esid erid jid) st = Returned hr ->
         exists gaps, all_skill_gaps (hr_store hr) = Some gaps /\ gaps_ok gaps)
  /\ (forall sid rid jids text texts r,
         reachable (StartAnalysisEvent sid rid jids text texts) r ->
         gaps_ok (get_or all_skill_gaps [] (run_store r))).
Proof.
  split; [|split].
  - intros skill gaps. unfold add_gap.
    set (skill_name := match skill with
                       | VDict d => Dict.get_default "skill_name" (VStr "") d
                       | _ => VStr (py_str skill)
                       end).
    destruct (py_truthy skill_name) eqn:Ht; cbn [andb]; [|left; reflexivity].
    destruct (py_in skill_name gaps) eqn:Hin; cbn [negb]; [left; reflexivity|].
    right. exists skill_name. auto.
  - intros exec esid erid jid st hr Hok Hrun.
    apply match_skills_returned in Hrun.
    destruct Hrun as (missing & _ & Hstore & _).
    rewrite Hstore. store_simpl. eexists. split; [reflexivity|].
    apply aggregate_gaps_ok. exact Hok.
  - intros sid rid jids text texts r Hreach.
    apply reachable_run_inv in Hreach.
    destruct Hreach as [(Hstore & _)|Hinv].
    + rewrite Hstore. split; [constructor | intros []].
    + destruct Hinv as (_ & _ & _ & _ & _ & Hgaps & _). exact Hgaps.
Qed.

(** ** A start event with nothing to do *)

Lemma start_events_nothing (sid rid : string) (texts : option (dict string)) :
  texts = None \/ texts = Some [] ->
  start_events sid rid [] None texts = [].
Proof. intros [->| ->]; reflexivity. Qed.

(** C10. For a start event without resume text, with [job_texts] absent
    or empty and with no job id: [start] stores the initial keys of the
    run context ([start_store]), sends no event and returns [None]; and in
    every run started from that event the only event ever handled or
    pending is the start event itself, so no other handler is invoked,
    and the run never completes with a terminal event. *)
Theorem empty_start_emits_nothing (sid rid : string) (texts : option (dict string)) :
  texts = None \/ texts = Some [] ->
  (forall st,
      exists p,
        run_handler (start sid rid [] None texts) st
        = Returned {| hr_store := start_store sid rid [] None texts st;
                      hr_sent := []; hr_returned := None; hr_progress := p |})
  /\ (forall r,
         reachable (StartAnalysisEvent sid rid [] None texts) r ->
         (forall ev, In ev (run_handled r) ->
                     ev = StartAnalysisEvent sid rid [] None texts)
         /\ (forall ev, In ev (run_pending r) ->
                        ev = StartAnalysisEvent sid rid [] None texts)
         /\ (forall res, run_status r <> Completed res)).
Proof.
  intros Htexts.
  assert (Hstart : forall st,
             exists p,
               run_handler (start sid rid [] None texts) st
               = Returned {| hr_store := start_store sid rid [] None texts st;
                             hr_sent := []; hr_returned := None; hr_progress := p |}).
  { intros st. destruct (start_run sid rid [] None texts st) as [p E].
    rewrite (start_events_nothing sid rid texts Htexts) in E.
    exists p. exact E. }
  split; [exact Hstart|].
  induction 1 as [|r r' Hreach IH Hstep].
  - cbn [init_run run_handled run_pending run_status].
    split; [intros ev []|]. split; [|discriminate].
    intros ev [<-|[]]. reflexivity.
  - destruct IH as (Hhandled & Hpending & Hstatus).
    destruct Hstep as [[i [exec Hd]]|Ht].
    + unfold dispatch in Hd.
      destruct (run_status r) eqn:Hst; try discriminate.
      destruct (nth_error (run_pending r) i) as [ev|] eqn:Hnth; try discriminate.
      assert (Hev : ev = StartAnalysisEvent sid rid [] None texts)
        by (apply Hpending; eapply nth_error_In; eauto).
      subst ev. cbn [handle] in Hd.
      destruct (Hstart (run_store r)) as [p E]. rewrite E in Hd.
      injection Hd as <-.
      cbn [run_handled run_pending run_status emitted hr_sent hr_returned app
           first_stop].
      split; [|split; [|discriminate]].
      * intros ev Hin. apply in_app_or in Hin.
        destruct Hin as [Hin|[<-|[]]]; [apply Hhandled; exact Hin | reflexivity].
      * intros ev Hin. rewrite app_nil_r in Hin. apply Hpending.
        apply in_app_or in Hin. destruct Hin as [Hin|Hin].
        -- rewrite <- (firstn_skipn i (run_pending r)).
           apply in_or_app. left. exact Hin.
        -- rewrite <- (firstn_skipn (S i) (run_pending r)).
           apply in_or_app. right. exact Hin.
    + unfold timeout in Ht. destruct (run_status r); try discriminate.
      injection Ht as <-. cbn [run_handled run_pending run_status].
      split; [exact Hhandled|]. split; [exact Hpending|discriminate].
Qed.

(** ** Duplicate completions *)

Lemma str_in_same (x : string) (c c' : list string) :
  (forall k, In k c <-> In k c') -> str_in x c = str_in x c'.
Proof.
  intros H. destruct (str_in x c) eqn:E; destruct (str_in x c') eqn:E';
    try reflexivity.
  - apply str_in_In, H, str_in_In in E. congruence.
  - apply str_in_In, H, str_in_In in E'. congruence.
Qed.

Lemma forallb_same {A : Type} (f g : A -> bool) (l : list A) :
  (forall x, f x = g x) -> forallb f l = forallb g l.
Proof.
  intros H. induction l as [|x l IH]; [reflexivity|].
  cbn [forallb]. rewrite H, IH. reflexivity.
Qed.

Lemma barrier_tests_same (c c' : list string) :
  (forall k, In k c <-> In k c') ->
  forall (needs_resume needs_jd : bool) (jids : list string),
    resume_done needs_resume c = resume_done needs_resume c'
    /\ jds_done needs_jd jids c = jds_done needs_jd jids c'
    /\ all_matched jids c = all_matched jids c'
    /\ phase3_done c = phase3_done c'.
Proof.
  intros H needs_resume needs_jd jids.
  unfold resume_done, jds_done, all_matched, phase3_done, py_all.
  rewrite (str_in_same "resume_parsed" c c' H).
  rewrite (forallb_same (fun jid => str_in (jd_parsed_key jid) c)
             (fun jid => str_in (jd_parsed_key jid) c') jids)
    by (intros; apply str_in_same; exact H).
  rewrite (forallb_same (fun jid => str_in (matched_key jid) c)
             (fun jid => str_in (matched_key jid) c') jids)
    by (intros; apply str_in_same; exact H).
  rewrite (forallb_same (fun step => str_in step c) (fun step => str_in step c'))
    by (intros; apply str_in_same; exact H).
  auto.
Qed.

Lemma in_append_present (k : string) (c : list string) :
  In k c -> forall x, In x (c ++ [k]) <-> In x c.
Proof.
  intros Hk x. rewrite in_app_iff. cbn [In]. intuition congruence.
Qed.

(** C4, as the code has it. Recording a completion that is already
    recorded appends its key to [completed_steps] once more, so the list
    itself changes; what does not change is the set of distinct recorded
    keys: after [collect_phase1], [collect_phase2] or [finalize] handled a
    duplicate, a key is recorded if and only if it was recorded before. And
    the firing tests of the three barriers depend on the recorded list only
    through that set: two lists with the same members give the same value
    to [resume_done], [jds_done], [all_matched] and [phase3_done]. *)
Theorem duplicate_completion_same_set :
  (forall ev k st hr,
      phase1_key ev = Some k ->
      In k (get_or completed_steps [] st) ->
      run_handler (collect_phase1 ev) st = Returned hr ->
      completed_steps (hr_store hr) = Some (get_or completed_steps [] st ++ [k])%list
      /\ forall x, In x (get_or completed_steps [] (hr_store hr))
                   <-> In x (get_or completed_steps [] st))
  /\ (forall j st hr,
         In (matched_key j) (get_or completed_steps [] st) ->
         run_handler (collect_phase2 j) st = Returned hr ->
         completed_steps (hr_store hr)
         = Some (get_or completed_steps [] st ++ [matched_key j])%list
         /\ forall x, In x (get_or completed_steps [] (hr_store hr))
                      <-> In x (get_or completed_steps [] st))
  /\ (forall ev st hr,
         In (phase3_key ev) (get_or completed_steps [] st) ->
         run_handler (finalize ev) st = Returned hr ->
         completed_steps (hr_store hr)
         = Some (get_or completed_steps [] st ++ [phase3_key ev])%list
         /\ forall x, In x (get_or completed_steps [] (hr_store hr))
                      <-> In x (get_or completed_steps [] st))
  /\ (forall c c',
         (forall k, In k c <-> In k c') ->
         forall needs_resume needs_jd jids,
           resume_done needs_resume c = resume_done needs_resume c'
           /\ jds_done needs_jd jids c = jds_done needs_jd jids c'
           /\ all_matched jids c = all_matched jids c'
           /\ phase3_done c = phase3_done c').
Proof.
  split; [|split; [|split]].
  - intros ev k st hr Hk Hin Hrun. apply collect_phase1_returned in Hrun.
    destruct Hrun as (sid & k' & _ & Hk' & Hrun). cbv zeta in Hrun.
    destruct Hrun as [Hstore _]. rewrite Hk in Hk'. injection Hk' as <-.
    rewrite Hstore. split; [reflexivity|].
    apply (in_append_present k _ Hin).
  - intros j st hr Hin Hrun. apply collect_phase2_returned in Hrun.
    destruct Hrun as (sid & _ & Hrun). cbv zeta in Hrun.
    destruct Hrun as [Hstore _]. rewrite Hstore. split; [reflexivity|].
    apply (in_append_present _ _ Hin).
  - intros ev st hr Hin Hrun. apply finalize_returned in Hrun.
    destruct Hrun as [Hstore _]. rewrite Hstore. split; [reflexivity|].
    apply (in_append_present _ _ Hin).
  - exact barrier_tests_same.
Qed.

(** ** Fault containment *)

Lemma process_output_raised (e : exn) :
  success (process_output (Raised e)) = false
  /\ data (process_output (Raised e)) = [].
Proof. destruct e; split; reflexivity. Qed.

Lemma collector_ignores_payload (exec : outcome pydict) (d : pydict) (ev : Event) :
  handle exec (with_payload d ev) = handle exec ev.
Proof. destruct ev; reflexivity. Qed.

(** C3, as the code has it. Take a run context in which [start] stored the
    session and resume ids, a work event, and an agent whose [_execute]
    raises. The exception does not leave [BaseAgent.process]: it becomes
    an [AgentOutput] with [success = False] and the empty dict as [data].
    The work handler, which has no error handling of its own and drops
    [success] and [errors], returns normally and returns its usual result
    event with that empty dict as payload. No failure flag exists on the
    event: it is the very event, and the run context is the very context,
    that an agent succeeding with an empty dict gives. The collector the
    result event is routed to does not read the payload, so the completion
    is recorded as for a success. *)
Theorem failing_adapter_yields_unflagged_result (e : exn) (st : Store)
    (sid rid : string) (ev : Event) (m_fail m_ok : M (option Event)) :
  session_id st = Some sid -> resume_id st = Some rid ->
  is_work ev = true ->
  handle (Raised e) ev = Some m_fail ->
  handle (Returned []) ev = Some m_ok ->
  success (process_output (Raised e)) = false
  /\ data (process_output (Raised e)) = []
  /\ exists hr_fail hr_ok result_ev,
       run_handler m_fail st = Returned hr_fail
       /\ run_handler m_ok st = Returned hr_ok
       /\ hr_store hr_fail = hr_store hr_ok
       /\ hr_sent hr_fail = [] /\ hr_sent hr_ok = []
       /\ hr_returned hr_fail = Some result_ev
       /\ hr_returned hr_ok = Some result_ev
       /\ result_payload result_ev = Some []
       /\ forall exec d, handle exec (with_payload d result_ev) = handle exec result_ev.
Proof.
  intros Hsid Hrid Hwork Hfail Hok.
  destruct (process_output_raised e) as [Hs Hd].
  split; [exact Hs|]. split; [exact Hd|].
  destruct ev; try discriminate Hwork; cbn [handle] in Hfail, Hok;
    injection Hfail as <-; injection Hok as <-.
  - destruct (parse_resume_run (Raised e) resume_text resume_id0 sid st Hsid) as [p E].
    destruct (parse_resume_run (Returned []) resume_text resume_id0 sid st Hsid)
      as [p' E'].
    rewrite Hd in E. cbn [process_output data] in E'.
    do 3 eexists. split; [exact E|]. split; [exact E'|].
    cbn [hr_store hr_sent hr_returned result_payload].
    repeat split; intros; apply collector_ignores_payload.
  - destruct (analyze_jd_run (Raised e) job_id jd_text sid st Hsid) as [p E].
    destruct (analyze_jd_run (Returned []) job_id jd_text sid st Hsid) as [p' E'].
    rewrite Hd in E. cbn [process_output data] in E'.
    do 3 eexists. split; [exact E|]. split; [exact E'|].
    cbn [hr_store hr_sent hr_returned result_payload].
    repeat split; intros; apply collector_ignores_payload.
  - assert (Hiter : forall exec, data (process_output exec) = [] ->
              py_iter (Dict.get_default "missing_skills" (VList [])
                         (data (process_output exec))) = Returned []).
    { intros exec ->. reflexivity. }
    destruct (match_skills_run (Raised e) session_id0 resume_id0 job_id sid [] st
                Hsid (Hiter _ Hd)) as [p E].
    destruct (match_skills_run (Returned []) session_id0 resume_id0 job_id sid [] st
                Hsid (Hiter (Returned []) eq_refl)) as [p' E'].
    rewrite Hd in E. cbn [process_output data] in E'.
    do 3 eexists. split; [exact E|]. split; [exact E'|].
    cbn [hr_store hr_sent hr_returned result_payload].
    repeat split; intros; apply collector_ignores_payload.
  - destruct (generate_recommendations_run (Raised e) session_id0 sid rid skill_gaps
                st Hsid Hrid) as [p E].
    destruct (generate_recommendations_run (Returned []) session_id0 sid rid
                skill_gaps st Hsid Hrid) as [p' E'].
    rewrite Hd in E. cbn [process_output data] in E'.
    do 3 eexists. split; [exact E|]. split; [exact E'|].
    cbn [hr_store hr_sent hr_returned result_payload].
    repeat split; intros; apply collector_ignores_payload.
  - destruct (generate_interview_prep_run (Raised e) session_id0 sid rid skill_gaps
                st Hsid Hrid) as [p E].
    destruct (generate_interview_prep_run (Returned []) session_id0 sid rid
                skill_gaps st Hsid Hrid) as [p' E'].
    rewrite Hd in E. cbn [process_output data] in E'.
    do 3 eexists. split; [exact E|]. split; [exact E'|].
    cbn [hr_store hr_sent hr_returned result_payload].
    repeat split; intros; apply collector_ignores_payload.
  - destruct (generate_market_insights_run (Raised e) session_id0 sid job_title
                st Hsid) as [p E].
    destruct (generate_market_insights_run (Returned []) session_id0 sid job_title
                st Hsid) as [p' E'].
    rewrite Hd in E. cbn [process_output data] in E'.
    do 3 eexists. split; [exact E|]. split; [exact E'|].
    cbn [hr_store hr_sent hr_returned result_payload].
    repeat split; intros; apply collector_ignores_payload.
Qed.

(** ** Barriers fire on the last expected completion *)

Lemma barrier_spec (expected c : list string) :
  barrier expected c = true <-> forall k, In k expected -> In k c.
Proof.
  unfold barrier, py_all. rewrite forallb_forall.
  split; intros H k Hk; apply str_in_In, H, Hk.
Qed.

Lemma forallb_map_eq {A B : Type} (f : B -> bool) (g : A -> B) (l : list A) :
  forallb f (map g l) = forallb (fun x => f (g x)) l.
Proof.
  induction l as [|x l IH]; [reflexivity|]. cbn [map forallb]. rewrite IH. reflexivity.
Qed.

Lemma phase1_test_barrier (needs_resume needs_jd : bool) (jids c : list string) :
  resume_done needs_resume c && jds_done needs_jd jids c
  = barrier (expected_phase1 needs_resume needs_jd jids) c.
Proof.
  unfold resume_done, jds_done, barrier, expected_phase1, py_all.
  rewrite forallb_app.
  destruct needs_resume, needs_jd; cbn [negb orb forallb andb];
    rewrite ?forallb_map_eq, ?andb_true_r; reflexivity.
Qed.

Lemma all_matched_barrier (jids c : list string) :
  all_matched jids c = barrier (expected_phase2 jids) c.
Proof.
  unfold all_matched, barrier, expected_phase2, py_all.
  rewrite forallb_map_eq. reflexivity.
Qed.

Lemma barrier_prefix (expected c0 pre post : list string) (k : string) :
  NoDup (pre ++ k :: post) ->
  (forall x, In x (pre ++ k :: post) <-> In x expected) ->
  (forall x, In x expected -> ~ In x c0) ->
  barrier expected (c0 ++ pre ++ [k]) = match post with [] => true | _ => false end.
Proof.
  intros Hnd Hmem Hdis. destruct post as [|k' post'].
  - apply barrier_spec. intros x Hx. apply Hmem in Hx.
    apply in_or_app. right. exact Hx.
  - destruct (barrier expected (c0 ++ pre ++ [k])) eqn:Hb; [|reflexivity].
    exfalso. rewrite barrier_spec in Hb.
    assert (Hk' : In k' expected).
    { apply Hmem. apply in_or_app. right. right. left. reflexivity. }
    specialize (Hb k' Hk'). apply in_app_or in Hb. destruct Hb as [Hb|Hb].
    + exact (Hdis k' Hk' Hb).
    + replace (pre ++ k :: k' :: post')%list
        with ((pre ++ [k]) ++ k' :: post')%list in Hnd
        by (rewrite <- app_assoc; reflexivity).
      apply NoDup_remove_2 in Hnd. apply Hnd. apply in_or_app. left. exact Hb.
Qed.

Lemma feed_barrier (st0 : Store) (expected : list string) (fire_out : list Event)
    (c0 : list string) (hs : list (M (option Event))) (ks : list string) :
  Forall2 (fun m k =>
             forall c, exists hr,
               run_handler m (set_completed_steps c st0) = Returned hr
               /\ hr_store hr = set_completed_steps (c ++ [k]) st0
               /\ emitted hr = if barrier expected (c ++ [k]) then fire_out else [])
          hs ks ->
  (forall x, In x expected -> ~ In x c0) ->
  forall pre,
    NoDup (pre ++ ks) ->
    (forall x, In x (pre ++ ks) <-> In x expected) ->
    ks <> [] ->
    exists quiet,
      feed hs (set_completed_steps (c0 ++ pre) st0)
      = Returned (set_completed_steps (c0 ++ pre ++ ks) st0, (quiet ++ [fire_out])%list)
      /\ Forall (fun out => out = []) quiet.
Proof.
  intros Hall Hdis.
  induction Hall as [|m k hs ks Hmk Hrest IH]; intros pre Hnd Hmem Hne.
  - destruct (Hne eq_refl).
  - destruct (Hmk (c0 ++ pre)%list) as (hr & E & Hs & Hem).
    cbn [feed]. rewrite E, Hs, Hem.
    replace ((c0 ++ pre) ++ [k])%list with (c0 ++ pre ++ [k])%list
      by (rewrite app_assoc; reflexivity).
    rewrite (barrier_prefix expected c0 pre ks k Hnd Hmem Hdis).
    destruct ks as [|k' ks'].
    + inversion Hrest; subst. cbn [feed]. exists []. split; [reflexivity|constructor].
    + assert (Eq : (pre ++ k :: k' :: ks')%list = ((pre ++ [k]) ++ k' :: ks')%list)
        by (rewrite <- app_assoc; reflexivity).
      rewrite Eq in Hnd.
      assert (Hmem' : forall x, In x ((pre ++ [k]) ++ k' :: ks') <-> In x expected)
        by (intros x; rewrite <- Eq; apply Hmem).
      destruct (IH (pre ++ [k])%list Hnd Hmem') as (quiet & Hfeed & Hq);
        [discriminate|].
      rewrite Hfeed. exists ([] :: quiet).
      split; [|constructor; [reflexivity|exact Hq]].
      rewrite <- (app_assoc pre [k] (k' :: ks')). reflexivity.
Qed.

Lemma set_completed_steps_same (st : Store) (c : list string) :
  completed_steps st = Some c -> set_completed_steps c st = st.
Proof. destruct st. cbn. intros ->. reflexivity. Qed.

Lemma barrier_mono (expected c : list string) (k : string) :
  barrier expected c = true -> barrier expected (c ++ [k]) = true.
Proof.
  rewrite !barrier_spec. intros H x Hx. apply in_or_app. left. apply H, Hx.
Qed.

Lemma nodup_map_matched_key (l : list string) :
  NoDup l -> NoDup (map matched_key l).
Proof.
  induction 1 as [|x l Hx Hl IH]; cbn [map]; constructor; [|exact IH].
  intros Hin. apply in_map_iff in Hin. destruct Hin as [y [E Hy]].
  apply matched_key_inj in E. subst y. exact (Hx Hy).
Qed.

(** C1, as the code has it. For each of the two phase barriers: when the
    collector is fed result events whose completion keys are pairwise
    distinct and are exactly the expected ones, in any order, on a context
    that records none of them yet, every invocation but the last enqueues
    nothing and the last one enqueues the next phase's work events, so
    they are emitted exactly once. The collectors keep no one-shot guard:
    on a context whose barrier test already holds, handling one more result
    event (late or duplicate) enqueues the next phase's work events
    again. *)
Theorem barrier_fires_on_last_completion :
  (forall st sid rid c0 evs keys,
      session_id st = Some sid -> resume_id st = Some rid ->
      completed_steps st = Some c0 ->
      let jids := get_or job_ids [] st in
      let expected := expected_phase1 (get_or needs_resume_parsing false st)
                                      (get_or needs_jd_parsing false st) jids in
      Forall2 (fun ev k => phase1_key ev = Some k) evs keys ->
      NoDup keys -> (forall k, In k keys <-> In k expected) -> keys <> [] ->
      (forall k, In k expected -> ~ In k c0) ->
      exists quiet,
        feed (map collect_phase1 evs) st
        = Returned (set_completed_steps (c0 ++ keys) st,
                    (quiet ++ [skill_match_events sid rid jids])%list)
        /\ Forall (fun out => out = []) quiet)
  /\ (forall st sid c0 order,
         session_id st = Some sid -> completed_steps st = Some c0 ->
         let jids := get_or job_ids [] st in
         NoDup order -> (forall j, In j order <-> In j jids) -> order <> [] ->
         (forall j, In j jids -> ~ In (matched_key j) c0) ->
         exists quiet,
           feed (map collect_phase2 order) st
           = Returned (set_completed_steps (c0 ++ map matched_key order) st,
                       (quiet ++ [phase3_events sid jids st])%list)
           /\ Forall (fun out => out = []) quiet)
  /\ (forall st sid rid ev k,
         session_id st = Some sid -> resume_id st = Some rid ->
         phase1_key ev = Some k ->
         phase1_complete st = true ->
         exists hr,
           run_handler (collect_phase1 ev) st = Returned hr
           /\ emitted hr = skill_match_events sid rid (get_or job_ids [] st))
  /\ (forall st sid j,
         session_id st = Some sid ->
         phase2_complete st = true ->
         exists hr,
           run_handler (collect_phase2 j) st = Returned hr
           /\ emitted hr = phase3_events sid (get_or job_ids [] st) st).
Proof.
  split; [|split; [|split]].
  - intros st sid rid c0 evs keys Hsid Hrid Hc0 jids expected Hkeys Hnd Hmem Hne Hdis.
    assert (Hall : Forall2
              (fun m k =>
                 forall c, exists hr,
                   run_handler m (set_completed_steps c st) = Returned hr
                   /\ hr_store hr = set_completed_steps (c ++ [k]) st
                   /\ emitted hr = if barrier expected (c ++ [k])
                                   then skill_match_events sid rid jids else [])
              (map collect_phase1 evs) keys).
    { clear Hnd Hmem Hne.
      induction Hkeys as [|ev k evs keys Hk Hrest IH]; cbn [map]; [constructor|].
      constructor; [|exact IH].
      intros c.
      destruct (collect_phase1_run ev k sid rid (set_completed_steps c st)
                  Hsid Hrid Hk) as [p E].
      cbv zeta in E. eexists. split; [exact E|]. split; [reflexivity|].
      unfold emitted. cbn [hr_sent hr_returned].
      change (get_or completed_steps [] (set_completed_steps c st)) with c.
      change (get_or needs_resume_parsing false (set_completed_steps c st))
        with (get_or needs_resume_parsing false st).
      change (get_or needs_jd_parsing false (set_completed_steps c st))
        with (get_or needs_jd_parsing false st).
      change (get_or job_ids [] (set_completed_steps c st)) with jids.
      rewrite phase1_test_barrier. fold expected.
      destruct (barrier expected (c ++ [k])); reflexivity. }
    destruct (feed_barrier st expected (skill_match_events sid rid jids) c0
                (map collect_phase1 evs) keys Hall Hdis [] Hnd Hmem Hne)
      as (quiet & Hfeed & Hq).
    rewrite app_nil_r in Hfeed. rewrite (set_completed_steps_same st c0 Hc0) in Hfeed.
    exists quiet. split; [exact Hfeed | exact Hq].
  - intros st sid c0 order Hsid Hc0 jids Hnd Hmem Hne Hdis.
    set (fire := phase3_events sid jids st).
    assert (Hall : Forall2
              (fun m k =>
                 forall c, exists hr,
                   run_handler m (set_completed_steps c st) = Returned hr
                   /\ hr_store hr = set_completed_steps (c ++ [k]) st
                   /\ emitted hr = if barrier (expected_phase2 jids) (c ++ [k])
                                   then fire else [])
              (map collect_phase2 order) (map matched_key order)).
    { clear Hnd Hmem Hne. induction order as [|j order IH]; cbn [map]; [constructor|].
      constructor; [|exact IH].
      intros c.
      destruct (collect_phase2_run (set_completed_steps c st) j sid Hsid) as [p E].
      cbv zeta in E. eexists. split; [exact E|]. split; [reflexivity|].
      unfold emitted. cbn [hr_sent hr_returned].
      change (get_or completed_steps [] (set_completed_steps c st)) with c.
      change (get_or job_ids [] (set_completed_steps c st)) with jids.
      rewrite all_matched_barrier.
      destruct (barrier (expected_phase2 jids) (c ++ [matched_key j])); reflexivity. }
    assert (Hmem' : forall x, In x ([] ++ map matched_key order)
                              <-> In x (expected_phase2 jids)).
    { intros x. cbn [app]. unfold expected_phase2. rewrite !in_map_iff.
      split; intros [j [E Hj]]; exists j; (split; [exact E|]); apply Hmem; exact Hj. }
    assert (Hdis' : forall x, In x (expected_phase2 jids) -> ~ In x c0).
    { intros x Hx. unfold expected_phase2 in Hx. apply in_map_iff in Hx.
      destruct Hx as [j [<- Hj]]. apply Hdis. exact Hj. }
    assert (Hne' : map matched_key order <> [])
      by (destruct order; [destruct (Hne eq_refl) | discriminate]).
    destruct (feed_barrier st (expected_phase2 jids) fire c0
                (map collect_phase2 order) (map matched_key order) Hall Hdis' []
                (nodup_map_matched_key order Hnd) Hmem' Hne')
      as (quiet & Hfeed & Hq).
    rewrite app_nil_r in Hfeed. rewrite (set_completed_steps_same st c0 Hc0) in Hfeed.
    exists quiet. split; [exact Hfeed | exact Hq].
  - intros st sid rid ev k Hsid Hrid Hk Hdone.
    destruct (collect_phase1_run ev k sid rid st Hsid Hrid Hk) as [p E].
    cbv zeta in E. eexists. split; [exact E|].
    unfold phase1_complete in Hdone. rewrite phase1_test_barrier in Hdone.
    apply (barrier_mono _ _ k) in Hdone. rewrite <- phase1_test_barrier in Hdone.
    unfold emitted. cbn [hr_sent hr_returned]. rewrite Hdone. reflexivity.
  - intros st sid j Hsid Hdone.
    destruct (collect_phase2_run st j sid Hsid) as [p E].
    cbv zeta in E. eexists. split; [exact E|].
    unfold phase2_complete in Hdone. rewrite all_matched_barrier in Hdone.
    apply (barrier_mono _ _ (matched_key j)) in Hdone.
    rewrite <- all_matched_barrier in Hdone.
    unfold emitted. cbn [hr_sent hr_returned]. rewrite Hdone. reflexivity.
Qed.

(** ** Scripted runs are runs *)

Lemma run_steps_reachable (start_event : Event) (script : list (nat * outcome pydict))
    (r r' : Run) :
  reachable start_event r -> run_steps r script = Some r' ->
  reachable start_event r'.
Proof.
  revert r. induction script as [|[i exec] script IH]; intros r Hr Hs.
  - injection Hs as <-. exact Hr.
  - cbn [run_steps] in Hs. destruct (dispatch r i exec) as [r1|] eqn:Hd;
      [|discriminate].
    apply (IH r1); [|exact Hs].
    apply (reach_step start_event r r1 Hr). left. exists i, exec. exact Hd.
Qed.

(** ** What phase 1 waits for and what [start] dispatched *)

Lemma dispatched_key_recorded (exec : outcome pydict) (ev : Event) (k : string)
    (m : M (option Event)) (st : Store) (hr : HandlerResult) :
  dispatched_key ev = Some k ->
  handle exec ev = Some m ->
  run_handler m st = Returned hr ->
  exists result_ev, hr_returned hr = Some result_ev /\ phase1_key result_ev = Some k.
Proof.
  intros Hk Hh Hrun.
  destruct ev; try discriminate Hk; cbn [handle] in Hh; injection Hh as <-;
    cbn [dispatched_key] in Hk; injection Hk as <-.
  - apply parse_resume_returned in Hrun. destruct Hrun as (_ & _ & Hr).
    eexists. split; [exact Hr | reflexivity].
  - apply analyze_jd_returned in Hrun. destruct Hrun as (_ & _ & Hr).
    eexists. split; [exact Hr | reflexivity].
Qed.

(** When the keys of [job_texts] are the job ids, in their order, the
    completions phase 1 waits for are those of the events [start]
    dispatched. *)
Lemma expected_is_dispatched_when_keys_agree (sid rid : string) (jids : list string)
    (text : option string) (texts : option (dict string)) :
  skips_parsing text texts = false ->
  (forall ts, texts = Some ts -> ts <> [] -> Dict.keys ts = jids) ->
  let st := start_store sid rid jids text texts empty_store in
  map dispatched_key (start_events sid rid jids text texts)
  = map Some (expected_phase1 (get_or needs_resume_parsing false st)
                              (get_or needs_jd_parsing false st)
                              (get_or job_ids [] st)).
Proof.
  intros Hskip Hkeys. cbv zeta. unfold start_events. rewrite Hskip.
  unfold parse_events, expected_phase1, start_store, get_or. store_simpl.
  rewrite !map_app. f_equal.
  - destruct text; reflexivity.
  - destruct texts as [ts|]; [|reflexivity].
    destruct ts as [|kv ts]; [reflexivity|].
    cbn [length Nat.ltb Nat.leb].
    rewrite <- (Hkeys (kv :: ts) eq_refl) by discriminate.
    unfold Dict.keys. rewrite !map_map. reflexivity.
Qed.

(** ** Runs on parsed inputs never stall *)

Lemma first_stop_none_iff (evs : list Event) :
  first_stop evs = None <-> forall res, ~ In (StopEvent res) evs.
Proof.
  split; [|apply first_stop_none].
  induction evs as [|ev evs IH]; intros H res; [intros []|].
  intros [Heq|Hin].
  - subst ev. discriminate H.
  - destruct ev; cbn [first_stop] in H; try exact (IH H res Hin). discriminate H.
Qed.

Lemma remove_nth_incl {A : Type} (l : list A) (i : nat) (x : A) :
  In x (firstn i l ++ skipn (S i) l) -> In x l.
Proof.
  intros H. apply in_app_or in H as [H|H].
  - rewrite <- (firstn_skipn i l). apply in_or_app. now left.
  - rewrite <- (firstn_skipn (S i) l). apply in_or_app. now right.
Qed.

Lemma nth_error_remove {A : Type} (l : list A) (i : nat) (x y : A) :
  nth_error l i = Some x -> In y l ->
  y = x \/ In y (firstn i l ++ skipn (S i) l).
Proof.
  revert i. induction l as [|a l IH]; intros i Hnth Hin; [destruct Hin|].
  destruct i as [|i]; cbn [nth_error firstn skipn app] in *.
  - injection Hnth as ->. destruct Hin as [->|Hin]; [now left|now right].
  - destruct Hin as [->|Hin]; [right; now left|].
    destruct (IH i Hnth Hin) as [->|H]; [now left|right; now right].
Qed.

Lemma existsb_remove (f : Event -> bool) (l : list Event) (i : nat) (ev : Event) :
  nth_error l i = Some ev -> existsb f l = true ->
  f ev = true \/ existsb f (firstn i l ++ skipn (S i) l) = true.
Proof.
  intros Hnth H. apply existsb_exists in H as [y [Hin Hy]].
  destruct (nth_error_remove l i ev y Hnth Hin) as [->|Hin'].
  - now left.
  - right. apply existsb_exists. now exists y.
Qed.

Lemma forallb_agree {A : Type} (f g : A -> bool) (l : list A) :
  (forall x, In x l -> f x = g x) -> forallb f l = forallb g l.
Proof.
  induction l as [|x l IH]; intros H; cbn [forallb]; [reflexivity|].
  rewrite (H x (or_introl eq_refl)), IH; [reflexivity|].
  intros y Hy. apply H. now right.
Qed.

Lemma all_matched_record_step (jids c : list string) (ev : Event) :
  all_matched jids (c ++ [phase3_key ev]) = all_matched jids c.
Proof.
  unfold all_matched, py_all. apply forallb_agree. intros j _.
  rewrite str_in_app. unfold str_in at 2. cbn [existsb].
  destruct (String.eqb_spec (matched_key j) (phase3_key ev)) as [E|_].
  - symmetry in E. destruct (matched_key_not_phase3 j ev E).
  - now rewrite !orb_false_r.
Qed.

Lemma phase3_done_record_match (c : list string) (j : string) :
  phase3_done (c ++ [matched_key j]) = phase3_done c.
Proof.
  unfold phase3_done, py_all. apply forallb_agree. intros k Hk.
  rewrite str_in_app. unfold str_in at 2. cbn [existsb].
  destruct (String.eqb_spec k (matched_key j)) as [E|_].
  - exfalso. unfold matched_key in E.
    destruct Hk as [<-|[<-|[<-|[]]]]; cbn in E; discriminate E.
  - now rewrite !orb_false_r.
Qed.

Lemma leads_to_step_key (k : string) (ev : Event) :
  is_phase3_result ev = true -> leads_to_step k ev = true -> k = phase3_key ev.
Proof.
  destruct ev; try discriminate; cbn [leads_to_step phase3_key];
    intros _ H; now apply String.eqb_eq in H.
Qed.

(** A work event replaced by its result event: the same completions are
    led to. *)
Lemma awaited_replace (jids c : list string) (pending : list Event) (i : nat)
    (ev ev' : Event) :
  nth_error pending i = Some ev ->
  (forall j, leads_to_match j ev = true -> leads_to_match j ev' = true) ->
  (forall k, leads_to_step k ev = true -> leads_to_step k ev' = true) ->
  awaited jids c pending ->
  awaited jids c ((firstn i pending ++ skipn (S i) pending) ++ [ev']).
Proof.
  intros Hnth Hm Hs (Hj & Hk & Hd).
  assert (Hmove : forall f, (f ev = true -> f ev' = true) ->
            existsb f pending = true ->
            existsb f ((firstn i pending ++ skipn (S i) pending) ++ [ev']) = true).
  { intros f Hf H. rewrite existsb_app. cbn [existsb].
    destruct (existsb_remove f pending i ev Hnth H) as [H1|H1].
    - rewrite (Hf H1). now rewrite orb_true_r.
    - now rewrite H1. }
  split; [|split; [|exact Hd]].
  - intros j Hin. destruct (Hj j Hin) as [H|H]; [now left|right].
    now apply Hmove; [apply Hm|].
  - intros Hall Hne k Hin. destruct (Hk Hall Hne k Hin) as [H|H]; [now left|right].
    now apply Hmove; [apply Hs|].
Qed.

(** A match result collected. *)
Lemma awaited_collect (sid : string) (jids c : list string) (st : Store)
    (pending : list Event) (i : nat) (j : string) (d : pydict) :
  nth_error pending i = Some (SkillMatchResultEvent j d) ->
  awaited jids c pending ->
  let c' := (c ++ [matched_key j])%list in
  awaited jids c'
    ((firstn i pending ++ skipn (S i) pending)
     ++ (if all_matched jids c' then phase3_sent sid jids st else [])
     ++ (if all_matched jids c' then [phase3_returned sid st] else [])).
Proof.
  intros Hnth (Hj & Hk & Hd) c'. split; [|split].
  - intros j0 Hin. destruct (Hj j0 Hin) as [H|H].
    + left. apply in_or_app. now left.
    + destruct (existsb_remove _ pending i _ Hnth H) as [H1|H1].
      * cbn [leads_to_match] in H1. apply String.eqb_eq in H1. subst j0.
        left. apply in_or_app. right. now left.
      * right. rewrite existsb_app, H1. reflexivity.
  - intros Hall _ k Hin. right. rewrite Hall.
    rewrite !existsb_app. unfold phase3_sent, phase3_returned.
    cbn [existsb leads_to_step].
    destruct Hin as [<-|[<-|[<-|[]]]]; cbn; now rewrite ?orb_true_r.
  - subst c'. rewrite phase3_done_record_match. exact Hd.
Qed.

(** A phase-3 result recorded without completing the run. *)
Lemma awaited_record (jids c : list string) (pending : list Event) (i : nat)
    (ev : Event) :
  nth_error pending i = Some ev -> is_phase3_result ev = true ->
  awaited jids c pending ->
  phase3_done (c ++ [phase3_key ev]) = false ->
  awaited jids (c ++ [phase3_key ev]) (firstn i pending ++ skipn (S i) pending).
Proof.
  intros Hnth Hres (Hj & Hk & _) Hd. split; [|split; [|exact Hd]].
  - intros j Hin. destruct (Hj j Hin) as [H|H].
    + left. apply in_or_app. now left.
    + destruct (existsb_remove _ pending i _ Hnth H) as [H1|H1]; [|now right].
      destruct ev; discriminate.
  - rewrite all_matched_record_step. intros Hall Hne k Hin.
    destruct (Hk Hall Hne k Hin) as [H|H].
    + left. apply in_or_app. now left.
    + destruct (existsb_remove _ pending i _ Hnth H) as [H1|H1]; [|now right].
      left. apply in_or_app. right. left. symmetry.
      now apply leads_to_step_key.
Qed.

Lemma skip_inv_failed (jids : list string) (st : Store) (pending handled : list Event)
    (e : string) :
  Forall (fun ev => is_parse ev = false) handled ->
  Forall (fun ev => is_parse ev = false /\ is_start ev = false) pending ->
  skip_inv jids {| run_store := st; run_pending := pending;
                   run_handled := handled; run_status := Failed e |}.
Proof.
  intros Hh Hp. unfold skip_inv. cbn [run_store run_pending run_handled run_status].
  split; [exact Hh|]. split; [exact Hp|]. discriminate.
Qed.

Lemma skip_inv_after (jids : list string) (st' : Store) (rest out handled : list Event) :
  Forall (fun ev => is_parse ev = false) handled ->
  Forall (fun ev => is_parse ev = false /\ is_start ev = false) rest ->
  Forall (fun ev => is_parse ev = false /\ is_start ev = false) out ->
  first_stop rest = None ->
  (first_stop out = None ->
   awaited jids (get_or completed_steps [] st') (rest ++ out)) ->
  skip_inv jids {| run_store := st'; run_pending := rest ++ out;
                   run_handled := handled;
                   run_status := match first_stop out with
                                 | Some res => Completed res
                                 | None => Running
                                 end |}.
Proof.
  intros Hh Hr Ho Hns Haw. unfold skip_inv.
  cbn [run_store run_pending run_handled run_status].
  split; [exact Hh|]. split; [apply Forall_app; now split|].
  destruct (first_stop out) as [res|] eqn:Hout; [discriminate|].
  intros _. split; [|now apply Haw].
  apply first_stop_none_iff. intros res Hin. apply in_app_or in Hin as [Hin|Hin].
  - exact (proj1 (first_stop_none_iff rest) Hns res Hin).
  - exact (proj1 (first_stop_none_iff out) Hout res Hin).
Qed.

Lemma finalize_keeps_skip_inv (sid rid : string) (jids : list string) (st : Store)
    (pending handled : list Event) (i : nat) (ev : Event) (r' : Run) :
  session_id st = Some sid -> resume_id st = Some rid ->
  Forall (completed_ok jids st) (get_or completed_steps [] st) ->
  is_phase3_result ev = true -> pending_ok jids st ev ->
  nth_error pending i = Some ev ->
  Forall (fun ev => is_parse ev = false) handled ->
  Forall (fun ev => is_parse ev = false /\ is_start ev = false)
         (firstn i pending ++ skipn (S i) pending) ->
  first_stop (firstn i pending ++ skipn (S i) pending) = None ->
  awaited jids (get_or completed_steps [] st) pending ->
  match run_handler (finalize ev) st with
  | Returned hr =>
      Some {| run_store := hr_store hr;
              run_pending := (firstn i pending ++ skipn (S i) pending) ++ emitted hr;
              run_handled := handled;
              run_status := match first_stop (emitted hr) with
                            | Some res => Completed res
                            | None => Running
                            end |}
  | Raised e =>
      Some {| run_store := st;
              run_pending := firstn i pending ++ skipn (S i) pending;
              run_handled := handled;
              run_status := Failed (exn_str e) |}
  end = Some r' ->
  skip_inv jids r'.
Proof.
  intros Hsid Hrid Hcomp Hres Hev Hnth Hh Hrest Hns Haw Hd.
  destruct (phase3_done (get_or completed_steps [] st ++ [phase3_key ev])) eqn:Hdone.
  - destruct (phase3_values_present jids st ev Hcomp Hres Hev Hdone)
      as [(HR & HP & HI) Hall].
    destruct (recommendations st) as [recs|] eqn:ER; [|congruence].
    destruct (interview_prep st) as [prep|] eqn:EP; [|congruence].
    destruct (market_insights st) as [insights|] eqn:EI; [|congruence].
    destruct (finalize_fires ev sid rid recs prep insights st Hsid Hrid ER EP EI Hdone)
      as [p E].
    rewrite E in Hd. clear E. injection Hd as <-.
    cbn [hr_store emitted hr_sent hr_returned app].
    apply (skip_inv_after jids _ (firstn i pending ++ skipn (S i) pending));
      try assumption.
    + repeat constructor.
    + discriminate.
  - rewrite (finalize_quiet ev sid st Hsid Hdone) in Hd. injection Hd as <-.
    cbn [hr_store emitted hr_sent hr_returned app].
    apply (skip_inv_after jids _ (firstn i pending ++ skipn (S i) pending) []);
      try assumption.
    + constructor.
    + intros _. rewrite app_nil_r. unfold get_or at 1. store_simpl.
      now apply awaited_record.
Qed.

Lemma dispatch_skip_inv (sid rid : string) (jids : list string) (r r' : Run)
    (i : nat) (exec : outcome pydict) :
  running_inv sid rid jids r -> skip_inv jids r ->
  dispatch r i exec = Some r' -> skip_inv jids r'.
Proof.
  intros Hinv Hskip Hd. unfold dispatch in Hd.
  destruct (run_status r) eqn:Hst; try discriminate.
  destruct (nth_error (run_pending r) i) as [ev|] eqn:Hnth; try discriminate.
  destruct Hinv as (Hsid & Hrid & Hjids & Hnd & Hsub & Hgaps & Hpend & Hcomp & Hfin).
  destruct Hskip as (Hh & Hp & Hrun). destruct (Hrun Hst) as (Hns & Haw).
  assert (Hevp : pending_ok jids (run_store r) ev).
  { rewrite Forall_forall in Hpend. apply Hpend. eapply nth_error_In; eauto. }
  assert (Hev : is_parse ev = false /\ is_start ev = false).
  { rewrite Forall_forall in Hp. apply Hp. eapply nth_error_In; eauto. }
  assert (Hrest := Forall_remove_nth _ _ i Hp).
  assert (Hh' : Forall (fun ev => is_parse ev = false) (run_handled r ++ [ev])).
  { apply Forall_app. split; [exact Hh|]. constructor; [apply Hev|constructor]. }
  assert (Hns' : first_stop (firstn i (run_pending r) ++ skipn (S i) (run_pending r))
                 = None).
  { apply first_stop_none_iff. intros res Hin. apply remove_nth_incl in Hin.
    exact (proj1 (first_stop_none_iff _) Hns res Hin). }
  set (st := run_store r) in *.
  set (rest := (firstn i (run_pending r) ++ skipn (S i) (run_pending r))%list) in *.
  destruct ev; cbn [handle] in Hd; try (destruct Hev as [Hev1 Hev2]; discriminate).
  - (* match_skills *)
    destruct (py_iter (Dict.get_default "missing_skills" (VList [])
                         (data (process_output exec)))) as [missing|e] eqn:Hiter.
    + destruct (match_skills_run exec session_id0 resume_id0 job_id sid missing st
                  Hsid Hiter) as [p E].
      rewrite E in Hd. injection Hd as <-.
      cbn [hr_store emitted hr_sent hr_returned app].
      apply (skip_inv_after jids _ rest
               [SkillMatchResultEvent job_id (data (process_output exec))]);
        try assumption.
      * repeat constructor.
      * intros _. unfold get_or at 1. store_simpl.
        apply (awaited_replace jids _ (run_pending r) i _ _ Hnth); [auto|auto|].
        exact Haw.
    + rewrite (match_skills_raises exec session_id0 resume_id0 job_id sid e st
                 Hsid Hiter) in Hd.
      injection Hd as <-. now apply skip_inv_failed.
  - (* collect_phase2 *)
    destruct (collect_phase2_run st job_id sid Hsid) as [p E].
    cbv zeta in E. rewrite E in Hd. clear E. injection Hd as <-.
    cbn [hr_store].
    assert (Hjids' : get_or job_ids [] st = jids)
      by (unfold get_or; rewrite Hjids; reflexivity).
    rewrite Hjids'.
    set (c := (get_or completed_steps [] st ++ [matched_key job_id])%list) in *.
    unfold emitted. cbn [hr_sent hr_returned].
    replace (match (if all_matched jids c then Some (phase3_returned sid st) else None)
             with Some ev => [ev] | None => [] end)
      with (if all_matched jids c then [phase3_returned sid st] else [])
      by (destruct (all_matched jids c); reflexivity).
    apply (skip_inv_after jids _ rest); try assumption.
    * destruct (all_matched jids c); repeat constructor.
    * intros _. unfold get_or at 1. store_simpl.
      exact (awaited_collect sid jids _ st (run_pending r) i job_id match_result
               Hnth Haw).
  - (* generate_recommendations *)
    destruct (generate_recommendations_run exec session_id0 sid rid skill_gaps st
                Hsid Hrid) as [p E].
    rewrite E in Hd. injection Hd as <-.
    cbn [hr_store emitted hr_sent hr_returned app].
    apply (skip_inv_after jids _ rest
             [RecommendationResultEvent (data (process_output exec))]);
      try assumption.
    + repeat constructor.
    + intros _. unfold get_or at 1. store_simpl.
      apply (awaited_replace jids _ (run_pending r) i _ _ Hnth); [auto|auto|].
      exact Haw.
  - (* generate_interview_prep *)
    destruct (generate_interview_prep_run exec session_id0 sid rid skill_gaps st
                Hsid Hrid) as [p E].
    rewrite E in Hd. injection Hd as <-.
    cbn [hr_store emitted hr_sent hr_returned app].
    apply (skip_inv_after jids _ rest
             [InterviewPrepResultEvent (data (process_output exec))]);
      try assumption.
    + repeat constructor.
    + intros _. unfold get_or at 1. store_simpl.
      apply (awaited_replace jids _ (run_pending r) i _ _ Hnth); [auto|auto|].
      exact Haw.
  - (* generate_market_insights *)
    destruct (generate_market_insights_run exec session_id0 sid job_title st Hsid)
      as [p E].
    rewrite E in Hd. injection Hd as <-.
    cbn [hr_store emitted hr_sent hr_returned app].
    apply (skip_inv_after jids _ rest
             [MarketInsightsResultEvent (data (process_output exec))]);
      try assumption.
    + repeat constructor.
    + intros _. unfold get_or at 1. store_simpl.
      apply (awaited_replace jids _ (run_pending r) i _ _ Hnth); [auto|auto|].
      exact Haw.
  - eapply (finalize_keeps_skip_inv sid rid jids st (run_pending r));
      try eassumption; reflexivity.
  - eapply (finalize_keeps_skip_inv sid rid jids st (run_pending r));
      try eassumption; reflexivity.
  - eapply (finalize_keeps_skip_inv sid rid jids st (run_pending r));
      try eassumption; reflexivity.
Qed.

Lemma reachable_skip_inv (sid rid : string) (jids : list string)
    (text : option string) (texts : option (dict string)) (r : Run) :
  skips_parsing text texts = true ->
  reachable (StartAnalysisEvent sid rid jids text texts) r ->
  (run_pending r = [StartAnalysisEvent sid rid jids text texts]
   /\ run_handled r = [])
  \/ skip_inv jids r.
Proof.
  intros Hskip Hreach. induction Hreach as [|r r' Hreach IH Hstep].
  - left. split; reflexivity.
  - pose proof (reachable_run_inv sid rid jids text texts r Hreach) as Hinv.
    destruct Hstep as [[i [exec Hd]]|Ht].
    + destruct IH as [[Hpend Hhandled]|Hs].
      * right. unfold dispatch in Hd. rewrite Hpend, Hhandled in Hd.
        destruct (run_status r) eqn:Hstatus; try discriminate.
        destruct i as [|i]; cbn [nth_error] in Hd; [|destruct i; discriminate].
        cbn [handle] in Hd.
        destruct (start_run sid rid jids text texts (run_store r)) as [p E].
        rewrite E in Hd. clear E. injection Hd as <-.
        cbn [hr_store firstn skipn app].
        unfold start_events. rewrite Hskip.
        set (evs := map (SkillMatchEvent sid rid) jids).
        unfold emitted. cbn [hr_sent hr_returned].
        assert (Hin : forall ev,
                  In ev (tl evs ++ match hd_error evs with
                                   | Some e => [e] | None => [] end)
                  <-> exists j, In j jids /\ ev = SkillMatchEvent sid rid j).
        { intros ev. rewrite in_tl_hd. subst evs. rewrite in_map_iff.
          split; intros [j [H1 H2]]; exists j; auto. }
        apply (skip_inv_after jids _ []).
        -- repeat constructor.
        -- constructor.
        -- apply Forall_forall. intros ev Hev. apply Hin in Hev as [j [_ ->]].
           split; reflexivity.
        -- reflexivity.
        -- intros _. cbn [app]. unfold get_or, start_store. cbn [completed_steps].
           split; [|split].
           ++ intros j Hj. right. apply existsb_exists.
              exists (SkillMatchEvent sid rid j). split; [apply Hin; eauto|].
              cbn [leads_to_match]. apply String.eqb_refl.
           ++ intros Hall Hne. exfalso. destruct jids as [|j jids']; [congruence|].
              discriminate Hall.
           ++ reflexivity.
      * right. destruct Hinv as [(_ & Hpend & _)|Hinv].
        -- exfalso. destruct Hs as (_ & Hp & _). rewrite Hpend in Hp.
           inversion Hp as [|? ? [_ Hstart] _]. discriminate Hstart.
        -- exact (dispatch_skip_inv sid rid jids r r' i exec Hinv Hs Hd).
    + unfold timeout in Ht. destruct (run_status r); try discriminate.
      injection Ht as <-. cbn [run_pending run_handled].
      destruct IH as [IH|(Hh & Hp & _)]; [now left|right].
      now apply skip_inv_failed.
Qed.

Lemma forallb_exists_false {A : Type} (f : A -> bool) (l : list A) :
  forallb f l = false -> exists x, In x l /\ f x = false.
Proof.
  induction l as [|x l IH]; cbn [forallb]; [discriminate|].
  destruct (f x) eqn:Hx; cbn [andb].
  - intros H. destruct (IH H) as [y [Hin Hy]]. exists y. split; [now right|exact Hy].
  - intros _. exists x. split; [now left|exact Hx].
Qed.

Lemma dispatch_defined (r : Run) (i : nat) (ev : Event) (exec : outcome pydict) :
  run_status r = Running -> nth_error (run_pending r) i = Some ev ->
  (forall res, ev <> StopEvent res) ->
  exists r', dispatch r i exec = Some r'.
Proof.
  intros Hst Hnth Hns. unfold dispatch. rewrite Hst, Hnth.
  destruct (handle exec ev) as [m|] eqn:Hh.
  - destruct (run_handler m (run_store r)); eauto.
  - destruct ev; try discriminate Hh. destruct (Hns result eq_refl).
Qed.

(** X1. A run on inputs that are already parsed, as [run_analysis]
    starts it, never stalls. As long as the run is neither completed nor
    failed and there is at least one job id, an event is pending, and
    whichever pending event the dispatcher takes, its handler is found
    and the step is made, whatever the agent call does. *)
Theorem run_on_parsed_inputs_never_stalls (sid rid : string) (jids : list string)
    (text : option string) (texts : option (dict string)) (r : Run) :
  skips_parsing text texts = true ->
  jids <> [] ->
  reachable (StartAnalysisEvent sid rid jids text texts) r ->
  run_status r = Running ->
  run_pending r <> []
  /\ forall i ev exec,
       nth_error (run_pending r) i = Some ev ->
       exists r', dispatch r i exec = Some r'.
Proof.
  intros Hskip Hne Hreach Hst.
  destruct (reachable_skip_inv sid rid jids text texts r Hskip Hreach)
    as [[Hpend _]|(_ & _ & Hrun)].
  - split; [rewrite Hpend; discriminate|].
    intros i ev exec Hnth. apply (dispatch_defined r i ev exec Hst Hnth).
    rewrite Hpend in Hnth. destruct i as [|[|i]]; cbn in Hnth; try discriminate.
    injection Hnth as <-. discriminate.
  - destruct (Hrun Hst) as (Hns & Hj & Hk & Hd). split.
    + set (c := get_or completed_steps [] (run_store r)) in *.
      assert (Hex : exists f, existsb f (run_pending r) = true).
      { destruct (all_matched jids c) eqn:Hall.
        - assert (Hsome : exists k, In k phase3_steps /\ ~ In k c).
          { unfold phase3_done, py_all in Hd.
            destruct (forallb_exists_false _ _ Hd) as [k [Hin Hk']].
            exists k. split; [exact Hin|]. intros Hc.
            apply str_in_In in Hc. congruence. }
          destruct Hsome as [k [Hin Hnot]].
          destruct (Hk eq_refl Hne k Hin) as [H|H]; [contradiction|eauto].
        - unfold all_matched, py_all in Hall.
          destruct (forallb_exists_false _ _ Hall) as [j [Hin Hj']].
          destruct (Hj j Hin) as [H|H]; [|eauto].
          apply str_in_In in H. congruence. }
      destruct Hex as [f Hf]. intros Hnil. rewrite Hnil in Hf. discriminate Hf.
    + intros i ev exec Hnth. apply (dispatch_defined r i ev exec Hst Hnth).
      intros res ->. apply nth_error_In in Hnth.
      exact (proj1 (first_stop_none_iff _) Hns res Hnth).
Qed.

(** X2. In a run on inputs that are already parsed, phase 1 is never
    entered: no parse event and no parse result is ever pending or
    handled, so neither the resume parser nor the job description analyser
    is called and [collect_phase1] never runs. *)
Theorem run_on_parsed_inputs_skips_phase1 (sid rid : string) (jids : list string)
    (text : option string) (texts : option (dict string)) (r : Run) :
  skips_parsing text texts = true ->
  reachable (StartAnalysisEvent sid rid jids text texts) r ->
  forall ev, In ev (run_handled r ++ run_pending r) -> is_parse ev = false.
Proof.
  intros Hskip Hreach.
  destruct (reachable_skip_inv sid rid jids text texts r Hskip Hreach)
    as [[Hpend Hhandled]|(Hh & Hp & _)].
  - rewrite Hpend, Hhandled. intros ev [<-|[]]. reflexivity.
  - rewrite Forall_forall in Hh, Hp.
    intros ev Hin. apply in_app_or in Hin as [Hin|Hin];
      [now apply Hh|now apply Hp].
Qed.

(** ** Runs on parsed inputs are bounded *)

Lemma nth_error_middle {A : Type} (l : list A) (i : nat) (x : A) :
  nth_error l i = Some x -> l = (firstn i l ++ x :: skipn (S i) l)%list.
Proof.
  revert i. induction l as [|a l IH]; intros i H; [destruct i; discriminate|].
  destruct i as [|i]; cbn [nth_error firstn skipn app] in *.
  - now injection H as ->.
  - f_equal. now apply IH.
Qed.

Lemma pending_weight_app (l l' : list Event) :
  pending_weight (l ++ l') = pending_weight l + pending_weight l'.
Proof. unfold pending_weight. now rewrite map_app, list_sum_app. Qed.

Lemma pending_weight_remove (l : list Event) (i : nat) (ev : Event) :
  nth_error l i = Some ev ->
  pending_weight l = weight ev + pending_weight (firstn i l ++ skipn (S i) l).
Proof.
  intros H. unfold pending_weight. rewrite (nth_error_middle l i ev H) at 1.
  rewrite !map_app, !list_sum_app. cbn [map].
  change (list_sum (weight ev :: map weight (skipn (S i) l)))
    with (weight ev + list_sum (map weight (skipn (S i) l))).
  lia.
Qed.

Lemma match_jobs_app (l l' : list Event) :
  match_jobs (l ++ l') = (match_jobs l ++ match_jobs l')%list.
Proof. unfold match_jobs. apply flat_map_app. Qed.

Lemma match_jobs_remove (l : list Event) (i : nat) (ev : Event) :
  nth_error l i = Some ev ->
  Permutation (match_jobs l)
              (match_job ev ++ match_jobs (firstn i l ++ skipn (S i) l)).
Proof.
  intros H. rewrite (nth_error_middle l i ev H) at 1.
  rewrite !match_jobs_app. unfold match_jobs at 2. cbn [flat_map].
  fold (match_jobs (skipn (S i) l)).
  rewrite app_assoc.
  rewrite (Permutation_app_comm (match_jobs (firstn i l)) (match_job ev)).
  now rewrite <- app_assoc.
Qed.

Lemma all_matched_mono (jids c : list string) (k : string) :
  all_matched jids c = true -> all_matched jids (c ++ [k]) = true.
Proof.
  rewrite !all_matched_spec. intros H j Hj. apply in_or_app. left. now apply H.
Qed.

Lemma bound_inv_failed (jids : list string) (r : Run) (i : nat) (ev : Event)
    (e : string) :
  bound_inv jids r -> nth_error (run_pending r) i = Some ev -> 1 <= weight ev ->
  bound_inv jids {| run_store := run_store r;
                    run_pending := firstn i (run_pending r)
                                   ++ skipn (S i) (run_pending r);
                    run_handled := run_handled r ++ [ev];
                    run_status := Failed e |}.
Proof.
  intros (Hnd & Hjobs & Hle) Hnth Hw. unfold bound_inv.
  cbn [run_store run_pending run_handled].
  pose proof (match_jobs_remove _ _ _ Hnth) as Hperm.
  split; [|split].
  - apply (Permutation_NoDup Hperm) in Hnd. now apply NoDup_app_remove_l in Hnd.
  - intros j Hj. apply Hjobs. apply (Permutation_in _ (Permutation_sym Hperm)).
    apply in_or_app. now right.
  - rewrite (pending_weight_remove _ _ _ Hnth) in Hle.
    rewrite length_app. cbn [length]. lia.
Qed.

Lemma NoDup_app_disjoint {A : Type} (l l' : list A) (a : A) :
  NoDup (l ++ l') -> In a l -> ~ In a l'.
Proof.
  induction l as [|x l IH]; cbn [app In]; intros Hnd Hin; [destruct Hin|].
  inversion Hnd as [|? ? Hx Hnd']; subst. destruct Hin as [->|Hin].
  - intros Ha. apply Hx. apply in_or_app. now right.
  - now apply IH.
Qed.

Lemma bound_inv_after (jids : list string) (r : Run) (i : nat) (ev : Event)
    (st' : Store) (out : list Event) (status' : RunStatus) :
  bound_inv jids r -> nth_error (run_pending r) i = Some ev ->
  let c := get_or completed_steps [] (run_store r) in
  let c' := get_or completed_steps [] st' in
  let rest := (firstn i (run_pending r) ++ skipn (S i) (run_pending r))%list in
  (forall j, In j (match_jobs out) -> In j (match_job ev)) ->
  NoDup (match_jobs out) ->
  (forall j, In j (match_jobs (rest ++ out)) ->
             ~ In (matched_key j) c -> ~ In (matched_key j) c') ->
  pending_weight out + barrier_debt jids c' + 1 <= weight ev + barrier_debt jids c ->
  bound_inv jids {| run_store := st'; run_pending := rest ++ out;
                    run_handled := run_handled r ++ [ev];
                    run_status := status' |}.
Proof.
  intros (Hnd & Hjobs & Hle) Hnth c c' rest Hout Hndout Hnot Hw.
  unfold bound_inv. cbn [run_store run_pending run_handled].
  pose proof (match_jobs_remove _ _ _ Hnth) as Hperm. fold rest in Hperm.
  apply (Permutation_NoDup Hperm) in Hnd.
  assert (Hin : forall j, In j (match_jobs (rest ++ out)) ->
                          In j (match_jobs (run_pending r))).
  { intros j Hj. rewrite match_jobs_app in Hj.
    apply (Permutation_in _ (Permutation_sym Hperm)).
    apply in_app_or in Hj as [Hj|Hj]; apply in_or_app; [now right|left; auto]. }
  split; [|split].
  - rewrite match_jobs_app. apply NoDup_app_remove_l in Hnd as Hrest.
    apply NoDup_app; [exact Hrest|exact Hndout|].
    intros j Hj1 Hj2. apply Hout in Hj2.
    exact (NoDup_app_disjoint _ _ j Hnd Hj2 Hj1).
  - intros j Hj. destruct (Hjobs j (Hin j Hj)) as [H1 H2].
    split; [exact H1|exact (Hnot j Hj H2)].
  - rewrite (pending_weight_remove _ _ _ Hnth) in Hle. fold rest in Hle.
    rewrite length_app, pending_weight_app. cbn [length].
    fold c in Hle, Hw. fold c'. lia.
Qed.

Lemma finalize_keeps_bound_inv (sid rid : string) (jids : list string) (r : Run)
    (i : nat) (ev : Event) (r' : Run) :
  session_id (run_store r) = Some sid -> resume_id (run_store r) = Some rid ->
  Forall (completed_ok jids (run_store r))
         (get_or completed_steps [] (run_store r)) ->
  is_phase3_result ev = true -> pending_ok jids (run_store r) ev ->
  nth_error (run_pending r) i = Some ev ->
  bound_inv jids r ->
  match run_handler (finalize ev) (run_store r) with
  | Returned hr =>
      Some {| run_store := hr_store hr;
              run_pending := (firstn i (run_pending r) ++ skipn (S i) (run_pending r))
                             ++ emitted hr;
              run_handled := run_handled r ++ [ev];
              run_status := match first_stop (emitted hr) with
                            | Some res => Completed res
                            | None => Running
                            end |}
  | Raised e =>
      Some {| run_store := run_store r;
              run_pending := firstn i (run_pending r) ++ skipn (S i) (run_pending r);
              run_handled := run_handled r ++ [ev];
              run_status := Failed (exn_str e) |}
  end = Some r' ->
  bound_inv jids r'.
Proof.
  intros Hsid Hrid Hcomp Hres Hev Hnth Hb Hd.
  set (st := run_store r) in *.
  set (c := get_or completed_steps [] st) in *.
  assert (Hafter : forall out status',
            match_jobs out = [] -> pending_weight out = 0 ->
            bound_inv jids
              {| run_store := set_completed_steps (c ++ [phase3_key ev]) st;
                 run_pending := (firstn i (run_pending r)
                                 ++ skipn (S i) (run_pending r)) ++ out;
                 run_handled := run_handled r ++ [ev];
                 run_status := status' |}).
  { intros out status' Hmj Hw.
    apply (bound_inv_after jids r i ev _ out status' Hb Hnth).
    - rewrite Hmj. intros j [].
    - rewrite Hmj. constructor.
    - intros j _ Hnot.
      replace (get_or completed_steps []
                 (set_completed_steps (c ++ [phase3_key ev]) st))
        with (c ++ [phase3_key ev])%list
        by (unfold get_or; store_simpl; reflexivity).
      intros Hin. apply in_app_or in Hin as [Hin|[Hin|[]]]; [exact (Hnot Hin)|].
      exact (matched_key_not_phase3 j ev Hin).
    - replace (get_or completed_steps []
                 (set_completed_steps (c ++ [phase3_key ev]) st))
        with (c ++ [phase3_key ev])%list
        by (unfold get_or; store_simpl; reflexivity).
      change (get_or completed_steps [] (run_store r)) with c.
      unfold barrier_debt. rewrite all_matched_record_step, Hw.
      destruct ev; try discriminate Hres; cbn [weight]; lia. }
  destruct (phase3_done (c ++ [phase3_key ev])) eqn:Hdone.
  - destruct (phase3_values_present jids st ev Hcomp Hres Hev Hdone)
      as [(HR & HP & HI) Hall].
    destruct (recommendations st) as [recs|] eqn:ER; [|congruence].
    destruct (interview_prep st) as [prep|] eqn:EP; [|congruence].
    destruct (market_insights st) as [insights|] eqn:EI; [|congruence].
    destruct (finalize_fires ev sid rid recs prep insights st Hsid Hrid ER EP EI Hdone)
      as [p E].
    rewrite E in Hd. clear E. injection Hd as <-.
    cbn [hr_store emitted hr_sent hr_returned app].
    apply Hafter; reflexivity.
  - rewrite (finalize_quiet ev sid st Hsid Hdone) in Hd. injection Hd as <-.
    cbn [hr_store emitted hr_sent hr_returned app].
    apply Hafter; reflexivity.
Qed.

Lemma dispatch_bound_inv (sid rid : string) (jids : list string) (r r' : Run)
    (i : nat) (exec : outcome pydict) :
  running_inv sid rid jids r -> skip_inv jids r -> bound_inv jids r ->
  dispatch r i exec = Some r' -> bound_inv jids r'.
Proof.
  intros Hinv Hskip Hb Hd. unfold dispatch in Hd.
  destruct (run_status r) eqn:Hst; try discriminate.
  destruct (nth_error (run_pending r) i) as [ev|] eqn:Hnth; try discriminate.
  destruct Hinv as (Hsid & Hrid & Hjids & Hnd & Hsub & Hgaps & Hpend & Hcomp & Hfin).
  destruct Hskip as (_ & Hp & _).
  assert (Hevp : pending_ok jids (run_store r) ev).
  { rewrite Forall_forall in Hpend. apply Hpend. eapply nth_error_In; eauto. }
  assert (Hev : is_parse ev = false /\ is_start ev = false).
  { rewrite Forall_forall in Hp. apply Hp. eapply nth_error_In; eauto. }
  pose proof Hb as (Hndj & Hjobs & _).
  pose proof (match_jobs_remove _ _ _ Hnth) as Hperm.
  set (st := run_store r) in *.
  destruct ev; cbn [handle] in Hd; try (destruct Hev as [Hev1 Hev2]; discriminate).
  - (* match_skills *)
    destruct (py_iter (Dict.get_default "missing_skills" (VList [])
                         (data (process_output exec)))) as [missing|e] eqn:Hiter.
    + destruct (match_skills_run exec session_id0 resume_id0 job_id sid missing st
                  Hsid Hiter) as [p E].
      rewrite E in Hd. injection Hd as <-.
      cbn [hr_store emitted hr_sent hr_returned app first_stop].
      apply (bound_inv_after jids r i _ _
               [SkillMatchResultEvent job_id (data (process_output exec))] _
               Hb Hnth).
      * cbn. auto.
      * cbn. repeat constructor. intros [].
      * intros j _ H. unfold get_or in *. revert H. store_simpl. auto.
      * subst st. unfold get_or. store_simpl. cbn. lia.
    + rewrite (match_skills_raises exec session_id0 resume_id0 job_id sid e st
                 Hsid Hiter) in Hd.
      injection Hd as <-. apply bound_inv_failed; [exact Hb|exact Hnth|cbn; lia].
  - (* collect_phase2 *)
    destruct (collect_phase2_run st job_id sid Hsid) as [p E].
    cbv zeta in E. rewrite E in Hd. clear E. injection Hd as <-.
    cbn [hr_store].
    assert (Hjids' : get_or job_ids [] st = jids)
      by (unfold get_or; rewrite Hjids; reflexivity).
    rewrite Hjids'.
    set (c := get_or completed_steps [] st) in *.
    set (c' := (c ++ [matched_key job_id])%list) in *.
    unfold emitted. cbn [hr_sent hr_returned first_stop].
    assert (Htok : In job_id jids /\ ~ In (matched_key job_id) c).
    { apply Hjobs. apply (Permutation_in _ (Permutation_sym Hperm)). now left. }
    assert (Hfalse : all_matched jids c = false).
    { destruct (all_matched jids c) eqn:Hall; [|reflexivity].
      exfalso. apply (proj2 Htok).
      exact (proj1 (all_matched_spec jids c) Hall job_id (proj1 Htok)). }
    set (out := ((if all_matched jids c' then phase3_sent sid jids st else [])
                 ++ match (if all_matched jids c'
                           then Some (phase3_returned sid st) else None) with
                    | Some ev => [ev]
                    | None => []
                    end)%list).
    assert (Hmj : match_jobs out = []).
    { subst out. destruct (all_matched jids c'); reflexivity. }
    apply (bound_inv_after jids r i _ _ out _ Hb Hnth).
    * rewrite Hmj. intros j [].
    * rewrite Hmj. constructor.
    * intros j Hj Hnot. rewrite match_jobs_app, Hmj, app_nil_r in Hj.
      replace (get_or completed_steps [] (set_completed_steps c' st)) with c'
        by (unfold get_or; store_simpl; reflexivity).
      change (get_or completed_steps [] (run_store r)) with c in Hnot.
      subst c'. intros Hin.
      apply in_app_or in Hin as [Hin|[Hin|[]]]; [exact (Hnot Hin)|].
      apply matched_key_inj in Hin. subst j.
      apply (Permutation_NoDup Hperm) in Hndj. cbn [match_job app] in Hndj.
      inversion Hndj as [|? ? Hx _]. exact (Hx Hj).
    * change (get_or completed_steps [] (run_store r)) with c.
      replace (get_or completed_steps [] (set_completed_steps c' st)) with c'
        by (unfold get_or; store_simpl; reflexivity).
      unfold barrier_debt. rewrite Hfalse. subst out.
      destruct (all_matched jids c'); cbn; lia.
  - (* generate_recommendations *)
    destruct (generate_recommendations_run exec session_id0 sid rid skill_gaps st
                Hsid Hrid) as [p E].
    rewrite E in Hd. injection Hd as <-.
    cbn [hr_store emitted hr_sent hr_returned app first_stop].
    apply (bound_inv_after jids r i _ _
             [RecommendationResultEvent (data (process_output exec))] _ Hb Hnth).
    + cbn. auto.
    + cbn. constructor.
    + intros j _ H. unfold get_or in *. revert H. store_simpl. auto.
    + subst st. unfold get_or. store_simpl. cbn. lia.
  - (* generate_interview_prep *)
    destruct (generate_interview_prep_run exec session_id0 sid rid skill_gaps st
                Hsid Hrid) as [p E].
    rewrite E in Hd. injection Hd as <-.
    cbn [hr_store emitted hr_sent hr_returned app first_stop].
    apply (bound_inv_after jids r i _ _
             [InterviewPrepResultEvent (data (process_output exec))] _ Hb Hnth).
    + cbn. auto.
    + cbn. constructor.
    + intros j _ H. unfold get_or in *. revert H. store_simpl. auto.
    + subst st. unfold get_or. store_simpl. cbn. lia.
  - (* generate_market_insights *)
    destruct (generate_market_insights_run exec session_id0 sid job_title st Hsid)
      as [p E].
    rewrite E in Hd. injection Hd as <-.
    cbn [hr_store emitted hr_sent hr_returned app first_stop].
    apply (bound_inv_after jids r i _ _
             [MarketInsightsResultEvent (data (process_output exec))] _ Hb Hnth).
    + cbn. auto.
    + cbn. constructor.
    + intros j _ H. unfold get_or in *. revert H. store_simpl. auto.
    + subst st. unfold get_or. store_simpl. cbn. lia.
  - eapply (finalize_keeps_bound_inv sid rid jids r i); try eassumption; reflexivity.
  - eapply (finalize_keeps_bound_inv sid rid jids r i); try eassumption; reflexivity.
  - eapply (finalize_keeps_bound_inv sid rid jids r i); try eassumption; reflexivity.
Qed.

Lemma match_jobs_skill_match_events (sid rid : string) (jids : list string) :
  match_jobs (map (SkillMatchEvent sid rid) jids) = jids
  /\ pending_weight (map (SkillMatchEvent sid rid) jids) = 2 * length jids.
Proof.
  induction jids as [|j jids [IH1 IH2]]; [split; reflexivity|].
  split.
  - cbn [map match_jobs flat_map match_job app].
    fold (match_jobs (map (SkillMatchEvent sid rid) jids)).
    now rewrite IH1.
  - unfold pending_weight in *. cbn [map length].
    change (list_sum (weight (SkillMatchEvent sid rid j)
                      :: map weight (map (SkillMatchEvent sid rid) jids)))
      with (2 + list_sum (map weight (map (SkillMatchEvent sid rid) jids))).
    rewrite IH2. lia.
Qed.

Lemma tl_hd_permutation {A : Type} (l : list A) :
  Permutation (tl l ++ match hd_error l with Some a => [a] | None => [] end) l.
Proof.
  destruct l as [|a l]; cbn [tl hd_error]; [constructor|].
  rewrite Permutation_app_comm. reflexivity.
Qed.

Lemma reachable_bound_inv (sid rid : string) (jids : list string)
    (text : option string) (texts : option (dict string)) (r : Run) :
  skips_parsing text texts = true -> NoDup jids ->
  reachable (StartAnalysisEvent sid rid jids text texts) r ->
  (run_pending r = [StartAnalysisEvent sid rid jids text texts]
   /\ run_handled r = [])
  \/ bound_inv jids r.
Proof.
  intros Hskip Hndj Hreach. induction Hreach as [|r r' Hreach IH Hstep].
  - left. split; reflexivity.
  - pose proof (reachable_run_inv sid rid jids text texts r Hreach) as Hinv.
    pose proof (reachable_skip_inv sid rid jids text texts r Hskip Hreach) as Hs.
    destruct Hstep as [[i [exec Hd]]|Ht].
    + right. destruct Hs as [[Hpend Hhandled]|Hs].
      * unfold dispatch in Hd. rewrite Hpend, Hhandled in Hd.
        destruct (run_status r) eqn:Hstatus; try discriminate.
        destruct i as [|i]; cbn [nth_error] in Hd; [|destruct i; discriminate].
        cbn [handle] in Hd.
        destruct (start_run sid rid jids text texts (run_store r)) as [p E].
        rewrite E in Hd. clear E. injection Hd as <-.
        cbn [hr_store firstn skipn app].
        unfold start_events. rewrite Hskip.
        set (evs := map (SkillMatchEvent sid rid) jids).
        unfold emitted. cbn [hr_sent hr_returned].
        pose proof (tl_hd_permutation evs) as Hperm.
        destruct (match_jobs_skill_match_events sid rid jids) as [Hmj Hw].
        fold evs in Hmj, Hw.
        assert (Hpj : Permutation
                        (match_jobs (tl evs ++ match hd_error evs with
                                               | Some e => [e] | None => [] end))
                        jids).
        { apply (Permutation_trans (l' := match_jobs evs));
            [|rewrite Hmj; reflexivity].
          unfold match_jobs. apply Permutation_flat_map. exact Hperm. }
        assert (Hpw : pending_weight (tl evs ++ match hd_error evs with
                                                | Some e => [e] | None => [] end)
                      = 2 * length jids).
        { rewrite <- Hw. unfold pending_weight.
          apply Permutation_list_sum. apply Permutation_map. exact Hperm. }
        unfold bound_inv. cbn [run_store run_pending run_handled].
        split; [|split].
        -- exact (Permutation_NoDup (Permutation_sym Hpj) Hndj).
        -- intros j Hj. split; [exact (Permutation_in _ Hpj Hj)|].
           unfold get_or, start_store. cbn [completed_steps]. intros [].
        -- rewrite Hpw. cbn [length]. unfold barrier_debt.
           destruct (all_matched jids _); lia.
      * assert (Hnot : run_pending r <> [StartAnalysisEvent sid rid jids text texts]).
        { intros Hpend. destruct Hs as (_ & Hp & _). rewrite Hpend in Hp.
          inversion Hp as [|? ? [_ Hstart] _]. discriminate Hstart. }
        destruct IH as [[Hpend _]|Hb]; [contradiction|].
        destruct Hinv as [(_ & Hpend & _)|Hinv]; [contradiction|].
        exact (dispatch_bound_inv sid rid jids r r' i exec Hinv Hs Hb Hd).
    + unfold timeout in Ht. destruct (run_status r); try discriminate.
      injection Ht as <-. destruct IH as [IH|Hb]; [now left|right].
      exact Hb.
Qed.

(** X3. A run on inputs that are already parsed, with distinct job ids,
    is bounded: whatever the order in which the dispatcher takes the
    pending events and whatever the agent calls do, it makes at most
    [2 * n + 7] handler invocations for [n] job ids: the start, a match
    and a collection per job, three generations and three
    finalisations. *)
Theorem run_on_parsed_inputs_is_bounded (sid rid : string) (jids : list string)
    (text : option string) (texts : option (dict string)) (r : Run) :
  skips_parsing text texts = true ->
  NoDup jids ->
  reachable (StartAnalysisEvent sid rid jids text texts) r ->
  length (run_handled r) <= 2 * length jids + 7.
Proof.
  intros Hskip Hnd Hreach.
  destruct (reachable_bound_inv sid rid jids text texts r Hskip Hnd Hreach)
    as [[_ Hhandled]|(_ & _ & Hle)].
  - rewrite Hhandled. cbn [length]. lia.
  - lia.
Qed.

(** ** A completed run did exactly its work *)

Lemma step_jobs_app (l l' : list Event) :
  step_jobs (l ++ l') = (step_jobs l ++ step_jobs l')%list.
Proof. unfold step_jobs. apply flat_map_app. Qed.

Lemma step_jobs_remove (l : list Event) (i : nat) (ev : Event) :
  nth_error l i = Some ev ->
  Permutation (step_jobs l)
              (step_job ev ++ step_jobs (firstn i l ++ skipn (S i) l)).
Proof.
  intros H. rewrite (nth_error_middle l i ev H) at 1.
  rewrite !step_jobs_app. unfold step_jobs at 2. cbn [flat_map].
  fold (step_jobs (skipn (S i) l)).
  rewrite app_assoc.
  rewrite (Permutation_app_comm (step_jobs (firstn i l)) (step_job ev)).
  now rewrite <- app_assoc.
Qed.

Lemma step_job_steps (ev : Event) (k : string) :
  In k (step_job ev) -> In k phase3_steps.
Proof.
  unfold phase3_steps. destruct ev; cbn [step_job In]; intuition.
Qed.

Lemma step_job_result (ev : Event) :
  is_phase3_result ev = true -> step_job ev = [phase3_key ev].
Proof. destruct ev; try discriminate; reflexivity. Qed.

Lemma no_jobs_no_weight (l : list Event) :
  match_jobs l = [] -> step_jobs l = [] -> pending_weight l = 0.
Proof.
  unfold match_jobs, step_jobs, pending_weight.
  induction l as [|ev l IH]; cbn [flat_map map]; [reflexivity|].
  intros Hm Hs. apply app_eq_nil in Hm as [Hm1 Hm2].
  apply app_eq_nil in Hs as [Hs1 Hs2].
  change (list_sum (weight ev :: map weight l))
    with (weight ev + list_sum (map weight l)).
  rewrite (IH Hm2 Hs2). destruct ev; cbn in *; try discriminate; reflexivity.
Qed.

Lemma weightless_is_stop (ev : Event) :
  weight ev = 0 -> is_parse ev = false -> is_start ev = false ->
  exists res, ev = StopEvent res.
Proof. destruct ev; cbn; try discriminate; eauto. Qed.

Lemma steps_not_matched (c : list string) (j k : string) :
  In k phase3_steps -> ~ In k c -> ~ In k (c ++ [matched_key j]).
Proof.
  intros Hk Hnot Hin. apply in_app_or in Hin as [Hin|[Hin|[]]]; [exact (Hnot Hin)|].
  unfold matched_key in Hin.
  destruct Hk as [<-|[<-|[<-|[]]]]; cbn in Hin; discriminate Hin.
Qed.

(** What changes when an event without a phase-3 step is replaced by
    events without one, the completion list staying as it is or growing
    by a key that is no phase-3 step. *)
Lemma exact_inv_after (jids : list string) (r : Run) (i : nat) (ev : Event)
    (st' : Store) (out : list Event) (status' : RunStatus) :
  exact_inv jids r -> nth_error (run_pending r) i = Some ev ->
  let c := get_or completed_steps [] (run_store r) in
  let c' := get_or completed_steps [] st' in
  let rest := (firstn i (run_pending r) ++ skipn (S i) (run_pending r))%list in
  Permutation (step_jobs (rest ++ out)) (step_jobs (run_pending r)) ->
  (forall k, In k phase3_steps -> ~ In k c -> ~ In k c') ->
  all_matched jids c' = all_matched jids c ->
  pending_weight out + 1 = weight ev ->
  (status' <> Running -> phase3_done c' = true) ->
  exact_inv jids {| run_store := st'; run_pending := rest ++ out;
                    run_handled := run_handled r ++ [ev];
                    run_status := status' |}.
Proof.
  intros (Hnd & Hnot & Hbefore & Hsum & _) Hnth c c' rest Hperm Hkeep Hall Hw Hdone.
  unfold exact_inv. cbn [run_store run_pending run_handled run_status].
  fold c'. fold c in Hnot, Hbefore, Hsum.
  split; [exact (Permutation_NoDup (Permutation_sym Hperm) Hnd)|].
  split; [|split; [|split; [|exact Hdone]]].
  - intros k Hk. apply (Permutation_in _ Hperm) in Hk as Hk'.
    apply Hkeep; [|exact (Hnot k Hk')].
    unfold step_jobs in Hk'. apply in_flat_map in Hk' as [e [_ He]].
    exact (step_job_steps e k He).
  - rewrite Hall. intros Hf. destruct (Hbefore Hf) as [Hnil Hnone]. split.
    + rewrite Hnil in Hperm. apply Permutation_sym in Hperm.
      now apply Permutation_nil in Hperm.
    + intros k Hk. apply Hkeep; [exact Hk|exact (Hnone k Hk)].
  - rewrite (pending_weight_remove _ _ _ Hnth) in Hsum. fold rest in Hsum.
    rewrite length_app, pending_weight_app. cbn [length].
    unfold barrier_debt in *. rewrite Hall. lia.
Qed.

Lemma finalize_keeps_exact_inv (sid rid : string) (jids : list string) (r : Run)
    (i : nat) (ev : Event) (r' : Run) :
  session_id (run_store r) = Some sid -> resume_id (run_store r) = Some rid ->
  Forall (completed_ok jids (run_store r))
         (get_or completed_steps [] (run_store r)) ->
  is_phase3_result ev = true -> pending_ok jids (run_store r) ev ->
  nth_error (run_pending r) i = Some ev ->
  exact_inv jids r ->
  match run_handler (finalize ev) (run_store r) with
  | Returned hr =>
      Some {| run_store := hr_store hr;
              run_pending := (firstn i (run_pending r) ++ skipn (S i) (run_pending r))
                             ++ emitted hr;
              run_handled := run_handled r ++ [ev];
              run_status := match first_stop (emitted hr) with
                            | Some res => Completed res
                            | None => Running
                            end |}
  | Raised e =>
      Some {| run_store := run_store r;
              run_pending := firstn i (run_pending r) ++ skipn (S i) (run_pending r);
              run_handled := run_handled r ++ [ev];
              run_status := Failed (exn_str e) |}
  end = Some r' ->
  exact_inv jids r'.
Proof.
  intros Hsid Hrid Hcomp Hres Hev Hnth He Hd.
  set (st := run_store r) in *.
  set (c := get_or completed_steps [] st) in *.
  set (rest := (firstn i (run_pending r) ++ skipn (S i) (run_pending r))%list) in *.
  assert (Hafter : forall out status',
            step_jobs out = [] -> pending_weight out = 0 ->
            (status' <> Running -> phase3_done (c ++ [phase3_key ev]) = true) ->
            exact_inv jids
              {| run_store := set_completed_steps (c ++ [phase3_key ev]) st;
                 run_pending := rest ++ out;
                 run_handled := run_handled r ++ [ev];
                 run_status := status' |}).
  { intros out status' Hsj Hw Hdone.
    destruct He as (Hnd & Hnot & Hbefore & Hsum & _).
    change (get_or completed_steps [] (run_store r)) with c in Hnot, Hbefore, Hsum.
    pose proof (step_jobs_remove _ _ _ Hnth) as Hperm. fold rest in Hperm.
    rewrite (step_job_result ev Hres) in Hperm. cbn [app] in Hperm.
    apply (Permutation_NoDup Hperm) in Hnd as Hnd'.
    inversion Hnd' as [|? ? Hkey Hrest]; subst.
    unfold exact_inv. cbn [run_store run_pending run_handled run_status].
    replace (get_or completed_steps []
               (set_completed_steps (c ++ [phase3_key ev]) st))
      with (c ++ [phase3_key ev])%list
      by (unfold get_or; store_simpl; reflexivity).
    rewrite step_jobs_app, Hsj, app_nil_r.
    split; [exact Hrest|]. split; [|split; [|split; [|exact Hdone]]].
    - intros k Hk Hin.
      assert (Hk' : In k (step_jobs (run_pending r))).
      { apply (Permutation_in _ (Permutation_sym Hperm)). now right. }
      apply in_app_or in Hin as [Hin|[Hin|[]]]; [exact (Hnot k Hk' Hin)|].
      subst k. exact (Hkey Hk).
    - rewrite all_matched_record_step. intros Hf. exfalso.
      destruct (Hbefore Hf) as [Hnil _]. rewrite Hnil in Hperm.
      apply Permutation_nil in Hperm. discriminate Hperm.
    - rewrite (pending_weight_remove _ _ _ Hnth) in Hsum. fold rest in Hsum.
      rewrite length_app, pending_weight_app, Hw. cbn [length].
      unfold barrier_debt in *. rewrite all_matched_record_step.
      assert (Hw1 : weight ev = 1) by (destruct ev; try discriminate Hres; reflexivity).
      lia. }
  destruct (phase3_done (c ++ [phase3_key ev])) eqn:Hdone.
  - destruct (phase3_values_present jids st ev Hcomp Hres Hev Hdone)
      as [(HR & HP & HI) Hall].
    destruct (recommendations st) as [recs|] eqn:ER; [|congruence].
    destruct (interview_prep st) as [prep|] eqn:EP; [|congruence].
    destruct (market_insights st) as [insights|] eqn:EI; [|congruence].
    destruct (finalize_fires ev sid rid recs prep insights st Hsid Hrid ER EP EI Hdone)
      as [p E].
    rewrite E in Hd. clear E. injection Hd as <-.
    cbn [hr_store emitted hr_sent hr_returned app first_stop].
    apply Hafter; reflexivity.
  - rewrite (finalize_quiet ev sid st Hsid Hdone) in Hd. injection Hd as <-.
    cbn [hr_store emitted hr_sent hr_returned app first_stop].
    apply Hafter; try reflexivity. intros H. now destruct H.
Qed.

Lemma dispatch_exact_inv (sid rid : string) (jids : list string) (r r' : Run)
    (i : nat) (exec : outcome pydict) :
  running_inv sid rid jids r -> skip_inv jids r -> bound_inv jids r ->
  exact_inv jids r ->
  dispatch r i exec = Some r' -> (forall e, run_status r' <> Failed e) ->
  exact_inv jids r'.
Proof.
  intros Hinv Hskip Hb He Hd Hok. unfold dispatch in Hd.
  destruct (run_status r) eqn:Hst; try discriminate.
  destruct (nth_error (run_pending r) i) as [ev|] eqn:Hnth; try discriminate.
  destruct Hinv as (Hsid & Hrid & Hjids & Hnd & Hsub & Hgaps & Hpend & Hcomp & Hfin).
  destruct Hskip as (_ & Hp & _).
  assert (Hevp : pending_ok jids (run_store r) ev).
  { rewrite Forall_forall in Hpend. apply Hpend. eapply nth_error_In; eauto. }
  assert (Hev : is_parse ev = false /\ is_start ev = false).
  { rewrite Forall_forall in Hp. apply Hp. eapply nth_error_In; eauto. }
  pose proof Hb as (Hndj & Hjobs & _).
  pose proof (match_jobs_remove _ _ _ Hnth) as Hpermj.
  pose proof (step_jobs_remove _ _ _ Hnth) as Hperm.
  set (st := run_store r) in *.
  set (rest := (firstn i (run_pending r) ++ skipn (S i) (run_pending r))%list) in *.
  assert (Hsame : forall d : pydict, forall ev',
            step_job ev' = step_job ev ->
            Permutation (step_jobs (rest ++ [ev'])) (step_jobs (run_pending r))).
  { intros _ ev' Heq. rewrite step_jobs_app. unfold step_jobs at 2.
    cbn [flat_map]. rewrite app_nil_r, Heq.
    rewrite Permutation_app_comm. exact (Permutation_sym Hperm). }
  destruct ev; cbn [handle] in Hd; try (destruct Hev as [Hev1 Hev2]; discriminate).
  - (* match_skills *)
    destruct (py_iter (Dict.get_default "missing_skills" (VList [])
                         (data (process_output exec)))) as [missing|e] eqn:Hiter.
    + destruct (match_skills_run exec session_id0 resume_id0 job_id sid missing st
                  Hsid Hiter) as [p E].
      rewrite E in Hd. injection Hd as <-.
      cbn [hr_store emitted hr_sent hr_returned app first_stop].
      apply (exact_inv_after jids r i _ _
               [SkillMatchResultEvent job_id (data (process_output exec))] _
               He Hnth).
      * apply (Hsame []). reflexivity.
      * intros k _ H. subst st. unfold get_or in *. revert H. store_simpl. auto.
      * subst st. unfold get_or. store_simpl. reflexivity.
      * reflexivity.
      * intros H. now destruct H.
    + rewrite (match_skills_raises exec session_id0 resume_id0 job_id sid e st
                 Hsid Hiter) in Hd.
      injection Hd as <-. destruct (Hok (exn_str e) eq_refl).
  - (* collect_phase2 *)
    destruct (collect_phase2_run st job_id sid Hsid) as [p E].
    cbv zeta in E. rewrite E in Hd. clear E. injection Hd as <-.
    cbn [hr_store].
    assert (Hjids' : get_or job_ids [] st = jids)
      by (unfold get_or; rewrite Hjids; reflexivity).
    rewrite Hjids'.
    set (c := get_or completed_steps [] st) in *.
    set (c' := (c ++ [matched_key job_id])%list) in *.
    unfold emitted. cbn [hr_sent hr_returned first_stop].
    assert (Htok : In job_id jids /\ ~ In (matched_key job_id) c).
    { apply Hjobs. apply (Permutation_in _ (Permutation_sym Hpermj)). now left. }
    assert (Hfalse : all_matched jids c = false).
    { destruct (all_matched jids c) eqn:Hall; [|reflexivity].
      exfalso. apply (proj2 Htok).
      exact (proj1 (all_matched_spec jids c) Hall job_id (proj1 Htok)). }
    destruct (all_matched jids c') eqn:Hfire.
    + destruct He as (_ & _ & Hbefore & Hsum & _).
      change (get_or completed_steps [] (run_store r)) with c in Hbefore, Hsum.
      destruct (Hbefore Hfalse) as [Hnil Hnone].
      rewrite Hnil in Hperm. cbn [step_job app] in Hperm.
      apply Permutation_nil in Hperm.
      unfold exact_inv. cbn [run_store run_pending run_handled run_status].
      replace (get_or completed_steps [] (set_completed_steps c' st)) with c'
        by (unfold get_or; store_simpl; reflexivity).
      rewrite step_jobs_app. fold rest. rewrite Hperm. cbn [app].
      unfold phase3_sent, phase3_returned. cbn [app step_jobs flat_map step_job].
      split; [|split; [|split; [|split]]].
      * repeat constructor; cbn; intuition discriminate.
      * intros k Hk. apply steps_not_matched; [|apply Hnone];
          unfold phase3_steps; cbn in Hk |- *; intuition.
      * rewrite Hfire. discriminate.
      * rewrite (pending_weight_remove _ _ _ Hnth) in Hsum. fold rest in Hsum.
        rewrite length_app, pending_weight_app. cbn [length].
        unfold barrier_debt in *. rewrite Hfire. rewrite Hfalse in Hsum.
        cbn [weight] in Hsum.
        change (pending_weight _) with 6 at 2. lia.
      * intros H. now destruct H.
    + cbn [app]. rewrite app_nil_r.
      rewrite <- (app_nil_r rest) at 1.
      apply (exact_inv_after jids r i _ _ [] _ He Hnth).
      * rewrite step_jobs_app. cbn [step_jobs flat_map]. rewrite app_nil_r.
        exact (Permutation_sym Hperm).
      * intros k Hk Hnot.
        replace (get_or completed_steps [] (set_completed_steps c' st)) with c'
          by (unfold get_or; store_simpl; reflexivity).
        now apply steps_not_matched.
      * replace (get_or completed_steps [] (set_completed_steps c' st)) with c'
          by (unfold get_or; store_simpl; reflexivity).
        change (get_or completed_steps [] (run_store r)) with c.
        now rewrite Hfire, Hfalse.
      * reflexivity.
      * intros H. now destruct H.
  - (* generate_recommendations *)
    destruct (generate_recommendations_run exec session_id0 sid rid skill_gaps st
                Hsid Hrid) as [p E].
    rewrite E in Hd. injection Hd as <-.
    cbn [hr_store emitted hr_sent hr_returned app first_stop].
    apply (exact_inv_after jids r i _ _
             [RecommendationResultEvent (data (process_output exec))] _ He Hnth).
    + apply (Hsame []). reflexivity.
    + intros k _ H. subst st. unfold get_or in *. revert H. store_simpl. auto.
    + subst st. unfold get_or. store_simpl. reflexivity.
    + reflexivity.
    + intros H. now destruct H.
  - (* generate_interview_prep *)
    destruct (generate_interview_prep_run exec session_id0 sid rid skill_gaps st
                Hsid Hrid) as [p E].
    rewrite E in Hd. injection Hd as <-.
    cbn [hr_store emitted hr_sent hr_returned app first_stop].
    apply (exact_inv_after jids r i _ _
             [InterviewPrepResultEvent (data (process_output exec))] _ He Hnth).
    + apply (Hsame []). reflexivity.
    + intros k _ H. subst st. unfold get_or in *. revert H. store_simpl. auto.
    + subst st. unfold get_or. store_simpl. reflexivity.
    + reflexivity.
    + intros H. now destruct H.
  - (* generate_market_insights *)
    destruct (generate_market_insights_run exec session_id0 sid job_title st Hsid)
      as [p E].
    rewrite E in Hd. injection Hd as <-.
    cbn [hr_store emitted hr_sent hr_returned app first_stop].
    apply (exact_inv_after jids r i _ _
             [MarketInsightsResultEvent (data (process_output exec))] _ He Hnth).
    + apply (Hsame []). reflexivity.
    + intros k _ H. subst st. unfold get_or in *. revert H. store_simpl. auto.
    + subst st. unfold get_or. store_simpl. reflexivity.
    + reflexivity.
    + intros H. now destruct H.
  - eapply (finalize_keeps_exact_inv sid rid jids r i); try eassumption; reflexivity.
  - eapply (finalize_keeps_exact_inv sid rid jids r i); try eassumption; reflexivity.
  - eapply (finalize_keeps_exact_inv sid rid jids r i); try eassumption; reflexivity.
Qed.

Lemma step_jobs_skill_match_events (sid rid : string) (jids : list string) :
  step_jobs (map (SkillMatchEvent sid rid) jids) = [].
Proof. induction jids as [|j jids IH]; [reflexivity|exact IH]. Qed.

Lemma reachable_exact_inv (sid rid : string) (jids : list string)
    (text : option string) (texts : option (dict string)) (r : Run) :
  skips_parsing text texts = true -> NoDup jids -> jids <> [] ->
  reachable (StartAnalysisEvent sid rid jids text texts) r ->
  (forall e, run_status r <> Failed e) ->
  (run_pending r = [StartAnalysisEvent sid rid jids text texts]
   /\ run_handled r = [])
  \/ exact_inv jids r.
Proof.
  intros Hskip Hndj Hne Hreach. induction Hreach as [|r r' Hreach IH Hstep].
  - intros _. left. split; reflexivity.
  - intros Hok.
    pose proof (reachable_run_inv sid rid jids text texts r Hreach) as Hinv.
    pose proof (reachable_skip_inv sid rid jids text texts r Hskip Hreach) as Hs.
    pose proof (reachable_bound_inv sid rid jids text texts r Hskip Hndj Hreach)
      as Hb.
    destruct Hstep as [[i [exec Hd]]|Ht].
    + assert (Hrun : run_status r = Running).
      { unfold dispatch in Hd. destruct (run_status r); [reflexivity| |];
          discriminate Hd. }
      assert (IH' := IH ltac:(intros e; rewrite Hrun; discriminate)).
      right. destruct Hs as [[Hpend Hhandled]|Hs].
      * unfold dispatch in Hd. rewrite Hpend, Hhandled in Hd.
        rewrite Hrun in Hd.
        destruct i as [|i]; cbn [nth_error] in Hd; [|destruct i; discriminate].
        cbn [handle] in Hd.
        destruct (start_run sid rid jids text texts (run_store r)) as [p E].
        rewrite E in Hd. clear E. injection Hd as <-.
        cbn [hr_store firstn skipn app].
        unfold start_events. rewrite Hskip.
        set (evs := map (SkillMatchEvent sid rid) jids).
        unfold emitted. cbn [hr_sent hr_returned].
        pose proof (tl_hd_permutation evs) as Hperm.
        destruct (match_jobs_skill_match_events sid rid jids) as [_ Hw].
        fold evs in Hw.
        assert (Hsj : step_jobs (tl evs ++ match hd_error evs with
                                           | Some e => [e] | None => [] end) = []).
        { apply Permutation_nil. rewrite <- (step_jobs_skill_match_events sid rid jids).
          fold evs. unfold step_jobs. apply Permutation_flat_map.
          exact (Permutation_sym Hperm). }
        assert (Hpw : pending_weight (tl evs ++ match hd_error evs with
                                                | Some e => [e] | None => [] end)
                      = 2 * length jids).
        { rewrite <- Hw. unfold pending_weight.
          apply Permutation_list_sum. apply Permutation_map. exact Hperm. }
        assert (Hfalse : all_matched jids [] = false).
        { destruct jids as [|j jids']; [congruence|reflexivity]. }
        assert (Hstop : first_stop (tl evs ++ match hd_error evs with
                                              | Some e => [e] | None => [] end)
                        = None).
        { apply first_stop_none. intros res Hin.
          apply (proj1 (in_tl_hd _ evs)) in Hin. subst evs.
          apply in_map_iff in Hin as [j [Hj _]]. discriminate Hj. }
        rewrite Hstop.
        unfold exact_inv. cbn [run_store run_pending run_handled run_status].
        rewrite Hsj, Hpw.
        replace (get_or completed_steps []
                   (start_store sid rid jids text texts (run_store r)))
          with (@nil string) by reflexivity.
        split; [constructor|]. split; [intros k []|]. split; [|split].
        -- intros _. split; [reflexivity|]. intros k _ [].
        -- cbn [length]. unfold barrier_debt. rewrite Hfalse. lia.
        -- intros H. now destruct H.
      * assert (Hnot : run_pending r <> [StartAnalysisEvent sid rid jids text texts]).
        { intros Hpend. destruct Hs as (_ & Hp & _). rewrite Hpend in Hp.
          inversion Hp as [|? ? [_ Hstart] _]. discriminate Hstart. }
        destruct IH' as [[Hpend _]|He]; [contradiction|].
        destruct Hb as [[Hpend _]|Hb]; [contradiction|].
        destruct Hinv as [(_ & Hpend & _)|Hinv]; [contradiction|].
        exact (dispatch_exact_inv sid rid jids r r' i exec Hinv Hs Hb He Hd Hok).
    + unfold timeout in Ht. destruct (run_status r); try discriminate.
      injection Ht as <-. destruct (Hok "timeout" eq_refl).
Qed.

(** X4. A run on inputs that are already parsed, with at least one job
    id and distinct job ids, that completes has done exactly its work: it
    made [2 * n + 7] handler invocations for [n] job ids, no less and no
    more, whatever the order in which the dispatcher took the events, and
    nothing is pending but terminal events. *)
Theorem completed_run_did_exactly_its_work (sid rid : string) (jids : list string)
    (text : option string) (texts : option (dict string)) (r : Run)
    (res : AnalysisResult) :
  skips_parsing text texts = true ->
  NoDup jids -> jids <> [] ->
  reachable (StartAnalysisEvent sid rid jids text texts) r ->
  run_status r = Completed res ->
  length (run_handled r) = 2 * length jids + 7
  /\ forall ev, In ev (run_pending r) -> exists res', ev = StopEvent res'.
Proof.
  intros Hskip Hnd Hne Hreach Hst.
  destruct (reachable_run_inv sid rid jids text texts r Hreach)
    as [(_ & _ & _ & Hnot)|Hinv]; [destruct (Hnot res Hst)|].
  assert (Hpre : run_pending r <> [StartAnalysisEvent sid rid jids text texts]).
  { intros Hpend. destruct Hinv as (_ & _ & _ & _ & _ & _ & Hp & _).
    rewrite Hpend in Hp. inversion Hp as [|? ? Hstart _]. exact Hstart. }
  destruct (reachable_skip_inv sid rid jids text texts r Hskip Hreach)
    as [[Hpend _]|(_ & Hp & _)]; [contradiction|].
  destruct (reachable_bound_inv sid rid jids text texts r Hskip Hnd Hreach)
    as [[Hpend _]|(_ & Hjobs & _)]; [contradiction|].
  destruct (reachable_exact_inv sid rid jids text texts r Hskip Hnd Hne Hreach
              ltac:(intros e; rewrite Hst; discriminate))
    as [[Hpend _]|(_ & Hsteps & _ & Hsum & Hdone)]; [contradiction|].
  destruct Hinv as (_ & _ & _ & _ & _ & _ & _ & Hcomp & _).
  set (c := get_or completed_steps [] (run_store r)) in *.
  assert (Hd : phase3_done c = true) by (apply Hdone; rewrite Hst; discriminate).
  apply phase3_done_spec in Hd as (H1 & H2 & H3).
  assert (Hall : all_matched jids c = true).
  { apply all_matched_spec. rewrite Forall_forall in Hcomp.
    destruct (Hcomp _ H1) as (_ & Hrec & _). exact (proj2 (Hrec eq_refl)). }
  assert (Hmj : match_jobs (run_pending r) = []).
  { destruct (match_jobs (run_pending r)) as [|j l] eqn:E; [reflexivity|].
    exfalso. destruct (Hjobs j (or_introl eq_refl)) as [Hj Hnot].
    exact (Hnot (proj1 (all_matched_spec jids c) Hall j Hj)). }
  assert (Hsj : step_jobs (run_pending r) = []).
  { destruct (step_jobs (run_pending r)) as [|k l] eqn:E; [reflexivity|].
    exfalso. apply (Hsteps k (or_introl eq_refl)).
    assert (Hk : In k phase3_steps).
    { assert (Hin : In k (step_jobs (run_pending r))) by (rewrite E; now left).
      unfold step_jobs in Hin. apply in_flat_map in Hin as [e [_ He]].
      exact (step_job_steps e k He). }
    destruct Hk as [<-|[<-|[<-|[]]]]; assumption. }
  split.
  - rewrite (no_jobs_no_weight _ Hmj Hsj) in Hsum.
    unfold barrier_debt in Hsum. rewrite Hall in Hsum. lia.
  - intros ev Hin. rewrite Forall_forall in Hp. destruct (Hp ev Hin) as [Hparse Hstart].
    apply weightless_is_stop; [|exact Hparse|exact Hstart].
    assert (Hm : match_job ev = []).
    { destruct (match_job ev) as [|j l] eqn:E; [reflexivity|].
      assert (In j (match_jobs (run_pending r))).
      { unfold match_jobs. apply in_flat_map. exists ev. split; [exact Hin|].
        rewrite E. now left. }
      rewrite Hmj in H. destruct H. }
    assert (Hs : step_job ev = []).
    { destruct (step_job ev) as [|k l] eqn:E; [reflexivity|].
      assert (In k (step_jobs (run_pending r))).
      { unfold step_jobs. apply in_flat_map. exists ev. split; [exact Hin|].
        rewrite E. now left. }
      rewrite Hsj in H. destruct H. }
    destruct ev; cbn in Hm, Hs |- *; try discriminate; reflexivity.
Qed.

(** ** What [process] reports *)


(** ** Gap aggregation is complete *)

Lemma py_in_app_l (x : pyval) (l l' : list pyval) :
  py_in x l = true -> py_in x (l ++ l') = true.
Proof. unfold py_in. rewrite existsb_app. now intros ->. Qed.

Lemma add_gap_grows (skill : pyval) (gaps : list pyval) :
  (add_gap skill gaps = gaps \/ add_gap skill gaps = (gaps ++ [skill_name skill])%list)
  /\ (py_truthy (skill_name skill) = true ->
      py_in (skill_name skill) (add_gap skill gaps) = true).
Proof.
  unfold add_gap. fold (skill_name skill).
  destruct (py_truthy (skill_name skill)); cbn [andb].
  - destruct (py_in (skill_name skill) gaps) eqn:Hin; cbn [negb].
    + split; [now left|now intros _].
    + split; [now right|]. intros _. apply py_in_In. apply in_or_app.
      right. now left.
  - split; [now left|discriminate].
Qed.

Lemma aggregate_gaps_grows (missing gaps : list pyval) :
  (exists added,
      aggregate_gaps missing gaps = (gaps ++ added)%list
      /\ forall x, In x added -> exists skill, In skill missing /\ x = skill_name skill)
  /\ forall skill, In skill missing -> py_truthy (skill_name skill) = true ->
                   py_in (skill_name skill) (aggregate_gaps missing gaps) = true.
Proof.
  unfold aggregate_gaps. revert gaps.
  induction missing as [|s missing IH]; intros gaps; cbn [fold_left].
  - split; [|intros skill []]. exists []. rewrite app_nil_r.
    split; [reflexivity|intros x []].
  - destruct (IH (add_gap s gaps)) as [[added [Heq Hadded]] Hall].
    destruct (add_gap_grows s gaps) as [Hstep Hin]. split.
    + destruct Hstep as [E|E].
      * exists added. split; [now rewrite <- E at 2|].
        intros x Hx. destruct (Hadded x Hx) as [skill [H1 H2]].
        exists skill. split; [now right|exact H2].
      * exists (skill_name s :: added). split.
        -- rewrite Heq, E, <- app_assoc. reflexivity.
        -- intros x [<-|Hx]; [exists s; split; [now left|reflexivity]|].
           destruct (Hadded x Hx) as [skill [H1 H2]].
           exists skill. split; [now right|exact H2].
    + intros skill [<-|Hin'] Ht; [|now apply Hall].
      rewrite Heq. apply py_in_app_l. now apply Hin.
Qed.

(** X6. The gap loop of [match_skills] loses nothing: when the handler
    returns, the gap list it stores starts with the list that was stored
    before, in the same order, what it adds are names of the missing
    skills of this match, and the name of every missing skill is in the
    stored list unless it is falsy (an empty name, for one). *)
Theorem match_skills_records_every_gap (exec : outcome pydict)
    (esid erid jid : string) (st : Store) (hr : HandlerResult) :
  run_handler (match_skills exec esid erid jid) st = Returned hr ->
  exists missing added,
    py_iter (Dict.get_default "missing_skills" (VList []) (data (process_output exec)))
    = Returned missing
    /\ all_skill_gaps (hr_store hr)
       = Some (get_or all_skill_gaps [] st ++ added)%list
    /\ (forall x, In x added -> exists skill, In skill missing /\ x = skill_name skill)
    /\ forall skill, In skill missing -> py_truthy (skill_name skill) = true ->
                     py_in (skill_name skill) (get_or all_skill_gaps [] (hr_store hr))
                     = true.
Proof.
  intros Hrun.
  destruct (match_skills_returned exec esid erid jid st hr Hrun)
    as [missing (Hiter & Hstore & _)].
  destruct (aggregate_gaps_grows missing (get_or all_skill_gaps [] st))
    as [[added [Heq Hadded]] Hall].
  exists missing, added. rewrite Hstore. unfold get_or at 2. store_simpl.
  split; [exact Hiter|]. split; [now rewrite Heq|]. split; [exact Hadded|exact Hall].
Qed.

(** ** A result that cannot be iterated *)


End Workflow.

(** * Handlers do not depend on the progress sink *)

Section ProgressIndependence.

Variable py_repr : pyval -> string.
Variables sink sink' : Notification -> outcome unit.

Lemma sim_ret {A : Type} (a : A) : sim (ret a) (ret a).
Proof. intros h h' H. cbn. auto. Qed.

Lemma sim_raise {A : Type} (e : exn) : sim (@raise A e) (raise e).
Proof. intros h h' H. reflexivity. Qed.

Lemma sim_bind {A B : Type} (m m' : M A) (k k' : A -> M B) :
  sim m m' -> (forall a, sim (k a) (k' a)) -> sim (bind m k) (bind m' k').
Proof.
  intros Hm Hk h h' H. unfold bind. specialize (Hm h h' H).
  destruct (m h) as [[a h1]|e]; destruct (m' h') as [[a' h1']|e']; try contradiction.
  - destruct Hm as [<- H1]. apply Hk. exact H1.
  - exact Hm.
Qed.

Lemma sim_store_get {A : Type} (key : string) (field : Store -> option A) :
  sim (store_get key field) (store_get key field).
Proof.
  intros h h' [Hs Hx]. unfold store_get. rewrite <- Hs.
  destruct (field (h_store h)); [split; [reflexivity | split; assumption] | reflexivity].
Qed.

Lemma sim_store_get_default {A : Type} (field : Store -> option A) (d : A) :
  sim (store_get_default field d) (store_get_default field d).
Proof.
  intros h h' [Hs Hx]. unfold store_get_default. rewrite <- Hs.
  split; [reflexivity | split; assumption].
Qed.

Lemma sim_store_set (update : Store -> Store) :
  sim (store_set update) (store_set update).
Proof.
  intros h h' [Hs Hx]. unfold store_set, same_core. cbn. rewrite Hs, Hx. auto.
Qed.

Lemma sim_send_event (ev : Event) : sim (send_event ev) (send_event ev).
Proof.
  intros h h' [Hs Hx]. unfold send_event, same_core. cbn. rewrite Hs, Hx. auto.
Qed.

Lemma sim_try_broadcast (n : Notification) :
  sim (try_broadcast sink n) (try_broadcast sink' n).
Proof.
  intros h h' [Hs Hx]. unfold try_broadcast, same_core.
  destruct (sink n); destruct (sink' n); cbn; auto.
Qed.

Lemma sim_first_or_send (ev : Event) (first_event : option Event) :
  sim (first_or_send ev first_event) (first_or_send ev first_event).
Proof.
  unfold first_or_send. destruct first_event.
  - apply sim_bind; [apply sim_send_event | intros; apply sim_ret].
  - apply sim_ret.
Qed.

Lemma sim_for_each {A B : Type} (xs : list A) (body body' : A -> B -> M B) (acc : B) :
  (forall x b, sim (body x b) (body' x b)) ->
  sim (for_each xs body acc) (for_each xs body' acc).
Proof.
  intros Hb. revert acc. induction xs as [|x xs IH]; intros acc; cbn [for_each].
  - apply sim_ret.
  - apply sim_bind; [apply Hb | intros; apply IH].
Qed.

Ltac sim_step :=
  first
    [ apply sim_ret
    | apply sim_raise
    | apply sim_store_get
    | apply sim_store_get_default
    | apply sim_store_set
    | apply sim_send_event
    | apply sim_try_broadcast
    | apply sim_first_or_send
    | apply sim_for_each; intros
    | apply sim_bind; [|intros]
    | match goal with
      | |- sim (if ?b then _ else _) (if ?b then _ else _) => destruct b
      | |- sim (match ?x with _ => _ end) (match ?x with _ => _ end) => destruct x
      end ].

Lemma sim_broadcast_status (a : Agent) status progress step err :
  sim (_broadcast_status sink a status progress step err)
      (_broadcast_status sink' a status progress step err).
Proof. unfold _broadcast_status. repeat sim_step. Qed.

Lemma sim_process (a : Agent) (exec : outcome pydict) :
  sim (process sink a exec) (process sink' a exec).
Proof.
  unfold process, report_progress.
  repeat first [apply sim_broadcast_status | sim_step].
Qed.

Ltac sim_handler :=
  unfold broadcast_workflow_progress;
  repeat first [apply sim_process | sim_step].

Lemma sim_handle (exec : outcome pydict) (ev : Event) :
  match handle py_repr sink exec ev, handle py_repr sink' exec ev with
  | Some m, Some m' => sim m m'
  | None, None => True
  | _, _ => False
  end.
Proof.
  destruct ev; cbn [handle]; try exact I.
  - unfold start. sim_handler.
  - unfold parse_resume. sim_handler.
  - unfold collect_phase1. sim_handler.
  - unfold analyze_jd. sim_handler.
  - unfold collect_phase1. sim_handler.
  - unfold match_skills. sim_handler.
  - unfold collect_phase2. sim_handler.
  - unfold generate_recommendations. sim_handler.
  - unfold generate_interview_prep. sim_handler.
  - unfold generate_market_insights. sim_handler.
  - unfold finalize. sim_handler.
  - unfold finalize. sim_handler.
  - unfold finalize. sim_handler.
Qed.

Lemma sim_run_handler (m m' : M (option Event)) (st : Store) :
  sim m m' -> same_outcome (run_handler m st) (run_handler m' st).
Proof.
  intros H. unfold run_handler, same_outcome.
  specialize (H {| h_store := st; h_sent := []; h_progress := [] |}
                {| h_store := st; h_sent := []; h_progress := [] |}
                (conj eq_refl eq_refl)).
  destruct (m _) as [[r h]|e]; destruct (m' _) as [[r' h']|e']; try contradiction.
  - destruct H as [<- [Hs Hx]]. cbn. auto.
  - exact H.
Qed.

End ProgressIndependence.

(** C7. For every progress sink, whatever it does with a notification:
    (1) a call to [broadcast_workflow_progress] returns normally to the
    handler that made it; if the sink raised, the handler state is exactly
    what it was, and in every case the run context and the events already
    sent are untouched; (2) hence every handler the registry can run has,
    on every event and run context, the outcome it has with a sink that
    accepts everything: the same context, the same events sent and
    returned, or the same exception of its own. A failing sink never makes
    a handler fail. *)
Theorem progress_failure_never_fails_a_handler
    (sink : Notification -> outcome unit) :
  (forall sid agent status progress current_step h,
      (forall e,
          sink {| n_session_id := sid; n_agent_name := agent; n_status := status;
                  n_progress := progress; n_current_step := current_step;
                  n_error := None |} = Raised e ->
          broadcast_workflow_progress sink sid agent status progress current_step h
          = Returned (tt, h))
      /\ (exists p,
            broadcast_workflow_progress sink sid agent status progress current_step h
            = Returned (tt, with_progress h p)))
  /\ (forall py_repr exec ev m m_ok st,
         handle py_repr sink exec ev = Some m ->
         handle py_repr sink_ok exec ev = Some m_ok ->
         same_outcome (run_handler m st) (run_handler m_ok st)).
Proof.
  split.
  - intros. apply broadcast_workflow_progress_run.
  - intros py_repr exec ev m m_ok st Hm Hok.
    pose proof (sim_handle py_repr sink sink_ok exec ev) as Hsim.
    rewrite Hm, Hok in Hsim. apply sim_run_handler. exact Hsim.
Qed.

(** * Sessions, connections and the analysis endpoints *)

(** ** Dict lookups after an update *)

Lemma dict_get_set_same {V : Type} (k : string) (v : V) (d : dict V) :
  Dict.get k (Dict.set k v d) = Some v.
Proof.
  induction d as [|[k0 v0] d IH]; cbn [Dict.set Dict.get].
  - now rewrite String.eqb_refl.
  - destruct (String.eqb_spec k k0) as [->|Hne]; cbn [Dict.get].
    + now rewrite String.eqb_refl.
    + destruct (String.eqb_spec k k0); [contradiction|exact IH].
Qed.

Lemma dict_get_set_other {V : Type} (k k' : string) (v : V) (d : dict V) :
  k <> k' -> Dict.get k' (Dict.set k v d) = Dict.get k' d.
Proof.
  intros Hne. induction d as [|[k0 v0] d IH]; cbn [Dict.set Dict.get].
  - destruct (String.eqb_spec k' k); [congruence|reflexivity].
  - destruct (String.eqb_spec k k0) as [->|Hne0]; cbn [Dict.get].
    + destruct (String.eqb_spec k' k0); [congruence|reflexivity].
    + destruct (String.eqb_spec k' k0); [reflexivity|exact IH].
Qed.

Lemma dict_get_del_same {V : Type} (k : string) (d : dict V) :
  Dict.get k (dict_del k d) = None.
Proof.
  unfold dict_del. induction d as [|[k0 v0] d IH]; cbn [filter Dict.get fst].
  - reflexivity.
  - destruct (String.eqb_spec k k0) as [->|Hne]; cbn [negb Dict.get].
    + exact IH.
    + destruct (String.eqb_spec k k0); [contradiction|exact IH].
Qed.

Lemma dict_get_del_other {V : Type} (k k' : string) (d : dict V) :
  k <> k' -> Dict.get k' (dict_del k d) = Dict.get k' d.
Proof.
  intros Hne. unfold dict_del.
  induction d as [|[k0 v0] d IH]; cbn [filter Dict.get fst].
  - reflexivity.
  - destruct (String.eqb_spec k k0) as [->|Hne0]; cbn [negb Dict.get].
    + destruct (String.eqb_spec k' k0); [congruence|exact IH].
    + destruct (String.eqb_spec k' k0); [reflexivity|exact IH].
Qed.

Lemma dict_get_keys {V : Type} (k : string) (d : dict V) :
  Dict.get k d <> None <-> In k (Dict.keys d).
Proof.
  unfold Dict.keys. induction d as [|[k0 v0] d IH]; cbn [Dict.get map fst In].
  - intuition congruence.
  - destruct (String.eqb_spec k k0) as [->|Hne].
    + split; [intros _; now left | intros _; discriminate].
    + rewrite IH. intuition congruence.
Qed.

Lemma dict_contains_keys {V : Type} (k : string) (d : dict V) :
  dict_contains k d = true <-> In k (Dict.keys d).
Proof.
  rewrite <- dict_get_keys. unfold dict_contains.
  destruct (Dict.get k d); split; congruence.
Qed.

Lemma dict_get_in {V : Type} (k : string) (v : V) (d : dict V) :
  Dict.get k d = Some v -> In (k, v) d.
Proof.
  induction d as [|[k0 v0] d IH]; cbn [Dict.get In]; [discriminate|].
  destruct (String.eqb_spec k k0) as [->|Hne].
  - intros [= ->]. now left.
  - intros H. right. exact (IH H).
Qed.

Lemma dict_in_get {V : Type} (k : string) (v : V) (d : dict V) :
  NoDup (Dict.keys d) -> In (k, v) d -> Dict.get k d = Some v.
Proof.
  unfold Dict.keys. induction d as [|[k0 v0] d IH]; cbn [Dict.get In map fst];
    [intros _ []|].
  intros Hnd [Heq|Hin].
  - injection Heq as -> ->. now rewrite String.eqb_refl.
  - inversion Hnd as [|? ? Hnot Hnd']; subst.
    destruct (String.eqb_spec k k0) as [->|Hne].
    + exfalso. apply Hnot. apply in_map_iff. now exists (k0, v).
    + exact (IH Hnd' Hin).
Qed.

Lemma dict_set_length {V : Type} (k : string) (v : V) (d : dict V) :
  length (Dict.set k v d)
  = if dict_contains k d then length d else S (length d).
Proof.
  unfold dict_contains.
  induction d as [|[k0 v0] d IH]; cbn [Dict.set Dict.get length].
  - reflexivity.
  - destruct (String.eqb_spec k k0) as [->|Hne]; cbn [length].
    + reflexivity.
    + rewrite IH. now destruct (Dict.get k d).
Qed.

Lemma dict_del_in {V : Type} (k : string) (kv : string * V) (d : dict V) :
  In kv (dict_del k d) <-> In kv d /\ fst kv <> k.
Proof.
  unfold dict_del. rewrite filter_In.
  destruct (String.eqb_spec k (fst kv)) as [->|Hne]; cbn [negb];
    intuition congruence.
Qed.

Lemma dict_del_keys_nodup {V : Type} (k : string) (d : dict V) :
  NoDup (Dict.keys d) -> NoDup (Dict.keys (dict_del k d)).
Proof.
  unfold Dict.keys, dict_del.
  induction d as [|[k0 v0] d IH]; cbn [filter map fst]; intros H.
  - constructor.
  - inversion H as [|? ? Hnot Hnd]; subst.
    destruct (String.eqb_spec k k0) as [->|Hne]; cbn [negb map fst].
    + exact (IH Hnd).
    + constructor; [|exact (IH Hnd)].
      intros Hin. apply Hnot. apply in_map_iff in Hin as [[k1 v1] [Hk Hin]].
      apply filter_In in Hin as [Hin _]. apply in_map_iff. now exists (k1, v1).
Qed.


(** ** The session table stays well formed *)

Lemma Forall_dict_set {V : Type} (P : string * V -> Prop) (k : string) (v : V)
    (d : dict V) :
  Forall P d -> P (k, v) -> Forall P (Dict.set k v d).
Proof.
  intros Hd Hkv. induction Hd as [|[k0 v0] d H0 Hd IH]; cbn [Dict.set].
  - constructor; [exact Hkv|constructor].
  - destruct (String.eqb_spec k k0) as [->|Hne].
    + constructor; [exact Hkv|exact Hd].
    + constructor; [exact H0|exact IH].
Qed.

Lemma Forall_dict_del {V : Type} (P : string * V -> Prop) (k : string) (d : dict V) :
  Forall P d -> Forall P (dict_del k d).
Proof.
  intros Hd. unfold dict_del. apply Forall_forall. intros kv Hin.
  apply filter_In in Hin as [Hin _]. revert kv Hin. now apply Forall_forall.
Qed.

Lemma sessions_ok_del (k : string) (m : Session.sessions) :
  sessions_ok m -> sessions_ok (dict_del k m).
Proof.
  intros [Hnd Hall]. split.
  - now apply dict_del_keys_nodup.
  - now apply Forall_dict_del.
Qed.

Lemma sessions_ok_set (k : string) (s : Session.SessionData) (m : Session.sessions) :
  sessions_ok m -> session_ok (k, s) -> sessions_ok (Dict.set k s m).
Proof.
  intros [Hnd Hall] Hs. split.
  - now apply dict_keys_set_nodup.
  - now apply Forall_dict_set.
Qed.

Lemma sessions_ok_get (k : string) (s : Session.SessionData) (m : Session.sessions) :
  sessions_ok m -> Dict.get k m = Some s -> session_ok (k, s).
Proof.
  intros [_ Hall] Hget. apply dict_get_in in Hget.
  revert Hget. now apply Forall_forall.
Qed.

Lemma sessions_ok_get_session (now : Z) (sid : string) (m : Session.sessions) :
  sessions_ok m ->
  sessions_ok (fst (Session.get_session now sid m))
  /\ forall s, snd (Session.get_session now sid m) = Some s ->
               session_ok (sid, s)
               /\ Dict.get sid (fst (Session.get_session now sid m)) = Some s.
Proof.
  intros Hok. unfold Session.get_session.
  destruct (Dict.get sid m) as [s|] eqn:Hget; cbn [fst snd].
  - destruct (Session.is_expired now s); cbn [fst snd].
    + split; [now apply sessions_ok_del|discriminate].
    + split; [exact Hok|]. intros s' [= <-].
      split; [exact (sessions_ok_get _ _ _ Hok Hget)|exact Hget].
  - split; [exact Hok|discriminate].
Qed.

Lemma sessions_ok_update_session (s : Session.SessionData) (m : Session.sessions) :
  sessions_ok m -> session_ok (Session.session_id s, s) ->
  sessions_ok (Session.update_session s m).
Proof.
  intros Hok Hs. unfold Session.update_session.
  destruct (dict_contains (Session.session_id s) m); [|exact Hok].
  now apply sessions_ok_set.
Qed.

(** Storing a changed session object: the in-place change, then
    [update_session]. *)
Lemma sessions_ok_store (sid : string) (s : Session.SessionData)
    (m : Session.sessions) :
  sessions_ok m -> session_ok (sid, s) ->
  sessions_ok (Session.update_session s (Session.assign sid s m)).
Proof.
  intros Hok Hs. apply sessions_ok_update_session.
  - unfold Session.assign. now apply sessions_ok_set.
  - destruct Hs as [Hid Hrest]. cbn [fst snd] in *. rewrite Hid.
    split; [cbn [fst snd]; exact Hid|exact Hrest].
Qed.

Lemma sessions_ok_cleanup (now : Z) (m : Session.sessions) :
  sessions_ok m -> sessions_ok (fst (Session._cleanup_expired now m)).
Proof.
  unfold Session._cleanup_expired. cbn [fst].
  generalize (map fst (filter (fun kv => Session.is_expired now (snd kv)) m)).
  intros expired. revert m.
  induction expired as [|sid expired IH]; intros m Hok; cbn [fold_left].
  - exact Hok.
  - apply IH. now apply sessions_ok_del.
Qed.

Ltac session_step Hok now sid m :=
  let Hm := fresh "Hm" in
  let Hs := fresh "Hs" in
  let m' := fresh "m'" in
  destruct (sessions_ok_get_session now sid m Hok) as [Hm Hs];
  destruct (Session.get_session now sid m) as [m' [got|]];
  cbn [fst snd] in *;
  [destruct (Hs got eq_refl) as [[Hid [Hlen Hnd]] Hget]; cbn [fst snd] in *
  | try exact Hm].

Lemma sessions_ok_serve (rq : Request) (m : Session.sessions) :
  sessions_ok m -> sessions_ok (serve rq m).
Proof.
  intros Hok. destruct rq; cbn [serve].
  - unfold Session.create_session.
    set (m1 := if Nat.leb Session.MAX_SESSIONS (length m)
               then fst (Session._cleanup_expired now m) else m).
    assert (Hm1 : sessions_ok m1).
    { subst m1. destruct (Nat.leb Session.MAX_SESSIONS (length m));
        [now apply sessions_ok_cleanup|exact Hok]. }
    destruct (find _ candidates) as [sid|]; [|exact Hok].
    apply sessions_ok_set; [exact Hm1|].
    unfold session_ok, Session.new_session, Session.MAX_JDS_PER_SESSION.
    cbn. repeat split; [apply Nat.le_0_l|constructor].
  - now apply sessions_ok_get_session.
  - unfold Session.delete_session. destruct (dict_contains sid m); cbn [fst];
      [now apply sessions_ok_del|exact Hok].
  - unfold Session.set_resume. session_step Hok now sid m.
    apply sessions_ok_store; [exact Hm|].
    unfold session_ok. cbn. auto.
  - unfold Session.add_job_description. session_step Hok now sid m.
    destruct (Nat.leb_spec Session.MAX_JDS_PER_SESSION
                (length (Session.job_descriptions got))) as [Hfull|Hroom];
      cbn [fst]; [exact Hm|].
    apply sessions_ok_store; [exact Hm|].
    unfold session_ok. cbn. split; [exact Hid|]. split.
    + rewrite dict_set_length.
      destruct (dict_contains jid (Session.job_descriptions got));
        [exact Hlen|exact Hroom].
    + now apply dict_keys_set_nodup.
  - unfold Session.set_analysis_results. session_step Hok now sid m.
    apply sessions_ok_store; [exact Hm|].
    unfold session_ok. cbn. auto.
  - unfold Session.update_agent_progress. session_step Hok now sid m.
    apply sessions_ok_store; [exact Hm|].
    unfold session_ok. cbn. auto.
  - unfold Routes.analyze. session_step Hok now body_session_id m.
    destruct (Session.resume_id got); cbn [fst]; [|exact Hm].
    destruct (Nat.eqb _ 0); cbn [fst]; [exact Hm|].
    destruct (String.eqb _ "running"); cbn [fst]; [exact Hm|].
    apply sessions_ok_store; [exact Hm|].
    unfold session_ok. cbn. auto.
  - unfold Routes.run_analysis.
    destruct (match Routes.start_event_of session with
              | Returned start_event => workflow_run start_event
              | Raised e => Raised e
              end) as [result|e]; cbn [fst].
    + destruct (res_success result); [|exact Hok].
      unfold Session.set_analysis_results.
      session_step Hok now (Session.session_id session) m.
      apply sessions_ok_store; [exact Hm|].
      unfold session_ok. cbn. auto.
    + session_step Hok now body_session_id m.
      apply sessions_ok_store; [exact Hm|].
      unfold session_ok. cbn. auto.
Qed.

(** X8. Whatever requests are served, starting from the empty table, every
    session is stored once and under its own id, and no session ever holds
    more than [MAX_JDS_PER_SESSION] = 5 job descriptions. *)
Theorem session_table_stays_well_formed (rqs : list Request) :
  let m := fold_left (fun m rq => serve rq m) rqs [] in
  NoDup (Dict.keys m)
  /\ forall sid s,
       Dict.get sid m = Some s ->
       Session.session_id s = sid
       /\ length (Session.job_descriptions s) <= 5
       /\ NoDup (Dict.keys (Session.job_descriptions s)).
Proof.
  cbv zeta.
  assert (Hok : sessions_ok (fold_left (fun m rq => serve rq m) rqs [])).
  { assert (H0 : sessions_ok []) by (split; constructor).
    revert H0. generalize (@nil (string * Session.SessionData)).
    induction rqs as [|rq rqs IH]; intros m Hm; cbn [fold_left].
    - exact Hm.
    - apply IH. now apply sessions_ok_serve. }
  split; [exact (proj1 Hok)|].
  intros sid s Hget. exact (sessions_ok_get _ _ _ Hok Hget).
Qed.

(** ** Expiry *)

(** X9. [get_session] returns a session exactly while the clock has not
    passed its expiry time (a reading equal to it still finds the session),
    and then leaves the table as it is. A session
    that was reported missing stays missing for every later call, whatever
    the clock reads then: an expired session is deleted on first access.
    No other session is touched. *)
Theorem expired_session_is_gone_for_good (now : Z) (sid : string)
    (m : Session.sessions) :
  let m' := fst (Session.get_session now sid m) in
  (forall s, snd (Session.get_session now sid m) = Some s ->
             Dict.get sid m = Some s /\ (now <= Session.expires_at s)%Z /\ m' = m)
  /\ (forall s, Dict.get sid m = Some s -> (now <= Session.expires_at s)%Z ->
                Session.get_session now sid m = (m, Some s))
  /\ (snd (Session.get_session now sid m) = None ->
      forall now', Session.get_session now' sid m' = (m', None))
  /\ (forall sid', sid' <> sid -> Dict.get sid' m' = Dict.get sid' m).
Proof.
  cbv zeta. unfold Session.get_session, Session.is_expired.
  destruct (Dict.get sid m) as [s|] eqn:Hget.
  - destruct (Z.gtb_spec now (Session.expires_at s)) as [Hgt|Hle]; cbn [fst snd].
    + split; [discriminate|]. split; [|split].
      * intros s' [= <-] Hle. exfalso. apply (Z.lt_irrefl now).
        eapply Z.le_lt_trans; eassumption.
      * intros _ now'. now rewrite dict_get_del_same.
      * intros sid' Hne. apply dict_get_del_other. congruence.
    + split; [intros s' [= <-]; auto|]. split; [intros s' [= <-] _; reflexivity|].
      split; [discriminate|reflexivity].
  - cbn [fst snd]. split; [discriminate|]. split; [discriminate|].
    split; [|reflexivity].
    intros _ now'. now rewrite Hget.
Qed.

(** ** Job descriptions *)

Lemma get_after_store (sid : string) (s : Session.SessionData)
    (m : Session.sessions) :
  Dict.get sid (Session.update_session s (Session.assign sid s m)) = Some s.
Proof.
  unfold Session.update_session, Session.assign.
  destruct (dict_contains (Session.session_id s) (Dict.set sid s m)).
  - destruct (String.eqb_spec (Session.session_id s) sid) as [->|Hne].
    + apply dict_get_set_same.
    + rewrite dict_get_set_other by exact Hne. apply dict_get_set_same.
  - apply dict_get_set_same.
Qed.

(** X10. [add_job_description] succeeds exactly when the session is live
    and holds fewer than five job descriptions; at the limit it refuses
    even a job id the session already has. On success the session read
    back holds the new description under the job id and every other
    description as before; on refusal nothing is stored. *)
Theorem add_job_description_up_to_the_limit (now : Z) (sid jid : string)
    (parsed_jd : pydict) (m : Session.sessions) :
  let r := Session.add_job_description now sid jid parsed_jd m in
  (snd r = true <->
   exists s, snd (Session.get_session now sid m) = Some s
             /\ length (Session.job_descriptions s) < 5)
  /\ (forall s, snd (Session.get_session now sid m) = Some s ->
                snd r = true ->
                exists s',
                  Dict.get sid (fst r) = Some s'
                  /\ Dict.get jid (Session.job_descriptions s') = Some parsed_jd
                  /\ forall j, j <> jid ->
                               Dict.get j (Session.job_descriptions s')
                               = Dict.get j (Session.job_descriptions s))
  /\ (snd r = false -> fst r = fst (Session.get_session now sid m)).
Proof.
  cbv zeta. unfold Session.add_job_description.
  destruct (Session.get_session now sid m) as [m' [s|]]; cbn [fst snd].
  - destruct (Nat.leb_spec Session.MAX_JDS_PER_SESSION
                (length (Session.job_descriptions s))) as [Hfull|Hroom];
      unfold Session.MAX_JDS_PER_SESSION in *; cbn [fst snd].
    + split; [|split; [discriminate|reflexivity]].
      split; [discriminate|]. intros [s' [[= <-] Hlt]].
      exfalso. apply (Nat.lt_irrefl 5). eapply Nat.le_lt_trans; eassumption.
    + split; [|split; [|discriminate]].
      * split; [intros _; exists s; auto|reflexivity].
      * intros s0 [= <-] _. eexists. split; [apply get_after_store|].
        cbn. split; [apply dict_get_set_same|].
        intros j Hne. apply dict_get_set_other. congruence.
  - split; [|split; [discriminate|reflexivity]].
    split; [discriminate|]. intros [s [[=] _]].
Qed.

(** ** Deleting and cleaning up *)

(** X11. [delete_session] reports [True] exactly when the id is stored,
    expired or not; afterwards the id is missing at every clock reading, a
    second deletion reports [False], and the other sessions are as
    before. *)
Theorem delete_session_removes_once (sid : string) (m : Session.sessions) :
  let m' := fst (Session.delete_session sid m) in
  (snd (Session.delete_session sid m) = true <-> In sid (Dict.keys m))
  /\ (forall now, Session.get_session now sid m' = (m', None))
  /\ Session.delete_session sid m' = (m', false)
  /\ (forall sid', sid' <> sid -> Dict.get sid' m' = Dict.get sid' m).
Proof.
  cbv zeta. unfold Session.delete_session.
  pose proof (dict_contains_keys sid m) as Hk.
  destruct (dict_contains sid m) eqn:Hc; cbn [fst snd].
  - assert (Hgone : Dict.get sid (dict_del sid m) = None)
      by apply dict_get_del_same.
    split; [tauto|]. split; [|split].
    + intros now. unfold Session.get_session. now rewrite Hgone.
    + unfold dict_contains. now rewrite Hgone.
    + intros sid' Hne. apply dict_get_del_other. congruence.
  - assert (Hgone : Dict.get sid m = None).
    { unfold dict_contains in Hc. now destruct (Dict.get sid m). }
    split; [|split; [|split]].
    + split; [discriminate|]. intros Hin. now apply Hk.
    + intros now. unfold Session.get_session. now rewrite Hgone.
    + now rewrite Hc.
    + reflexivity.
Qed.

Lemma fold_dict_del_in {V : Type} (ks : list string) (kv : string * V) (d : dict V) :
  In kv (fold_left (fun d k => dict_del k d) ks d) <-> In kv d /\ ~ In (fst kv) ks.
Proof.
  revert d. induction ks as [|k ks IH]; intros d; cbn [fold_left In].
  - tauto.
  - rewrite IH, dict_del_in. intuition congruence.
Qed.

Lemma filter_partition_length {A : Type} (f : A -> bool) (l : list A) :
  length (filter f l) + length (filter (fun x => negb (f x)) l) = length l.
Proof.
  induction l as [|x l IH]; cbn [filter length]; [reflexivity|].
  destruct (f x); cbn [negb length]; rewrite <- IH; [reflexivity|].
  now rewrite Nat.add_succ_r.
Qed.

Lemma fold_dict_del_filter {V : Type} (ks : list string) (d : dict V) :
  fold_left (fun d k => dict_del k d) ks d
  = filter (fun kv => negb (existsb (String.eqb (fst kv)) ks)) d.
Proof.
  revert d. induction ks as [|k ks IH]; intros d; cbn [fold_left existsb].
  - induction d as [|kv d IHd]; cbn [filter negb]; [reflexivity|].
    now f_equal.
  - rewrite IH. unfold dict_del.
    induction d as [|kv d IHd]; cbn [filter]; [reflexivity|].
    rewrite (String.eqb_sym (fst kv) k).
    destruct (String.eqb k (fst kv)); cbn [negb filter orb]; [exact IHd|].
    destruct (existsb (String.eqb (fst kv)) ks); cbn [negb]; [exact IHd|].
    now f_equal.
Qed.

(** X12. [_cleanup_expired] keeps exactly the sessions that have not
    expired and returns the number of sessions it removed. *)
Theorem cleanup_removes_exactly_the_expired (now : Z) (m : Session.sessions) :
  NoDup (Dict.keys m) ->
  let r := Session._cleanup_expired now m in
  (forall kv, In kv (fst r) <-> In kv m /\ Session.is_expired now (snd kv) = false)
  /\ snd r + length (fst r) = length m.
Proof.
  intros Hnd. cbv zeta. unfold Session._cleanup_expired. cbn [fst snd].
  assert (Hexp : forall kv, In kv m ->
            (In (fst kv) (map fst (filter (fun kv => Session.is_expired now (snd kv)) m))
             <-> Session.is_expired now (snd kv) = true)).
  { intros kv Hin. rewrite in_map_iff. split.
    - intros [kv' [Hk Hin']]. apply filter_In in Hin' as [Hin' Hex].
      destruct kv as [k v], kv' as [k' v']. cbn [fst snd] in *. subst k'.
      pose proof (dict_in_get _ _ _ Hnd Hin) as H1.
      pose proof (dict_in_get _ _ _ Hnd Hin') as H2.
      congruence.
    - intros Hex. exists kv. split; [reflexivity|]. apply filter_In. auto. }
  split.
  - intros kv. rewrite fold_dict_del_in. split.
    + intros [Hin Hnot]. split; [exact Hin|].
      destruct (Session.is_expired now (snd kv)) eqn:Hex; [|reflexivity].
      exfalso. apply Hnot. now apply Hexp.
    + intros [Hin Hex]. split; [exact Hin|].
      intros Hk. apply Hexp in Hk; [congruence|exact Hin].
  - rewrite fold_dict_del_filter, length_map.
    rewrite <- (filter_partition_length (fun kv => Session.is_expired now (snd kv)) m).
    f_equal. f_equal. apply filter_ext_in. intros kv Hin.
    f_equal.
    destruct (Session.is_expired now (snd kv)) eqn:Hex.
    + apply existsb_exists. exists (fst kv). split; [|apply String.eqb_refl].
      now apply Hexp.
    + destruct (existsb _ _) eqn:Hx; [|reflexivity].
      apply existsb_exists in Hx as [k [Hk Heq]]. apply String.eqb_eq in Heq.
      subst k. apply Hexp in Hk; [congruence|exact Hin].
Qed.

(** ** Creating sessions *)

Lemma dict_get_del_none {V : Type} (k k' : string) (d : dict V) :
  Dict.get k' d = None -> Dict.get k' (dict_del k d) = None.
Proof.
  intros H. destruct (String.eqb_spec k k') as [->|Hne].
  - apply dict_get_del_same.
  - now rewrite dict_get_del_other.
Qed.

Lemma cleanup_get_none (now : Z) (sid : string) (m : Session.sessions) :
  Dict.get sid m = None ->
  Dict.get sid (fst (Session._cleanup_expired now m)) = None.
Proof.
  unfold Session._cleanup_expired. cbn [fst].
  generalize (map fst (filter (fun kv => Session.is_expired now (snd kv)) m)).
  intros ks. revert m. induction ks as [|k ks IH]; intros m H; cbn [fold_left].
  - exact H.
  - apply IH. now apply dict_get_del_none.
Qed.

Lemma cleanup_nothing_expired (now : Z) (m : Session.sessions) :
  (forall kv, In kv m -> Session.is_expired now (snd kv) = false) ->
  Session._cleanup_expired now m = (m, 0).
Proof.
  intros H. unfold Session._cleanup_expired.
  assert (Hnil : filter (fun kv => Session.is_expired now (snd kv)) m = []).
  { induction m as [|kv m IH]; cbn [filter]; [reflexivity|].
    rewrite (H kv (or_introl eq_refl)). apply IH.
    intros kv' Hin. apply H. now right. }
  now rewrite Hnil.
Qed.

(** X13. [create_session] never refuses for lack of room: as soon as an
    id that is not in use comes up it stores a new session, with no resume,
    no job description and status [pending], that expires one hour after
    the clock reading taken for it. Unless expired sessions were cleaned up
    on the way, the table grows by one, at [MAX_SESSIONS] and beyond, and
    the other sessions are as before. *)
Theorem create_session_is_fresh_and_never_refused (candidates : list string)
    (now created expiry_base : Z) (m : Session.sessions) :
  ((exists c, In c candidates /\ Dict.get c m = None) ->
   exists m' s,
     Session.create_session candidates now created expiry_base m = Some (m', s))
  /\ forall m' s,
       Session.create_session candidates now created expiry_base m = Some (m', s) ->
       s = Session.new_session (Session.session_id s) created
                               (expiry_base + 3600000000)%Z
       /\ In (Session.session_id s) candidates
       /\ Dict.get (Session.session_id s) m' = Some s
       /\ (length m < Session.MAX_SESSIONS
           \/ (forall kv, In kv m -> Session.is_expired now (snd kv) = false) ->
           Dict.get (Session.session_id s) m = None
           /\ length m' = S (length m)
           /\ forall sid, sid <> Session.session_id s ->
                          Dict.get sid m' = Dict.get sid m).
Proof.
  unfold Session.create_session.
  set (m1 := if Nat.leb Session.MAX_SESSIONS (length m)
             then fst (Session._cleanup_expired now m) else m).
  split.
  - intros [c [Hin Hnone]].
    destruct (find _ candidates) as [sid|] eqn:Hfind; [eauto|].
    exfalso. pose proof (find_none _ _ Hfind c Hin) as Hc. cbn beta in Hc.
    apply negb_false_iff in Hc. unfold dict_contains in Hc.
    assert (H1 : Dict.get c m1 = None).
    { subst m1. destruct (Nat.leb Session.MAX_SESSIONS (length m));
        [now apply cleanup_get_none|exact Hnone]. }
    rewrite H1 in Hc. discriminate.
  - intros m' s. destruct (find _ candidates) as [sid|] eqn:Hfind; [|discriminate].
    intros [= <- <-]. apply find_some in Hfind as [Hin Hfresh].
    apply negb_true_iff in Hfresh.
    cbn [Session.session_id Session.new_session].
    split; [reflexivity|]. split; [exact Hin|].
    split; [apply dict_get_set_same|].
    intros Hroom.
    assert (Hm1 : m1 = m).
    { subst m1. destruct (Nat.leb_spec Session.MAX_SESSIONS (length m)) as [Hfull|_];
        [|reflexivity].
      destruct Hroom as [Hlt|Hlive].
      - exfalso. apply (Nat.lt_irrefl (length m)).
        eapply Nat.lt_le_trans; eassumption.
      - now rewrite cleanup_nothing_expired. }
    rewrite Hm1 in *.
    assert (Hnone : Dict.get sid m = None).
    { unfold dict_contains in Hfresh. now destruct (Dict.get sid m). }
    split; [exact Hnone|]. split.
    + rewrite dict_set_length. now rewrite Hfresh.
    + intros sid' Hne. apply dict_get_set_other. congruence.
Qed.

(** ** Broadcasting to the connections of a session *)

Lemma set_mem_In (ws : Websocket.WebSocket) (s : list Websocket.WebSocket) :
  Websocket.set_mem ws s = true <-> In ws s.
Proof.
  unfold Websocket.set_mem. rewrite existsb_exists. split.
  - intros [x [Hin Heq]]. apply Nat.eqb_eq in Heq. now subst.
  - intros Hin. exists ws. split; [exact Hin|apply Nat.eqb_refl].
Qed.

Lemma set_add_In (ws x : Websocket.WebSocket) (s : list Websocket.WebSocket) :
  In x (Websocket.set_add ws s) <-> x = ws \/ In x s.
Proof.
  unfold Websocket.set_add. destruct (Websocket.set_mem ws s) eqn:Hm.
  - apply set_mem_In in Hm. intuition congruence.
  - rewrite in_app_iff. cbn [In]. intuition congruence.
Qed.

Lemma set_discard_In (ws x : Websocket.WebSocket) (s : list Websocket.WebSocket) :
  In x (Websocket.set_discard ws s) <-> In x s /\ x <> ws.
Proof.
  unfold Websocket.set_discard. rewrite filter_In.
  destruct (Nat.eqb_spec ws x) as [->|Hne]; cbn [negb]; intuition congruence.
Qed.

Lemma fold_set_add_In (xs acc : list Websocket.WebSocket) (x : Websocket.WebSocket) :
  In x (fold_left (fun s ws => Websocket.set_add ws s) xs acc) <-> In x acc \/ In x xs.
Proof.
  revert acc. induction xs as [|y xs IH]; intros acc; cbn [fold_left In].
  - tauto.
  - rewrite IH, set_add_In. intuition congruence.
Qed.

Lemma fold_set_discard (ds s : list Websocket.WebSocket) :
  fold_left (fun l ws => Websocket.set_discard ws l) ds s
  = filter (fun x => negb (Websocket.set_mem x ds)) s.
Proof.
  revert s. induction ds as [|d ds IH]; intros s; cbn [fold_left].
  - induction s as [|x s IHs]; cbn [filter Websocket.set_mem existsb negb];
      [reflexivity|now f_equal].
  - rewrite IH. unfold Websocket.set_discard, Websocket.set_mem.
    induction s as [|x s IHs]; cbn [filter existsb]; [reflexivity|].
    rewrite (Nat.eqb_sym x d).
    destruct (Nat.eqb d x); cbn [negb filter orb]; [exact IHs|].
    destruct (existsb (Nat.eqb x) ds); cbn [negb]; [exact IHs|now f_equal].
Qed.

Lemma broadcast_sends (send_json : Websocket.WebSocket -> pydict -> outcome unit)
    (message : pydict) (conns : list Websocket.WebSocket)
    (acc : list (Websocket.WebSocket * pydict) * list Websocket.WebSocket) :
  fold_left
    (fun (acc : list (Websocket.WebSocket * pydict) * list Websocket.WebSocket)
         connection =>
       match send_json connection message with
       | Returned _ => ((fst acc ++ [(connection, message)])%list, snd acc)
       | Raised _ => (fst acc, Websocket.set_add connection (snd acc))
       end)
    conns acc
  = ((fst acc
      ++ map (fun ws => (ws, message))
             (filter (fun ws => returns (send_json ws message)) conns))%list,
     fold_left (fun s ws => Websocket.set_add ws s)
               (filter (fun ws => negb (returns (send_json ws message))) conns)
               (snd acc)).
Proof.
  revert acc. induction conns as [|ws conns IH]; intros [d x];
    cbn [fold_left filter map fst snd].
  - now rewrite app_nil_r.
  - rewrite IH. destruct (send_json ws message) as [u|e];
      cbn [returns negb fst snd map fold_left].
    + now rewrite <- app_assoc.
    + reflexivity.
Qed.

Lemma broadcast_discards (sid : string) (ds conns : list Websocket.WebSocket)
    (c : Websocket.connections) :
  Dict.get sid c = Some conns ->
  let c' := fold_left
              (fun c' connection =>
                 Dict.set sid (Websocket.set_discard connection
                                 (Dict.get_default sid [] c')) c')
              ds c in
  Dict.get sid c' = Some (fold_left (fun l ws => Websocket.set_discard ws l) ds conns)
  /\ forall sid', sid' <> sid -> Dict.get sid' c' = Dict.get sid' c.
Proof.
  cbv zeta. revert conns c. induction ds as [|d ds IH]; intros conns c Hget;
    cbn [fold_left].
  - split; [exact Hget|reflexivity].
  - replace (Dict.get_default sid [] c) with conns
      by (unfold Dict.get_default; now rewrite Hget).
    destruct (IH (Websocket.set_discard d conns)
                 (Dict.set sid (Websocket.set_discard d conns) c)) as [H1 H2];
      [apply dict_get_set_same|].
    split; [exact H1|].
    intros sid' Hne. rewrite (H2 sid' Hne). apply dict_get_set_other. congruence.
Qed.

Lemma broadcast_reached
    (send_json : Websocket.WebSocket -> pydict -> outcome unit)
    (stamp sid : string) (message : pydict) (c : Websocket.connections) :
  let stamped := Dict.set "timestamp" (VStr stamp) message in
  let r := Websocket.broadcast_to_session send_json stamp sid message c in
  (Dict.get sid c = None -> r = (c, []))
  /\ (forall conns,
        Dict.get sid c = Some conns ->
        let reached := filter (fun ws => returns (send_json ws stamped)) conns in
        snd r = map (fun ws => (ws, stamped)) reached
        /\ Dict.get sid (fst r) = Some reached)
  /\ (forall sid', sid' <> sid -> Dict.get sid' (fst r) = Dict.get sid' c).
Proof.
  cbv zeta. unfold Websocket.broadcast_to_session.
  destruct (Dict.get sid c) as [conns|] eqn:Hget.
  - rewrite broadcast_sends. cbn [fst snd app].
    set (stamped := Dict.set "timestamp" (VStr stamp) message).
    set (ds := fold_left (fun s ws => Websocket.set_add ws s)
                 (filter (fun ws => negb (returns (send_json ws stamped))) conns) []).
    destruct (broadcast_discards sid ds conns c Hget) as [H1 H2].
    split; [discriminate|]. split; [|exact H2].
    intros conns' [= <-]. split; [reflexivity|].
    rewrite H1, fold_set_discard. f_equal. apply filter_ext_in.
    intros ws Hin. destruct (returns (send_json ws stamped)) eqn:Hr.
    + apply negb_true_iff. destruct (Websocket.set_mem ws ds) eqn:Hm; [|reflexivity].
      apply set_mem_In in Hm. subst ds. apply fold_set_add_In in Hm as [[]|Hm].
      apply filter_In in Hm as [_ Hm]. rewrite Hr in Hm. discriminate.
    + apply negb_false_iff. apply set_mem_In. subst ds. apply fold_set_add_In.
      right. apply filter_In. split; [exact Hin|]. now rewrite Hr.
  - split; [reflexivity|]. split; [discriminate|reflexivity].
Qed.

(** X14. [broadcast_to_session] adds the timestamp to the message and
    delivers it to the connections of the session whose [send_json]
    returns; the connections it leaves for the session are exactly those
    it delivered to, a failed send costing the connection its place. The
    entry of the session stays, even with no connection left, the
    connections of other sessions are untouched, and a session without an
    entry gets nothing. *)
Theorem broadcast_keeps_exactly_the_reached
    (send_json : Websocket.WebSocket -> pydict -> outcome unit)
    (stamp sid : string) (message : pydict) (c : Websocket.connections) :
  let stamped := Dict.set "timestamp" (VStr stamp) message in
  let r := Websocket.broadcast_to_session send_json stamp sid message c in
  (Dict.get sid c = None -> r = (c, []))
  /\ (forall conns,
        Dict.get sid c = Some conns ->
        let reached := filter (fun ws => returns (send_json ws stamped)) conns in
        snd r = map (fun ws => (ws, stamped)) reached
        /\ Dict.get sid (fst r) = Some reached)
  /\ (forall sid', sid' <> sid -> Dict.get sid' (fst r) = Dict.get sid' c).
Proof.
  exact (broadcast_reached send_json stamp sid message c).
Qed.

(** ** Connecting and disconnecting *)

Lemma disconnect_members (ws : Websocket.WebSocket) (sid : string)
    (c : Websocket.connections) :
  let c' := Websocket.disconnect ws sid c in
  Dict.get sid c' <> Some []
  /\ (forall x, In x (Dict.get_default sid [] c')
                <-> In x (Dict.get_default sid [] c) /\ x <> ws)
  /\ (forall sid', sid' <> sid -> Dict.get sid' c' = Dict.get sid' c)
  /\ (Dict.get sid c = None -> c' = c).
Proof.
  cbv zeta. unfold Websocket.disconnect, dict_contains, Dict.get_default.
  destruct (Dict.get sid c) as [conns|] eqn:Hget.
  - rewrite dict_get_set_same.
    destruct (Websocket.set_discard ws conns) as [|x0 rest] eqn:Hd.
    + split; [rewrite dict_get_del_same; discriminate|]. split; [|split].
      * intros x. rewrite dict_get_del_same. rewrite <- set_discard_In, Hd. tauto.
      * intros sid' Hne. rewrite dict_get_del_other by congruence.
        apply dict_get_set_other. congruence.
      * discriminate.
    + rewrite dict_get_set_same. split; [discriminate|]. split; [|split].
      * intros x. rewrite <- Hd. apply set_discard_In.
      * intros sid' Hne. apply dict_get_set_other. congruence.
      * discriminate.
  - rewrite Hget. split; [discriminate|]. split; [|split; reflexivity].
    intros x. cbn [In]. tauto.
Qed.

(** X15. [disconnect] removes the connection from the set of the session
    and never leaves an empty set behind: the entry of the session is
    deleted with its last connection. Everything else is as before, and a
    session without an entry is left alone. *)
Theorem disconnect_leaves_no_empty_entry (ws : Websocket.WebSocket) (sid : string)
    (c : Websocket.connections) :
  let c' := Websocket.disconnect ws sid c in
  Dict.get sid c' <> Some []
  /\ (forall x, In x (Dict.get_default sid [] c')
                <-> In x (Dict.get_default sid [] c) /\ x <> ws)
  /\ (forall sid', sid' <> sid -> Dict.get sid' c' = Dict.get sid' c)
  /\ (Dict.get sid c = None -> c' = c).
Proof.
  exact (disconnect_members ws sid c).
Qed.

(** X16. [connect] accepts a socket exactly when the session is live at
    the time of the call; a refused socket is closed with code 4001 and
    the connection table is not changed. An accepted socket is in the set
    of the session afterwards, once however often it connects, next to
    the connections that were there; disconnecting it again gives back the
    connections that were there. *)
Theorem connect_needs_a_live_session (now : Z) (ws : Websocket.WebSocket)
    (sid : string) (m : Session.sessions) (c : Websocket.connections) :
  let r := Websocket.connect now ws sid m c in
  let c' := snd (fst (fst r)) in
  fst (fst (fst r)) = fst (Session.get_session now sid m)
  /\ (snd r = true <-> snd (Session.get_session now sid m) <> None)
  /\ (snd r = false ->
      c' = c /\ snd (fst r) = Websocket.Close 4001 "Session not found")
  /\ (snd r = true ->
      snd (fst r) = Websocket.Accept
      /\ (forall x, In x (Dict.get_default sid [] c')
                    <-> x = ws \/ In x (Dict.get_default sid [] c))
      /\ Websocket.get_connection_count sid c'
         = (if Websocket.set_mem ws (Dict.get_default sid [] c)
            then Websocket.get_connection_count sid c
            else S (Websocket.get_connection_count sid c))
      /\ (forall sid', sid' <> sid -> Dict.get sid' c' = Dict.get sid' c)
      /\ forall x, In x (Dict.get_default sid [] (Websocket.disconnect ws sid c'))
                   <-> In x (Dict.get_default sid [] c) /\ x <> ws).
Proof.
  cbv zeta. unfold Websocket.connect.
  destruct (Session.get_session now sid m) as [m' [s|]]; cbn [fst snd].
  - split; [reflexivity|]. split; [split; [discriminate|reflexivity]|].
    split; [discriminate|]. intros _.
    set (c1 := if dict_contains sid c then c else Dict.set sid [] c).
    assert (Hc1 : Dict.get_default sid [] c1 = Dict.get_default sid [] c
                  /\ forall sid', sid' <> sid -> Dict.get sid' c1 = Dict.get sid' c).
    { subst c1. unfold dict_contains, Dict.get_default.
      destruct (Dict.get sid c) eqn:Hget; [now rewrite Hget|].
      rewrite dict_get_set_same. split; [reflexivity|].
      intros sid' Hne. apply dict_get_set_other. congruence. }
    destruct Hc1 as [Hsame Hother]. rewrite Hsame.
    assert (Hnew : Dict.get_default sid []
                     (Dict.set sid (Websocket.set_add ws (Dict.get_default sid [] c)) c1)
                   = Websocket.set_add ws (Dict.get_default sid [] c)).
    { unfold Dict.get_default at 1. now rewrite dict_get_set_same. }
    split; [reflexivity|]. split; [|split; [|split]].
    + intros x. rewrite Hnew. apply set_add_In.
    + unfold Websocket.get_connection_count. rewrite Hnew.
      unfold Websocket.set_add.
      destruct (Websocket.set_mem ws (Dict.get_default sid [] c)); [reflexivity|].
      rewrite length_app. cbn [length]. now rewrite Nat.add_1_r.
    + intros sid' Hne. rewrite dict_get_set_other by congruence. now apply Hother.
    + intros x.
      destruct (disconnect_members ws sid
                  (Dict.set sid (Websocket.set_add ws (Dict.get_default sid [] c)) c1))
        as [_ [Hd _]].
      rewrite Hd, Hnew, set_add_In. intuition congruence.
  - split; [reflexivity|]. split; [split; [discriminate|congruence]|].
    split; [auto|discriminate].
Qed.

(** ** Progress: what is sent and what is stored *)

Lemma agent_update_message_fields (agent_name status : string) (progress : Z)
    (current_step : option string) (result : pyval) (error : option string)
    (stamp : string) :
  let p := Dict.set "timestamp" (VStr stamp)
             (Websocket.agent_update_message agent_name status progress
                                             current_step result error) in
  Dict.get "type" p = Some (VStr "agent_update")
  /\ Dict.get "agent_name" p = Some (VStr agent_name)
  /\ Dict.get "status" p = Some (VStr status)
  /\ Dict.get "progress" p = Some (VInt progress)
  /\ Dict.get "timestamp" p = Some (VStr stamp)
  /\ Dict.get "current_step" p = option_map VStr current_step
  /\ Dict.get "error" p = option_map VStr error
  /\ Dict.get "result" p = match result with VNone => None | v => Some v end.
Proof.
  cbv zeta. unfold Websocket.agent_update_message.
  destruct current_step, result, error; cbn; repeat split; reflexivity.
Qed.

(** X17. [broadcast_agent_progress] stores the progress of the agent in
    the session whenever the session is live, whether or not a connection
    exists or a send fails: the entry of the agent is replaced by the new
    status, progress, result and error, the entries of the other agents
    and the rest of the session are as before. Every message delivered
    carries the same status and progress, with the step description,
    which is sent but not stored. *)
Theorem progress_is_stored_whatever_the_connections
    (send_json : Websocket.WebSocket -> pydict -> outcome unit)
    (stamp : string) (now : Z) (stored_stamp sid agent_name status : string)
    (progress : Z) (current_step : option string) (result : pyval)
    (error : option string) (m : Session.sessions) (c : Websocket.connections) :
  let r := Websocket.broadcast_agent_progress send_json stamp now stored_stamp
             sid agent_name status progress current_step result error m c in
  (forall s,
      snd (Session.get_session now sid m) = Some s ->
      exists s',
        Dict.get sid (fst (fst r)) = Some s'
        /\ Dict.get agent_name (Session.agent_progress s')
           = Some {| Session.status := status; Session.progress := progress;
                     Session.result := result; Session.error := error;
                     Session.updated_at := stored_stamp |}
        /\ (forall a, a <> agent_name ->
                      Dict.get a (Session.agent_progress s')
                      = Dict.get a (Session.agent_progress s))
        /\ s' = Session.with_agent_progress (Session.agent_progress s') s)
  /\ (snd (Session.get_session now sid m) = None ->
      fst (fst r) = fst (Session.get_session now sid m))
  /\ (forall ws p,
        In (ws, p) (snd r) ->
        Dict.get "type" p = Some (VStr "agent_update")
        /\ Dict.get "agent_name" p = Some (VStr agent_name)
        /\ Dict.get "status" p = Some (VStr status)
        /\ Dict.get "progress" p = Some (VInt progress)
        /\ Dict.get "timestamp" p = Some (VStr stamp)
        /\ Dict.get "current_step" p = option_map VStr current_step
        /\ Dict.get "error" p = option_map VStr error).
Proof.
  cbv zeta. unfold Websocket.broadcast_agent_progress. cbn [fst snd].
  unfold Session.update_agent_progress.
  split; [|split].
  - intros s Hs. destruct (Session.get_session now sid m) as [m' [s0|]];
      cbn [fst snd] in *; [|discriminate].
    injection Hs as ->. eexists. split; [apply get_after_store|].
    cbn. split; [apply dict_get_set_same|].
    split; [|reflexivity].
    intros a Hne. apply dict_get_set_other. congruence.
  - intros Hs. destruct (Session.get_session now sid m) as [m' [s0|]];
      cbn [fst snd] in *; [discriminate|reflexivity].
  - intros ws p Hin. unfold Websocket.send_agent_update in Hin.
    destruct (broadcast_reached send_json stamp sid
                (Websocket.agent_update_message agent_name status progress
                                                current_step result error) c)
      as [Hnone [Hsome _]].
    destruct (Dict.get sid c) as [conns|] eqn:Hget.
    + destruct (Hsome conns eq_refl) as [Hsnd _]. rewrite Hsnd in Hin.
      apply in_map_iff in Hin as [ws' [[= <- <-] _]].
      pose proof (agent_update_message_fields agent_name status progress
                    current_step result error stamp) as H.
      cbv zeta in H. tauto.
    + rewrite (Hnone eq_refl) in Hin. destruct Hin.
Qed.

(** ** Starting an analysis *)

Lemma get_session_live (now : Z) (sid : string) (s : Session.SessionData)
    (m : Session.sessions) :
  Dict.get sid m = Some s -> (now <= Session.expires_at s)%Z ->
  Session.get_session now sid m = (m, Some s).
Proof.
  intros Hget Hle. unfold Session.get_session, Session.is_expired. rewrite Hget.
  destruct (Z.gtb_spec now (Session.expires_at s)) as [Hgt|_]; [|reflexivity].
  exfalso. apply (Z.lt_irrefl now). eapply Z.le_lt_trans; eassumption.
Qed.

Lemma get_session_some (now : Z) (sid : string) (s : Session.SessionData)
    (m : Session.sessions) :
  snd (Session.get_session now sid m) = Some s ->
  Session.get_session now sid m = (m, Some s)
  /\ Dict.get sid m = Some s /\ (now <= Session.expires_at s)%Z.
Proof.
  unfold Session.get_session, Session.is_expired.
  destruct (Dict.get sid m) as [s0|]; [|discriminate].
  destruct (Z.gtb_spec now (Session.expires_at s0)) as [Hgt|Hle]; cbn [snd];
    [discriminate|].
  intros [= ->]. auto.
Qed.

Lemma analyze_accepts (now started : Z) (new_id : string) (is_production : bool)
    (port sid : string) (s : Session.SessionData) (m : Session.sessions) :
  Dict.get sid m = Some s -> (now <= Session.expires_at s)%Z ->
  Session.resume_id s <> None -> Session.job_descriptions s <> [] ->
  Session.analysis_status s <> "running" ->
  exists resp,
    Routes.analyze now started new_id is_production port sid m
    = (Session.update_session (Session.with_analysis_started new_id started s)
         (Session.assign sid (Session.with_analysis_started new_id started s) m),
       inr resp)
    /\ Routes.analysis_id resp = new_id.
Proof.
  intros Hget Hlive Hres Hjds Hrun. unfold Routes.analyze.
  rewrite (get_session_live now sid s m Hget Hlive).
  destruct (Session.resume_id s); [|congruence].
  destruct (Session.job_descriptions s); [congruence|]. cbn [length Nat.eqb].
  destruct (String.eqb_spec (Session.analysis_status s) "running") as [E|_];
    [congruence|].
  eexists. split; reflexivity.
Qed.

(** X18. [analyze] answers 404 for a session that is missing or expired,
    400 for a session without a resume or without a job description, 409
    for a session whose analysis is running, in this order, and stores
    nothing then. Otherwise it marks the session as running under the new
    analysis id; from then on, as long as the session is live and no run
    has ended, every further call is answered 409 and changes nothing. *)
Theorem analyze_starts_once (now started : Z) (new_id : string)
    (is_production : bool) (port sid : string) (m : Session.sessions) :
  let r := Routes.analyze now started new_id is_production port sid m in
  (snd (Session.get_session now sid m) = None ->
   r = (fst (Session.get_session now sid m),
        inl {| Routes.status_code := 404; Routes.detail := "Session not found" |}))
  /\ (forall s,
        snd (Session.get_session now sid m) = Some s ->
        (Session.resume_id s = None \/ Session.job_descriptions s = [] ->
         exists d, r = (m, inl {| Routes.status_code := 400; Routes.detail := d |}))
        /\ (Session.resume_id s <> None -> Session.job_descriptions s <> [] ->
            Session.analysis_status s = "running" ->
            r = (m, inl {| Routes.status_code := 409;
                           Routes.detail := "Analysis already in progress" |}))
        /\ (Session.resume_id s <> None -> Session.job_descriptions s <> [] ->
            Session.analysis_status s <> "running" ->
            exists resp,
              snd r = inr resp
              /\ Routes.analysis_id resp = new_id
              /\ Dict.get sid (fst r)
                 = Some (Session.with_analysis_started new_id started s)
              /\ (forall sid', sid' <> sid ->
                               Session.session_id s = sid ->
                               Dict.get sid' (fst r) = Dict.get sid' m)
              /\ forall now' started' new_id' is_production' port',
                   (now' <= Session.expires_at s)%Z ->
                   Routes.analyze now' started' new_id' is_production' port' sid (fst r)
                   = (fst r, inl {| Routes.status_code := 409;
                                    Routes.detail := "Analysis already in progress" |}))).
Proof.
  cbv zeta. split.
  - unfold Routes.analyze.
    destruct (Session.get_session now sid m) as [m' [s|]]; cbn [fst snd];
      [discriminate|reflexivity].
  - intros s Hs. apply get_session_some in Hs as [Hget [Hd Hle]].
    split; [|split].
    + intros Hcase. unfold Routes.analyze. rewrite Hget.
      destruct Hcase as [Hres|Hjds].
      * rewrite Hres. eauto.
      * destruct (Session.resume_id s); [|eauto]. rewrite Hjds. cbn. eauto.
    + intros Hres Hjds Hrun. unfold Routes.analyze. rewrite Hget.
      destruct (Session.resume_id s); [|congruence].
      destruct (Session.job_descriptions s); [congruence|]. cbn [length Nat.eqb].
      now rewrite Hrun.
    + intros Hres Hjds Hrun.
      destruct (Session.resume_id s) as [rid|] eqn:Hrid; [|congruence].
      destruct (Session.job_descriptions s) as [|jd jds] eqn:Hj; [congruence|].
      set (s1 := Session.with_analysis_started new_id started s).
      assert (Hr : exists resp,
                 Routes.analyze now started new_id is_production port sid m
                 = (Session.update_session s1 (Session.assign sid s1 m), inr resp)
                 /\ Routes.analysis_id resp = new_id).
      { unfold Routes.analyze. rewrite Hget, Hrid, Hj. cbn [length Nat.eqb].
        destruct (String.eqb_spec (Session.analysis_status s) "running") as [E|_];
          [congruence|].
        eexists. split; reflexivity. }
      destruct Hr as [resp [Hr Hid]]. rewrite Hr. cbn [fst snd].
      exists resp. split; [reflexivity|]. split; [exact Hid|].
      split; [apply get_after_store|]. split.
      * intros sid' Hne Hsid. unfold Session.update_session, Session.assign.
        subst s1. cbn [Session.session_id Session.with_analysis_started].
        rewrite Hsid.
        destruct (dict_contains sid _);
          rewrite ?dict_get_set_other by congruence; reflexivity.
      * intros now' started' new_id' prod' port' Hle'.
        unfold Routes.analyze.
        rewrite (get_session_live now' sid s1);
          [|apply get_after_store|exact Hle'].
        subst s1.
        cbn [Session.resume_id Session.with_analysis_started
             Session.job_descriptions Session.analysis_status].
        rewrite Hrid, Hj. reflexivity.
Qed.

(** ** From a completed run to the stored results *)

Lemma analysis_complete_delivered
    (send_json : Websocket.WebSocket -> pydict -> outcome unit)
    (stamp sid : string) (success : bool) (error : option string)
    (c : Websocket.connections) (ws : Websocket.WebSocket) (p : pydict) :
  In (ws, p) (snd (Websocket.broadcast_analysis_complete send_json stamp sid
                     success error c)) ->
  Dict.get "type" p = Some (VStr "analysis_complete")
  /\ Dict.get "success" p = Some (VBool success)
  /\ Dict.get "timestamp" p = Some (VStr stamp)
  /\ Dict.get "error" p = match error with
                          | Some err => if String.eqb err "" then None
                                        else Some (VStr err)
                          | None => None
                          end.
Proof.
  unfold Websocket.broadcast_analysis_complete, Websocket.send_analysis_complete.
  intros Hin.
  destruct (broadcast_reached send_json stamp sid
              (Websocket.analysis_complete_message success error) c)
    as [Hnone [Hsome _]].
  destruct (Dict.get sid c) as [conns|] eqn:Hget.
  - destruct (Hsome conns eq_refl) as [Hsnd _]. rewrite Hsnd in Hin.
    apply in_map_iff in Hin as [ws' [[= <- <-] _]].
    unfold Websocket.analysis_complete_message.
    destruct error as [err|]; [destruct (String.eqb err "")|];
      cbn; repeat split; reflexivity.
  - rewrite (Hnone eq_refl) in Hin. destruct Hin.
Qed.


(** X20. A run that raises, be it in a handler, at its deadline or when
    the start event is built, marks a live session as [failed] and leaves
    everything else in it as it was; the clients reached are told of the
    failure, with the error text unless it is empty. A session in this
    state can be analysed again: [analyze] accepts it. *)
Theorem failed_run_can_be_started_again
    (workflow_run : Event -> outcome AnalysisResult)
    (send_json : Websocket.WebSocket -> pydict -> outcome unit)
    (stamp : string) (now completed : Z) (sid : string) (e : exn)
    (s : Session.SessionData) (m : Session.sessions) (c : Websocket.connections) :
  Dict.get sid m = Some s ->
  (now <= Session.expires_at s)%Z ->
  match Routes.start_event_of s with
  | Returned start_event => workflow_run start_event
  | Raised e' => Raised e'
  end = Raised e ->
  let out := Routes.run_analysis workflow_run send_json stamp now completed
                                 sid s m c in
  Dict.get sid (fst (fst out)) = Some (Session.with_analysis_status "failed" s)
  /\ (forall ws p, In (ws, p) (snd out) ->
                   Dict.get "success" p = Some (VBool false)
                   /\ Dict.get "error" p
                      = if String.eqb (exn_str e) "" then None
                        else Some (VStr (exn_str e)))
  /\ forall now' started new_id is_production port,
       (now' <= Session.expires_at s)%Z ->
       Session.resume_id s <> None -> Session.job_descriptions s <> [] ->
       exists resp,
         snd (Routes.analyze now' started new_id is_production port sid
                             (fst (fst out))) = inr resp.
Proof.
  intros Hget Hlive Hraise out.
  set (s' := Session.with_analysis_status "failed" s).
  assert (Hout : fst (fst out) = Session.update_session s' (Session.assign sid s' m)
                 /\ snd out = snd (Websocket.broadcast_analysis_complete
                                     send_json stamp
                                     (Session.session_id s') false
                                     (Some (exn_str e)) c)).
  { subst out. unfold Routes.run_analysis. rewrite Hraise.
    rewrite (get_session_live now sid s m Hget Hlive). cbn [fst snd]. auto. }
  destruct Hout as [Hm' Hsent]. rewrite Hm', Hsent.
  split; [apply get_after_store|]. split.
  - intros ws p Hin.
    destruct (analysis_complete_delivered _ _ _ _ _ _ _ _ Hin) as (_ & H1 & _ & H2).
    auto.
  - intros now' started new_id prod port Hlive' Hres Hjds.
    assert (Hst : Session.analysis_status s' <> "running")
      by (subst s'; cbn; discriminate).
    destruct (analyze_accepts now' started new_id prod port sid s'
                (Session.update_session s' (Session.assign sid s' m))
                (get_after_store sid s' m) Hlive' Hres Hjds Hst)
      as [resp [Hresp _]].
    rewrite Hresp. cbn [snd]. eauto.
Qed.

(** ** What happens to the results of a session that is gone *)

Lemma update_session_keys (s : Session.SessionData) (m : Session.sessions)
    (sid : string) :
  Dict.get sid (Session.update_session s m) <> None -> Dict.get sid m <> None.
Proof.
  unfold Session.update_session.
  destruct (dict_contains (Session.session_id s) m) eqn:Hc; [|auto].
  destruct (String.eqb_spec (Session.session_id s) sid) as [<-|Hne].
  - intros _. unfold dict_contains in Hc.
    destruct (Dict.get (Session.session_id s) m); [discriminate|discriminate].
  - now rewrite dict_get_set_other.
Qed.

Lemma get_session_keys (now : Z) (sid sid' : string) (m : Session.sessions) :
  Dict.get sid' (fst (Session.get_session now sid m)) <> None ->
  Dict.get sid' m <> None.
Proof.
  unfold Session.get_session. destruct (Dict.get sid m) as [s|]; [|auto].
  destruct (Session.is_expired now s); cbn [fst]; [|auto].
  destruct (String.eqb_spec sid sid') as [->|Hne].
  - now rewrite dict_get_del_same.
  - now rewrite dict_get_del_other.
Qed.

Lemma store_keys (now : Z) (sid sid' : string) (s s' : Session.SessionData)
    (m m' : Session.sessions) :
  Session.get_session now sid m = (m', Some s) ->
  Dict.get sid' (Session.update_session s' (Session.assign sid s' m')) <> None ->
  Dict.get sid' m <> None.
Proof.
  intros Hg H.
  assert (Hs : snd (Session.get_session now sid m) = Some s) by now rewrite Hg.
  apply get_session_some in Hs as [Hget [Hd _]].
  rewrite Hget in Hg. injection Hg as <-.
  apply update_session_keys in H. unfold Session.assign in H.
  destruct (String.eqb_spec sid sid') as [<-|Hne].
  - congruence.
  - now rewrite dict_get_set_other in H.
Qed.

(** X21. [run_analysis] never creates a session and never brings one
    back: every id stored after it was stored before. When the session of
    the run is missing or has expired by the time the run ends, it is
    still missing afterwards, so the results of a completed run are
    dropped; the clients reached are told of a success all the same. *)
Theorem results_of_a_gone_session_are_dropped
    (workflow_run : Event -> outcome AnalysisResult)
    (send_json : Websocket.WebSocket -> pydict -> outcome unit)
    (stamp : string) (now completed : Z) (sid : string)
    (s : Session.SessionData) (m : Session.sessions) (c : Websocket.connections) :
  Session.session_id s = sid ->
  let out := Routes.run_analysis workflow_run send_json stamp now completed
                                 sid s m c in
  (forall sid', Dict.get sid' (fst (fst out)) <> None -> Dict.get sid' m <> None)
  /\ (snd (Session.get_session now sid m) = None ->
      snd (Session.get_session now sid (fst (fst out))) = None
      /\ forall start_event res,
           Routes.start_event_of s = Returned start_event ->
           workflow_run start_event = Returned res ->
           forall ws p, In (ws, p) (snd out) ->
                        Dict.get "success" p = Some (VBool true)).
Proof.
  intros Hsid out. subst out. unfold Routes.run_analysis.
  set (attempt := match Routes.start_event_of s with
                  | Returned start_event => workflow_run start_event
                  | Raised e => Raised e
                  end).
  rewrite Hsid.
  assert (Hgone : forall m0, snd (Session.get_session now sid m0) = None ->
                    snd (Session.get_session now sid
                           (fst (Session.get_session now sid m0))) = None).
  { intros m0 H0. unfold Session.get_session in *.
    destruct (Dict.get sid m0) as [s0|] eqn:E0;
      [|cbn [fst snd]; now rewrite E0].
    destruct (Session.is_expired now s0); cbn [fst snd] in *; [|discriminate].
    now rewrite dict_get_del_same. }
  split.
  - intros sid'. destruct attempt as [res|e]; cbn [fst snd].
    + destruct (res_success res); [|auto].
      unfold Session.set_analysis_results.
      destruct (Session.get_session now sid m) as [m' [s0|]] eqn:Hg; cbn [fst].
      * intros H. eapply store_keys; [exact Hg|exact H].
      * intros H. apply (get_session_keys now sid sid' m). now rewrite Hg.
    + destruct (Session.get_session now sid m) as [m' [s0|]] eqn:Hg; cbn [fst snd].
      * intros H. eapply store_keys; [exact Hg|exact H].
      * intros H. apply (get_session_keys now sid sid' m). now rewrite Hg.
  - intros Hnone. split.
    + destruct attempt as [res|e]; cbn [fst snd].
      * destruct (res_success res); [|exact Hnone].
        unfold Session.set_analysis_results.
        pose proof (Hgone m Hnone) as H.
        destruct (Session.get_session now sid m) as [m' [s0|]]; cbn [fst snd] in *;
          [discriminate|exact H].
      * pose proof (Hgone m Hnone) as H.
        destruct (Session.get_session now sid m) as [m' [s0|]]; cbn [fst snd] in *;
          [discriminate|exact H].
    + intros start_event res Hstart Hrun ws p. subst attempt.
      rewrite Hstart, Hrun. cbn [fst snd]. intros Hin.
      destruct (analysis_complete_delivered _ _ _ _ _ _ _ _ Hin) as (_ & H1 & _).
      exact H1.
Qed.

(** ** Serving the results *)

(** X22. The endpoints that serve recommendations, interview preparation
    and market insights answer only for a live session whose analysis is
    completed, and [get_results] only once an analysis was started. What
    they serve under [recommendations] and [questions] is a list whatever
    the agent stored, and the matches of [get_results] are a list even
    when none is stored. None of them changes a live session. *)
Theorem results_are_served_only_when_ready (now : Z) (sid : string)
    (job_id : option string) (m : Session.sessions) :
  (forall body,
      snd (Routes.get_recommendations now sid job_id m) = inr body ->
      (exists s, Session.get_session now sid m = (m, Some s)
                 /\ Session.analysis_status s = "completed")
      /\ fst (Routes.get_recommendations now sid job_id m) = m
      /\ exists l, Dict.get "recommendations" body = Some (VList l))
  /\ (forall body,
        snd (Routes.get_interview_prep now sid job_id m) = inr body ->
        (exists s, Session.get_session now sid m = (m, Some s)
                   /\ Session.analysis_status s = "completed")
        /\ fst (Routes.get_interview_prep now sid job_id m) = m
        /\ exists l, Dict.get "questions" body = Some (VList l))
  /\ (forall body,
        snd (Routes.get_market_insights now sid m) = inr body ->
        (exists s, Session.get_session now sid m = (m, Some s)
                   /\ Session.analysis_status s = "completed")
        /\ fst (Routes.get_market_insights now sid m) = m)
  /\ (forall resp,
        snd (Routes.get_results now sid m) = inr resp ->
        (exists s, Session.get_session now sid m = (m, Some s)
                   /\ Session.analysis_status s <> "pending"
                   /\ Routes.r_status resp = Session.analysis_status s
                   /\ (Session.job_matches s = None -> Routes.r_job_matches resp = []))
        /\ fst (Routes.get_results now sid m) = m).
Proof.
  assert (Hguard : forall s m',
             Routes.completed_session now sid m = (m', inr s) ->
             Session.get_session now sid m = (m, Some s)
             /\ Session.analysis_status s = "completed" /\ m' = m).
  { intros s m'. unfold Routes.completed_session.
    destruct (Session.get_session now sid m) as [m0 [s0|]] eqn:Hg; [|discriminate].
    destruct (String.eqb_spec (Session.analysis_status s0) "completed") as [E|_];
      [|discriminate].
    intros [= <- <-].
    assert (Hs : snd (Session.get_session now sid m) = Some s0) by now rewrite Hg.
    apply get_session_some in Hs as [Hs _]. rewrite Hs in Hg.
    injection Hg as <-. auto. }
  split; [|split; [|split]].
  - intros body. unfold Routes.get_recommendations.
    destruct (Routes.completed_session now sid m) as [m' [e|s]] eqn:Hc;
      cbn [fst snd]; [discriminate|].
    destruct (Hguard s m' eq_refl) as (Hg & Hst & ->).
    intros [= <-]. split; [eauto|]. split; [reflexivity|]. cbn.
    destruct (Dict.get_default "recommendations" (VList [])
                (Routes.or_empty (Session.recommendations s))); cbn; eauto.
  - intros body. unfold Routes.get_interview_prep.
    destruct (Routes.completed_session now sid m) as [m' [e|s]] eqn:Hc;
      cbn [fst snd]; [discriminate|].
    destruct (Hguard s m' eq_refl) as (Hg & Hst & ->).
    intros [= <-]. split; [eauto|]. split; [reflexivity|]. cbn.
    destruct (Dict.get_default "questions" (VList [])
                (Routes.or_empty (Session.interview_prep s))); cbn; eauto.
  - intros body. unfold Routes.get_market_insights.
    destruct (Routes.completed_session now sid m) as [m' [e|s]] eqn:Hc;
      cbn [fst snd]; [discriminate|].
    destruct (Hguard s m' eq_refl) as (Hg & Hst & ->).
    intros [= <-]. split; [eauto|reflexivity].
  - intros resp. unfold Routes.get_results.
    destruct (Session.get_session now sid m) as [m0 [s0|]] eqn:Hg;
      [|discriminate].
    assert (Hs : snd (Session.get_session now sid m) = Some s0) by now rewrite Hg.
    apply get_session_some in Hs as [Hs _]. rewrite Hs in Hg.
    injection Hg as <-.
    destruct (String.eqb_spec (Session.analysis_status s0) "pending") as [E|Hne];
      cbn [fst snd]; [discriminate|].
    intros [= <-]. split; [|reflexivity].
    exists s0. cbn [Routes.r_status Routes.r_job_matches].
    repeat split; try assumption. now intros ->.
Qed.

(** ** Uploads and the start event *)

(** X23. [set_resume] succeeds exactly when the session is live; the
    session read back then has the new resume id, text and parsed resume
    and is otherwise as before, and the start event [run_analysis] builds
    from it carries this resume id, the session's own id and the ids of
    its job descriptions, with no texts. A session that is not live is not changed. *)
Theorem set_resume_feeds_the_start_event (now : Z) (sid rid text : string)
    (parsed : pydict) (m : Session.sessions) :
  let r := Session.set_resume now sid rid text parsed m in
  (snd r = true <-> snd (Session.get_session now sid m) <> None)
  /\ (forall s,
        snd (Session.get_session now sid m) = Some s ->
        let s' := Session.with_resume rid text parsed s in
        Dict.get sid (fst r) = Some s'
        /\ Session.job_descriptions s' = Session.job_descriptions s
        /\ Session.analysis_status s' = Session.analysis_status s
        /\ Routes.start_event_of s'
           = Returned (StartAnalysisEvent (Session.session_id s) rid
                         (Dict.keys (Session.job_descriptions s)) None None))
  /\ (snd r = false -> fst r = fst (Session.get_session now sid m)).
Proof.
  cbv zeta. unfold Session.set_resume.
  destruct (Session.get_session now sid m) as [m' [s|]]; cbn [fst snd].
  - split; [split; [discriminate|reflexivity]|]. split; [|discriminate].
    intros s0 [= <-]. split; [apply get_after_store|].
    repeat split.
  - split; [split; [discriminate|congruence]|]. split; [discriminate|reflexivity].
Qed.

(** ** Progress over REST *)

(** X24. What [get_progress] serves for a live session after a call of
    [broadcast_agent_progress] is what that call was given: the entry of
    the agent holds its status, progress, result and error, whether or not
    any client was connected, and the analysis status and id served are
    those of the session. A session that is missing or expired is answered
    404. *)
Theorem progress_endpoint_serves_the_broadcast
    (send_json : Websocket.WebSocket -> pydict -> outcome unit)
    (stamp : string) (now : Z) (stored_stamp sid agent_name status : string)
    (progress : Z) (current_step : option string) (result : pyval)
    (error : option string) (m : Session.sessions) (c : Websocket.connections)
    (now' : Z) :
  let m' := fst (fst (Websocket.broadcast_agent_progress send_json stamp now
                        stored_stamp sid agent_name status progress current_step
                        result error m c)) in
  (forall s,
      snd (Session.get_session now sid m) = Some s ->
      (now' <= Session.expires_at s)%Z ->
      exists resp,
        Routes.get_progress now' sid m' = (m', inr resp)
        /\ Dict.get agent_name (Routes.p_agent_progress resp)
           = Some {| Session.status := status; Session.progress := progress;
                     Session.result := result; Session.error := error;
                     Session.updated_at := stored_stamp |}
        /\ Routes.p_status resp = Session.analysis_status s
        /\ Routes.p_analysis_id resp = Session.analysis_id s)
  /\ (snd (Session.get_session now' sid m') = None ->
      exists d,
        snd (Routes.get_progress now' sid m')
        = inl {| Routes.status_code := 404; Routes.detail := d |}).
Proof.
  cbv zeta. split.
  - intros s Hs Hlive. unfold Websocket.broadcast_agent_progress. cbn [fst snd].
    unfold Session.update_agent_progress.
    apply get_session_some in Hs as [Hg _]. rewrite Hg. cbn [fst].
    set (s' := Session.with_agent_progress _ s).
    unfold Routes.get_progress.
    rewrite (get_session_live now' sid s' _ (get_after_store sid s' m) Hlive).
    eexists. split; [reflexivity|].
    cbn [Routes.p_agent_progress Routes.p_status Routes.p_analysis_id].
    subst s'. cbn. split; [apply dict_get_set_same|]. split; reflexivity.
  - intros Hnone. unfold Routes.get_progress.
    destruct (Session.get_session now' sid _) as [m0 [s0|]]; cbn [snd] in *;
      [discriminate|eauto].
Qed.

(** * Where the code departs from the specification *)

(** Against C1 as stated (a late or duplicate completion never re-fires the
    barrier). Phase 1 waits for the resume only; the resume result is
    delivered twice to [collect_phase1]: both the first delivery and the
    duplicate enqueue the phase-2 work event for job [a]. *)
Lemma barrier_refires_on_duplicate :
  exists st' out1 out2,
    feed (map (collect_phase1 sink_ok)
              [ResumeParseResultEvent "r1" []; ResumeParseResultEvent "r1" []])
         ex_store_resume
    = Returned (st', [out1; out2])
    /\ out1 = [SkillMatchEvent "s1" "r1" "a"]
    /\ out2 = [SkillMatchEvent "s1" "r1" "a"].
Proof.
  eexists. eexists. eexists. split; [vm_compute; reflexivity|].
  split; reflexivity.
Qed.

(** Against C3 as stated (the result event of a failed adapter is flagged
    as failed). No test on result events tells the event [parse_resume]
    returns when the agent raises from the one it returns when the agent
    succeeds with an empty dict: they are the same event. *)
Lemma failed_result_is_not_flagged :
  ~ exists flagged_failed : Event -> bool,
      (forall hr,
          run_handler (parse_resume sink_ok (Raised (OtherException "boom"))
                                    "cv" "r1") ex_store_resume = Returned hr ->
          option_map flagged_failed (hr_returned hr) = Some true)
      /\ (forall hr,
             run_handler (parse_resume sink_ok (Returned []) "cv" "r1")
                         ex_store_resume = Returned hr ->
             option_map flagged_failed (hr_returned hr) = Some false).
Proof.
  intros [flagged_failed [Hfail Hok]].
  specialize (Hfail _ eq_refl). specialize (Hok _ eq_refl).
  cbn in Hfail, Hok. congruence.
Qed.

(** Against C4 as stated (recording a completion twice leaves the
    completion record unchanged). [matched_a] is already recorded; handling
    the skill-match result of job [a] once more changes the record: the
    key is now in the list twice. *)
Lemma duplicate_completion_changes_record :
  exists hr,
    run_handler (collect_phase2 sink_ok "a") ex_store_dup = Returned hr
    /\ In (matched_key "a") (get_or completed_steps [] ex_store_dup)
    /\ completed_steps (hr_store hr) = Some ["matched_a"; "matched_a"]
    /\ completed_steps (hr_store hr) <> completed_steps ex_store_dup.
Proof.
  eexists. split; [vm_compute; reflexivity|].
  split; [left; reflexivity|]. split; [reflexivity|]. discriminate.
Qed.

(** C2 at a start event whose [job_texts] has a text for job [a] only
    while [job_ids] lists [a] and [b]. [start] dispatches the one parse
    event for [a], to be recorded as [jd_parsed_a]; whatever the agent
    does, once its result is collected nothing is pending, no handler can
    run, the run is still running, and the barrier test, which waits for
    [jd_parsed_] of every id in [job_ids], is false: it waits for a
    completion ([jd_parsed_b]) that was never dispatched. *)
Theorem mismatched_job_texts_stall (exec : outcome pydict) :
  exists r1 r2 r3,
    dispatch repr_stub sink_ok (init_run ex_start_mismatch) 0 exec = Some r1
    /\ map dispatched_key (run_pending r1) = [Some "jd_parsed_a"]
    /\ run_pending r1 = [JDAnalyzeEvent "a" "text of job a"]
    /\ dispatch repr_stub sink_ok r1 0 exec = Some r2
    /\ run_pending r2 = [JDAnalyzeResultEvent "a" (data (process_output exec))]
    /\ dispatch repr_stub sink_ok r2 0 exec = Some r3
    /\ run_pending r3 = []
    /\ run_status r3 = Running
    /\ (forall i exec', dispatch repr_stub sink_ok r3 i exec' = None)
    /\ completed_steps (run_store r3) = Some ["jd_parsed_a"]
    /\ expected_phase1 (get_or needs_resume_parsing false (run_store r3))
                       (get_or needs_jd_parsing false (run_store r3))
                       (get_or job_ids [] (run_store r3))
       = ["jd_parsed_a"; "jd_parsed_b"]
    /\ phase1_complete (run_store r3) = false.
Proof.
  destruct exec as [d|[m|m|m|m]];
    (eexists; eexists; eexists;
     repeat (split; [vm_compute; reflexivity|]);
     split; [intros [|i] exec'; reflexivity|];
     repeat (split; [vm_compute; reflexivity|]);
     vm_compute; reflexivity).
Qed.

(** The same mismatch in the other direction, in a run: [job_texts] has a
    text for job [x], which is not a job id. Once the parse of job [a] is
    collected the barrier fires while the parse of [x] is still pending,
    and collecting the late result of [x] fires it a second time: two
    skill-match events for job [a] are pending. *)
Lemma extra_job_text_fires_early_and_twice :
  exists r_early r_late,
    run_steps repr_stub sink_ok (init_run ex_start_extra) (firstn 3 ex_script_extra)
    = Some r_early
    /\ run_pending r_early
       = [JDAnalyzeEvent "x" "text of job x"; SkillMatchEvent "s1" "r1" "a"]
    /\ run_steps repr_stub sink_ok (init_run ex_start_extra) ex_script_extra
       = Some r_late
    /\ run_pending r_late
       = [SkillMatchEvent "s1" "r1" "a"; SkillMatchEvent "s1" "r1" "a"].
Proof.
  eexists. eexists. split; [vm_compute; reflexivity|].
  split; [reflexivity|]. split; [vm_compute; reflexivity|]. reflexivity.
Qed.

(** * Instances on concrete inputs *)

Lemma progress_failure_never_fails_a_handler_witness :
  sink_down {| n_session_id := "s1"; n_agent_name := "workflow";
               n_status := "running"; n_progress := 5;
               n_current_step := Some "Starting analysis workflow";
               n_error := None |}
  = Raised (OtherException "connection closed")
  /\ broadcast_workflow_progress sink_down "s1" "workflow" "running" 5
       (Some "Starting analysis workflow") ex_hstate
     = Returned (tt, ex_hstate)
  /\ same_outcome
       (run_handler (collect_phase2 sink_down "a") ex_store_one)
       (run_handler (collect_phase2 sink_ok "a") ex_store_one).
Proof.
  split; [reflexivity|]. split.
  - apply (proj1 (proj1 (progress_failure_never_fails_a_handler sink_down)
                    "s1" "workflow" "running" 5%Z
                    (Some "Starting analysis workflow") ex_hstate)
             (OtherException "connection closed")).
    reflexivity.
  - apply (proj2 (progress_failure_never_fails_a_handler sink_down)
             repr_stub (Returned []) (SkillMatchResultEvent "a" [])
             (collect_phase2 sink_down "a") (collect_phase2 sink_ok "a")
             ex_store_one eq_refl eq_refl).
Defined.

Lemma next_phase_only_after_barrier_witness :
  match run_handler (collect_phase2 sink_ok "a") ex_store_one with
  | Returned hr =>
      In (GenerateRecommendationsEvent "s1" []) (emitted hr)
      /\ phase2_complete (hr_store hr) = true
      /\ In (matched_key "a") (get_or completed_steps [] (hr_store hr))
  | Raised _ => False
  end.
Proof.
  destruct (run_handler (collect_phase2 sink_ok "a") ex_store_one) as [hr|e] eqn:E.
  - assert (Hin : In (GenerateRecommendationsEvent "s1" []) (emitted hr)).
    { vm_compute in E. injection E as <-. right. right. left. reflexivity. }
    split; [exact Hin|].
    destruct (proj2 (next_phase_only_after_barrier repr_stub sink_ok (Returned [])
                       (SkillMatchResultEvent "a" []) (collect_phase2 sink_ok "a")
                       ex_store_one hr (GenerateRecommendationsEvent "s1" [])
                       eq_refl E Hin) eq_refl) as [Hc Hall].
    split; [exact Hc|]. apply Hall.
    vm_compute in E. injection E as <-. left. reflexivity.
  - vm_compute in E. discriminate E.
Defined.


Lemma all_skill_gaps_wellformed_witness :
  match run_handler (match_skills repr_stub sink_ok (Returned ex_match) "s1" "r1" "a")
                    ex_store_one with
  | Returned hr =>
      exists gaps, all_skill_gaps (hr_store hr) = Some gaps /\ gaps_ok gaps
  | Raised _ => False
  end.
Proof.
  destruct (run_handler (match_skills repr_stub sink_ok (Returned ex_match)
                           "s1" "r1" "a") ex_store_one) as [hr|e] eqn:E.
  - apply (proj1 (proj2 (all_skill_gaps_wellformed repr_stub sink_ok))
             (Returned ex_match) "s1" "r1" "a" ex_store_one hr); [|exact E].
    split; [constructor | intros []].
  - vm_compute in E. discriminate E.
Defined.

Lemma empty_start_emits_nothing_witness :
  exists p,
    run_handler (start sink_ok "s1" "r1" [] None None) empty_store
    = Returned {| hr_store := start_store "s1" "r1" [] None None empty_store;
                  hr_sent := []; hr_returned := None; hr_progress := p |}.
Proof.
  exact (proj1 (empty_start_emits_nothing repr_stub sink_ok "s1" "r1" None
                  (or_introl eq_refl)) empty_store).
Defined.

Lemma duplicate_completion_same_set_witness :
  match run_handler (collect_phase2 sink_ok "a") ex_store_dup with
  | Returned hr =>
      completed_steps (hr_store hr) = Some ["matched_a"; "matched_a"]
      /\ forall x, In x (get_or completed_steps [] (hr_store hr))
                   <-> In x ["matched_a"]
  | Raised _ => False
  end.
Proof.
  destruct (run_handler (collect_phase2 sink_ok "a") ex_store_dup) as [hr|e] eqn:E.
  - apply (proj1 (proj2 (duplicate_completion_same_set sink_ok))
             "a" ex_store_dup hr); [|exact E].
    left. reflexivity.
  - vm_compute in E. discriminate E.
Defined.

Lemma failing_adapter_yields_unflagged_result_witness :
  exists hr_fail hr_ok result_ev,
    run_handler (parse_resume sink_ok (Raised (OtherException "boom")) "cv" "r1")
                ex_store_resume = Returned hr_fail
    /\ run_handler (parse_resume sink_ok (Returned []) "cv" "r1") ex_store_resume
       = Returned hr_ok
    /\ hr_store hr_fail = hr_store hr_ok
    /\ hr_returned hr_fail = Some result_ev
    /\ hr_returned hr_ok = Some result_ev
    /\ result_payload result_ev = Some [].
Proof.
  destruct (failing_adapter_yields_unflagged_result repr_stub sink_ok
              (OtherException "boom") ex_store_resume "s1" "r1"
              (ResumeParseEvent "cv" "r1") _ _ eq_refl eq_refl eq_refl eq_refl eq_refl)
    as (_ & _ & hr_fail & hr_ok & result_ev & H1 & H2 & H3 & _ & _ & H4 & H5 & H6 & _).
  exists hr_fail, hr_ok, result_ev. repeat split; assumption.
Defined.

Lemma barrier_fires_on_last_completion_witness :
  (exists quiet,
      feed (map (collect_phase1 sink_ok)
                [JDAnalyzeResultEvent "b" []; ResumeParseResultEvent "r1" [];
                 JDAnalyzeResultEvent "a" []]) ex_store_parse
      = Returned (set_completed_steps ["jd_parsed_b"; "resume_parsed"; "jd_parsed_a"]
                                      ex_store_parse,
                  (quiet ++ [skill_match_events "s1" "r1" ["a"; "b"]])%list)
      /\ Forall (fun out => out = []) quiet)
  /\ (exists quiet,
         feed (map (collect_phase2 sink_ok) ["b"; "a"]) ex_store_two
         = Returned (set_completed_steps ["matched_b"; "matched_a"] ex_store_two,
                     (quiet ++ [phase3_events "s1" ["a"; "b"] ex_store_two])%list)
         /\ Forall (fun out => out = []) quiet)
  /\ (exists hr,
         run_handler (collect_phase2 sink_ok "a")
                     (set_completed_steps ["matched_b"; "matched_a"] ex_store_two)
         = Returned hr
         /\ emitted hr = phase3_events "s1" ["a"; "b"] ex_store_two).
Proof.
  split; [|split].
  - apply (proj1 (barrier_fires_on_last_completion sink_ok)
             ex_store_parse "s1" "r1" []
             [JDAnalyzeResultEvent "b" []; ResumeParseResultEvent "r1" [];
              JDAnalyzeResultEvent "a" []]
             ["jd_parsed_b"; "resume_parsed"; "jd_parsed_a"]
             eq_refl eq_refl eq_refl).
    + repeat constructor.
    + repeat constructor; cbn; intuition discriminate.
    + intros k. cbn. intuition.
    + discriminate.
    + intros k _ [].
  - apply (proj1 (proj2 (barrier_fires_on_last_completion sink_ok))
             ex_store_two "s1" [] ["b"; "a"] eq_refl eq_refl).
    + repeat constructor; cbn; intuition discriminate.
    + intros j. cbn. intuition.
    + discriminate.
    + intros j _ [].
  - apply (proj2 (proj2 (proj2 (barrier_fires_on_last_completion sink_ok)))
             (set_completed_steps ["matched_b"; "matched_a"] ex_store_two)
             "s1" "a" eq_refl eq_refl).
Defined.

Lemma session_table_stays_well_formed_witness :
  exists s,
    Dict.get "s1" (fold_left (fun m rq => serve rq m) ex_requests []) = Some s
    /\ length (Session.job_descriptions s) <= 5.
Proof.
  destruct (Dict.get "s1" (fold_left (fun m rq => serve rq m) ex_requests []))
    as [s|] eqn:E; [|vm_compute in E; discriminate E].
  exists s. split; [reflexivity|].
  exact (proj1 (proj2 (proj2 (session_table_stays_well_formed ex_requests) "s1" s E))).
Defined.

Lemma expired_session_is_gone_for_good_witness :
  Session.get_session 0 "s1"
    (fst (Session.get_session 3600000001 "s1" ex_sessions))
  = (fst (Session.get_session 3600000001 "s1" ex_sessions), None).
Proof.
  apply (proj1 (proj2 (proj2 (expired_session_is_gone_for_good 3600000001 "s1"
                                ex_sessions)))).
  reflexivity.
Defined.

Lemma add_job_description_up_to_the_limit_witness :
  exists s',
    Dict.get "s1" (fst (Session.add_job_description 7 "s1" "d" [("title", VStr "x")]
                          ex_sessions)) = Some s'
    /\ Dict.get "d" (Session.job_descriptions s') = Some [("title", VStr "x")]
    /\ forall j, j <> "d" ->
                 Dict.get j (Session.job_descriptions s')
                 = Dict.get j (Session.job_descriptions ex_session).
Proof.
  apply (proj1 (proj2 (add_job_description_up_to_the_limit 7 "s1" "d"
                         [("title", VStr "x")] ex_sessions)) ex_session);
    reflexivity.
Defined.

Lemma delete_session_removes_once_witness :
  Dict.get "old" (fst (Session.delete_session "s1" ex_sessions_mixed))
  = Dict.get "old" ex_sessions_mixed.
Proof.
  apply (proj2 (proj2 (proj2 (delete_session_removes_once "s1" ex_sessions_mixed)))).
  discriminate.
Defined.

Lemma cleanup_removes_exactly_the_expired_witness :
  snd (Session._cleanup_expired 11 ex_sessions_mixed)
  + length (fst (Session._cleanup_expired 11 ex_sessions_mixed))
  = length ex_sessions_mixed.
Proof.
  apply (proj2 (cleanup_removes_exactly_the_expired 11 ex_sessions_mixed
                  ltac:(repeat constructor; cbn; intuition discriminate))).
Defined.

Lemma create_session_is_fresh_and_never_refused_witness :
  exists m' s,
    Session.create_session ["s1"; "s2"] 20 20 20 ex_sessions = Some (m', s).
Proof.
  apply (proj1 (create_session_is_fresh_and_never_refused ["s1"; "s2"] 20 20 20
                  ex_sessions)).
  exists "s2". split; [right; left; reflexivity|reflexivity].
Defined.

Lemma broadcast_keeps_exactly_the_reached_witness :
  Dict.get "s1" (fst (Websocket.broadcast_to_session ex_send_json "t0" "s1"
                        [("type", VStr "ping")] ex_connections))
  = Some [1%nat].
Proof.
  apply (proj2 (proj1 (proj2 (broadcast_keeps_exactly_the_reached ex_send_json "t0"
                                "s1" [("type", VStr "ping")] ex_connections))
                  [1; 2]%nat eq_refl)).
Defined.

Lemma disconnect_leaves_no_empty_entry_witness :
  Dict.get "s1" (Websocket.disconnect 1 "s1" [("s1", [1%nat])]) <> Some [].
Proof.
  exact (proj1 (disconnect_leaves_no_empty_entry 1 "s1" [("s1", [1%nat])])).
Defined.

Lemma connect_needs_a_live_session_witness :
  Websocket.get_connection_count "s1"
    (snd (fst (fst (Websocket.connect 5 3 "s1" ex_sessions ex_connections))))
  = 3.
Proof.
  exact (proj1 (proj2 (proj2 (proj2 (proj2 (proj2
           (connect_needs_a_live_session 5 3 "s1" ex_sessions ex_connections)))
           eq_refl)))).
Defined.

Lemma progress_is_stored_whatever_the_connections_witness :
  exists s',
    Dict.get "s1"
      (fst (fst (Websocket.broadcast_agent_progress ex_send_json "t0" 5 "t1"
                   "s1" "skill_matcher" "running" 40 (Some "Matching") VNone None
                   ex_sessions ex_connections))) = Some s'
    /\ Dict.get "skill_matcher" (Session.agent_progress s')
       = Some {| Session.status := "running"; Session.progress := 40;
                 Session.result := VNone; Session.error := None;
                 Session.updated_at := "t1" |}.
Proof.
  destruct (proj1 (progress_is_stored_whatever_the_connections ex_send_json "t0" 5
                     "t1" "s1" "skill_matcher" "running" 40 (Some "Matching")
                     VNone None ex_sessions ex_connections) ex_session eq_refl)
    as [s' [H1 [H2 _]]].
  exists s'. split; assumption.
Defined.

Lemma analyze_starts_once_witness :
  exists resp,
    snd (Routes.analyze 5 5 "analysis-1" false "8000" "s1" ex_sessions) = inr resp
    /\ Routes.analyze 9 9 "analysis-2" false "8000" "s1"
         (fst (Routes.analyze 5 5 "analysis-1" false "8000" "s1" ex_sessions))
       = (fst (Routes.analyze 5 5 "analysis-1" false "8000" "s1" ex_sessions),
          inl {| Routes.status_code := 409;
                 Routes.detail := "Analysis already in progress" |}).
Proof.
  destruct (proj2 (proj2 (proj2 (analyze_starts_once 5 5 "analysis-1" false "8000"
                                   "s1" ex_sessions) ex_session eq_refl)))
    as [resp [H1 [_ [_ [_ H2]]]]].
  - discriminate.
  - discriminate.
  - discriminate.
  - exists resp. split; [exact H1|]. apply H2. cbn. discriminate.
Defined.

Lemma failed_run_can_be_started_again_witness :
  Dict.get "s1"
    (fst (fst (Routes.run_analysis (fun _ => Raised (OtherException "timeout"))
                 ex_send_json "t0" 5 6 "s1" ex_session ex_sessions ex_connections)))
  = Some (Session.with_analysis_status "failed" ex_session)
  /\ exists resp,
       snd (Routes.analyze 7 7 "analysis-2" false "8000" "s1"
              (fst (fst (Routes.run_analysis
                           (fun _ => Raised (OtherException "timeout"))
                           ex_send_json "t0" 5 6 "s1" ex_session ex_sessions
                           ex_connections)))) = inr resp.
Proof.
  destruct (failed_run_can_be_started_again
              (fun _ => Raised (OtherException "timeout")) ex_send_json "t0" 5 6
              "s1" (OtherException "timeout") ex_session ex_sessions ex_connections
              eq_refl ltac:(cbn; discriminate) eq_refl)
    as [H1 [_ H3]].
  split; [exact H1|].
  apply (H3 7%Z 7%Z "analysis-2" false "8000"); cbn; discriminate.
Defined.

Lemma results_of_a_gone_session_are_dropped_witness :
  snd (Session.get_session 5 "s1"
         (fst (fst (Routes.run_analysis
                      (fun _ => Raised (OtherException "timeout"))
                      ex_send_json "t0" 5 6 "s1" ex_session [] ex_connections))))
  = None.
Proof.
  exact (proj1 (proj2 (results_of_a_gone_session_are_dropped
                         (fun _ => Raised (OtherException "timeout"))
                         ex_send_json "t0" 5 6 "s1" ex_session [] ex_connections
                         eq_refl) eq_refl)).
Defined.

Lemma results_are_served_only_when_ready_witness :
  exists l,
    Dict.get "recommendations"
      [("session_id", VStr "s1"); ("recommendations", VList []);
       ("priority_order", VList []); ("estimated_improvement", VInt 0)]
    = Some (VList l).
Proof.
  exact (proj2 (proj2 (proj1 (results_are_served_only_when_ready 5 "s1" None
                                [("s1", ex_session_done)]) _ eq_refl))).
Defined.

Lemma run_on_parsed_inputs_never_stalls_witness :
  match run_steps repr_stub sink_ok (init_run ex_start3) (firstn 3 ex_script3) with
  | Some r =>
      run_pending r <> []
      /\ forall i ev exec,
           nth_error (run_pending r) i = Some ev ->
           exists r', dispatch repr_stub sink_ok r i exec = Some r'
  | None => False
  end.
Proof.
  destruct (run_steps repr_stub sink_ok (init_run ex_start3) (firstn 3 ex_script3))
    as [r|] eqn:E; [|vm_compute in E; discriminate E].
  assert (Hst : run_status r = Running).
  { vm_compute in E. injection E as <-. reflexivity. }
  assert (Hreach : reachable repr_stub sink_ok ex_start3 r).
  { apply (run_steps_reachable repr_stub sink_ok ex_start3 (firstn 3 ex_script3)
             (init_run ex_start3) r); [constructor | exact E]. }
  apply (run_on_parsed_inputs_never_stalls repr_stub sink_ok "s1" "r1"
           ["a"; "b"; "c"] None None r eq_refl ltac:(discriminate) Hreach Hst).
Defined.

Lemma run_on_parsed_inputs_skips_phase1_witness :
  match run_steps repr_stub sink_ok (init_run ex_start3) ex_script3 with
  | Some r => forall ev, In ev (run_handled r ++ run_pending r) -> is_parse ev = false
  | None => False
  end.
Proof.
  destruct (run_steps repr_stub sink_ok (init_run ex_start3) ex_script3)
    as [r|] eqn:E; [|vm_compute in E; discriminate E].
  assert (Hreach : reachable repr_stub sink_ok ex_start3 r).
  { apply (run_steps_reachable repr_stub sink_ok ex_start3 ex_script3
             (init_run ex_start3) r); [constructor | exact E]. }
  apply (run_on_parsed_inputs_skips_phase1 repr_stub sink_ok "s1" "r1"
           ["a"; "b"; "c"] None None r eq_refl Hreach).
Defined.

Lemma run_on_parsed_inputs_is_bounded_witness :
  match run_steps repr_stub sink_ok (init_run ex_start3) ex_script3 with
  | Some r => length (run_handled r) <= 13
  | None => False
  end.
Proof.
  destruct (run_steps repr_stub sink_ok (init_run ex_start3) ex_script3)
    as [r|] eqn:E; [|vm_compute in E; discriminate E].
  assert (Hreach : reachable repr_stub sink_ok ex_start3 r).
  { apply (run_steps_reachable repr_stub sink_ok ex_start3 ex_script3
             (init_run ex_start3) r); [constructor | exact E]. }
  apply (run_on_parsed_inputs_is_bounded repr_stub sink_ok "s1" "r1"
           ["a"; "b"; "c"] None None r eq_refl
           ltac:(repeat constructor; cbn; intuition discriminate) Hreach).
Defined.

Lemma match_skills_records_every_gap_witness :
  match run_handler (match_skills repr_stub sink_ok (Returned ex_match) "s1" "r1" "a")
                    ex_store_one with
  | Returned hr =>
      py_in (VStr "go") (get_or all_skill_gaps [] (hr_store hr)) = true
  | Raised _ => False
  end.
Proof.
  destruct (run_handler (match_skills repr_stub sink_ok (Returned ex_match)
                           "s1" "r1" "a") ex_store_one)
    as [hr|e] eqn:E; [|vm_compute in E; discriminate E].
  destruct (match_skills_records_every_gap repr_stub sink_ok (Returned ex_match)
              "s1" "r1" "a" ex_store_one hr E)
    as [missing [added (Hiter & _ & _ & Hall)]].
  cbn in Hiter. injection Hiter as <-.
  apply (Hall (VStr "go")); [cbn; tauto|reflexivity].
Defined.


Lemma set_resume_feeds_the_start_event_witness :
  Routes.start_event_of (Session.with_resume "r2" "new text" [] ex_session)
  = Returned (StartAnalysisEvent "s1" "r2" ["a"; "b"; "c"] None None).
Proof.
  exact (proj2 (proj2 (proj2 (proj1 (proj2 (set_resume_feeds_the_start_event 5 "s1"
                                              "r2" "new text" [] ex_sessions))
                                ex_session eq_refl)))).
Defined.

Lemma progress_endpoint_serves_the_broadcast_witness :
  exists resp,
    Routes.get_progress 9 "s1"
      (fst (fst (Websocket.broadcast_agent_progress ex_send_json "t0" 5 "t1"
                   "s1" "skill_matcher" "failed" 0 None VNone (Some "boom")
                   ex_sessions [])))
    = (fst (fst (Websocket.broadcast_agent_progress ex_send_json "t0" 5 "t1"
                   "s1" "skill_matcher" "failed" 0 None VNone (Some "boom")
                   ex_sessions [])),
       inr resp)
    /\ Dict.get "skill_matcher" (Routes.p_agent_progress resp)
       = Some {| Session.status := "failed"; Session.progress := 0;
                 Session.result := VNone; Session.error := Some "boom";
                 Session.updated_at := "t1" |}.
Proof.
  destruct (proj1 (progress_endpoint_serves_the_broadcast ex_send_json "t0" 5 "t1"
                     "s1" "skill_matcher" "failed" 0 None VNone (Some "boom")
                     ex_sessions [] 9) ex_session eq_refl
                  ltac:(cbn; discriminate))
    as [resp [H1 [H2 _]]].
  exists resp. split; assumption.
Defined.

Lemma completed_run_did_exactly_its_work_witness :
  match run_steps repr_stub sink_ok (init_run ex_start3) ex_script3 with
  | Some r => length (run_handled r) = 13
  | None => False
  end.
Proof.
  destruct (run_steps repr_stub sink_ok (init_run ex_start3) ex_script3)
    as [r|] eqn:E; [|vm_compute in E; discriminate E].
  assert (Hst : exists res, run_status r = Completed res).
  { vm_compute in E. injection E as <-. eexists. reflexivity. }
  destruct Hst as [res Hst].
  assert (Hreach : reachable repr_stub sink_ok ex_start3 r).
  { apply (run_steps_reachable repr_stub sink_ok ex_start3 ex_script3
             (init_run ex_start3) r); [constructor | exact E]. }
  apply (completed_run_did_exactly_its_work repr_stub sink_ok "s1" "r1"
           ["a"; "b"; "c"] None None r res eq_refl
           ltac:(repeat constructor; cbn; intuition discriminate)
           ltac:(discriminate) Hreach Hst).
Defined.
